(** * san-resolver: a shallow embedding of [san-resolver.go]

    The program reads lines [IP:PORT [DOMAIN]], resolves each domain through a
    chain of DNS strategies, compares the answer with the expected IP and
    prints the lines whose domain does not resolve to it.

    Layout of the development:
    - [GoStrings], [GoNet]: models of the pieces of Go's [strings], [regexp]
      and [net] packages the program calls;
    - the program itself: [cdnProviders], [DNSRequest], [DNSResult],
      [processDNSRequest], [performReverseLookups], [detectCDN],
      the reader loop of [main], [dnsWorker] and [outputWorker];
    - [FirstVersion]: the first version of the program, for comparison;
    - the theorems: the claims of the specification, then further
      properties of the code. *)

From Stdlib Require Import ZArith NArith List String Ascii Bool Lia Permutation.
From stdpp Require Import gmap strings.
Import ListNotations.
Local Open Scope string_scope.
Local Open Scope list_scope.

(* ===================================================================== *)
(** ** Go strings: bytes, trimming, case, joining                         *)
(* ===================================================================== *)

Module GoStrings.

(** A Go [string] is a sequence of bytes; [len(s)] is its byte length. *)
Definition byte_of (c : ascii) : N := N_of_ascii c.

Definition isDigit (c : ascii) : bool :=
  (48 <=? byte_of c)%N && (byte_of c <=? 57)%N.

Definition digitVal (c : ascii) : N := (byte_of c - 48)%N.

(** [strings.asciiSpace]: tab, newline, vertical tab, form feed, carriage
    return and space. *)
Definition asciiSpace (c : ascii) : bool :=
  let b := byte_of c in
  ((9 <=? b)%N && (b <=? 13)%N) || (b =? 32)%N.

(** The UTF-8 encodings of the runes of [unicode.IsSpace] beyond ASCII:
    U+0085, U+00A0, U+1680, U+2000..U+200A, U+2028, U+2029, U+202F, U+205F,
    U+3000. *)
Definition unicodeSpaces : list (list N) :=
  [ [194; 133]; [194; 160]; [225; 154; 128];
    [226; 128; 128]; [226; 128; 129]; [226; 128; 130]; [226; 128; 131];
    [226; 128; 132]; [226; 128; 133]; [226; 128; 134]; [226; 128; 135];
    [226; 128; 136]; [226; 128; 137]; [226; 128; 138];
    [226; 128; 168]; [226; 128; 169]; [226; 128; 175];
    [226; 129; 159]; [227; 128; 128] ]%N.

Fixpoint bytesPrefix (p : list N) (s : string) : option string :=
  match p with
  | [] => Some s
  | b :: p' =>
      match s with
      | String c s' => if (byte_of c =? b)%N then bytesPrefix p' s' else None
      | EmptyString => None
      end
  end.

(** The rest of [s] after one leading space rune, if [s] starts with one.
    [enc] lists the encodings to try (reversed when scanning from the end). *)
Fixpoint dropSpaceRune (enc : list (list N)) (s : string) : option string :=
  match enc with
  | [] => None
  | p :: enc' =>
      match bytesPrefix p s with
      | Some r => Some r
      | None => dropSpaceRune enc' s
      end
  end.

Fixpoint trimLeftSpace (enc : list (list N)) (fuel : nat) (s : string) : string :=
  match fuel with
  | O => s
  | S fuel' =>
      match s with
      | EmptyString => s
      | String c s' =>
          if asciiSpace c then trimLeftSpace enc fuel' s'
          else match dropSpaceRune enc s with
               | Some r => trimLeftSpace enc fuel' r
               | None => s
               end
      end
  end.

Fixpoint revString (acc s : string) : string :=
  match s with
  | EmptyString => acc
  | String c s' => revString (String c acc) s'
  end.

(** [strings.TrimSpace]: all leading and trailing white space removed, as
    defined by Unicode. *)
Definition TrimSpace (s : string) : string :=
  let l := trimLeftSpace unicodeSpaces (String.length s) s in
  let r := revString "" l in
  revString "" (trimLeftSpace (List.map (@rev N) unicodeSpaces) (String.length r) r).

(** [strings.HasSuffix] and [strings.TrimSuffix]. *)
Definition HasSuffix (s suffix : string) : bool :=
  let n := String.length s in
  let k := String.length suffix in
  (k <=? n)%nat && String.eqb (substring (n - k) k s) suffix.

Definition TrimSuffix (s suffix : string) : string :=
  if HasSuffix s suffix then substring 0 (String.length s - String.length suffix) s
  else s.

(** [strings.ToUpper] on the ASCII letters; the program applies it only to
    the provider names of its table and to its strategy names, all ASCII. *)
Definition upperByte (c : ascii) : ascii :=
  let b := byte_of c in
  if (97 <=? b)%N && (b <=? 122)%N then ascii_of_N (b - 32) else c.

Fixpoint ToUpper (s : string) : string :=
  match s with
  | EmptyString => EmptyString
  | String c s' => String (upperByte c) (ToUpper s')
  end.

(** [strings.Join]. *)
Fixpoint Join (elems : list string) (sep : string) : string :=
  match elems with
  | [] => ""
  | [x] => x
  | x :: rest => x +:+ sep +:+ Join rest sep
  end.

(** [strings.Cut]: the text before and after the first [sep] byte. *)
Fixpoint Cut (s : string) (sep : ascii) : option (string * string) :=
  match s with
  | EmptyString => None
  | String c s' =>
      if Ascii.eqb c sep then Some ("", s')
      else match Cut s' sep with
           | Some (a, b) => Some (String c a, b)
           | None => None
           end
  end.

(** The longest prefix of [s] whose bytes satisfy [p], and the rest. *)
Fixpoint span (p : ascii -> bool) (s : string) : string * string :=
  match s with
  | EmptyString => ("", "")
  | String c s' =>
      if p c then let '(a, b) := span p s' in (String c a, b)
      else ("", s)
  end.

Fixpoint containsByte (c : ascii) (s : string) : bool :=
  match s with
  | EmptyString => false
  | String d s' => Ascii.eqb c d || containsByte c s'
  end.

(** [%d] of a non-negative integer, and lower-case hexadecimal. *)
Fixpoint decDigits (fuel : nat) (n : N) (acc : string) : string :=
  match fuel with
  | O => acc
  | S fuel' =>
      let acc' := String (ascii_of_N (48 + n mod 10)) acc in
      if (n / 10 =? 0)%N then acc' else decDigits fuel' (n / 10) acc'
  end.

Definition itoa (n : N) : string := decDigits (S (N.to_nat (N.log2 n))) n "".

Definition hexDigit (n : N) : ascii :=
  if (n <? 10)%N then ascii_of_N (48 + n) else ascii_of_N (87 + n).

Fixpoint hexDigits (fuel : nat) (n : N) (acc : string) : string :=
  match fuel with
  | O => acc
  | S fuel' =>
      let acc' := String (hexDigit (n mod 16)) acc in
      if (n / 16 =? 0)%N then acc' else hexDigits fuel' (n / 16) acc'
  end.

Definition hex (n : N) : string := hexDigits (S (N.to_nat (N.log2 n))) n "".

End GoStrings.

(* ===================================================================== *)
(** ** Go net: addresses, prefixes, contexts and resolvers                *)
(* ===================================================================== *)

Module GoNet.
Import GoStrings.

(** [net.IP] is a byte slice; the [nil] slice is the empty list. *)
Definition IP := list N.

Definition IPv4len : nat := 4.
Definition IPv6len : nat := 16.
Definition v4InV6Prefix : list N := [0; 0; 0; 0; 0; 0; 0; 0; 0; 0; 255; 255]%N.

Definition isSome {A} (o : option A) : bool :=
  match o with Some _ => true | None => false end.

Definition isZeros (p : list N) : bool := forallb (N.eqb 0) p.
Definition allFF (p : list N) : bool := forallb (N.eqb 255) p.

Fixpoint bytesEqual (a b : list N) : bool :=
  match a, b with
  | [], [] => true
  | x :: a', y :: b' => (x =? y)%N && bytesEqual a' b'
  | _, _ => false
  end.

(** [IP.To4]: the 4-byte form of an IPv4 address (also when it is held as an
    IPv4-mapped 16-byte address), [None] for [nil]. *)
Definition To4 (ip : IP) : option IP :=
  if (length ip =? IPv4len)%nat then Some ip
  else if (length ip =? IPv6len)%nat && isZeros (firstn 10 ip)
          && (nth 10 ip 0 =? 255)%N && (nth 11 ip 0 =? 255)%N
       then Some (firstn 4 (skipn 12 ip))
       else None.

(** The eight 16-bit fields of a 16-byte address. *)
Definition v6u16 (ip : IP) (i : nat) : N :=
  (nth (2 * i) ip 0 * 256 + nth (2 * i + 1) ip 0)%N.

Definition v6fields (ip : IP) : list N := List.map (v6u16 ip) (seq 0 8).

Fixpoint leadingZeros (fs : list N) : nat :=
  match fs with
  | 0%N :: rest => S (leadingZeros rest)
  | _ => 0
  end.

(** The longest run of at least two zero fields, the first one on a tie;
    [(255, 255)] when there is none. *)
Fixpoint longestZeroRun (i : nat) (fs : list N) (best : nat * nat) : nat * nat :=
  match fs with
  | [] => best
  | _ :: rest =>
      let l := leadingZeros fs in
      let best' :=
        if (2 <=? l)%nat && (snd best - fst best <? l)%nat then (i, i + l)%nat
        else best in
      longestZeroRun (S i) rest best'
  end.

Fixpoint appendTo6 (fuel i : nat) (fs : list N) (zeroStart zeroEnd : nat)
    (ret : string) : string :=
  match fuel with
  | O => ret
  | S fuel' =>
      if (8 <=? i)%nat then ret
      else if (i =? zeroStart)%nat then
        let ret := ret +:+ "::" in
        if (8 <=? zeroEnd)%nat then ret
        else appendTo6 fuel' (S zeroEnd) fs zeroStart zeroEnd
               (ret +:+ hex (nth zeroEnd fs 0%N))
      else
        let ret := if (0 <? i)%nat then ret +:+ ":" else ret in
        appendTo6 fuel' (S i) fs zeroStart zeroEnd (ret +:+ hex (nth i fs 0%N))
  end.

Definition string6 (ip : IP) : string :=
  let fs := v6fields ip in
  let '(zs, ze) := longestZeroRun 0 fs (255, 255)%nat in
  appendTo6 8 0 fs zs ze "".

Definition hexByte (b : N) : string :=
  String (hexDigit (b / 16)) (String (hexDigit (b mod 16)) "").

Definition hexString (p : list N) : string :=
  fold_right (fun b acc => hexByte b +:+ acc) "" p.

(** [IP.String]: dotted decimal for IPv4 (also IPv4-mapped), the compressed
    colon form for IPv6, ["<nil>"] for the empty slice and ["?"] followed by
    the bytes in hexadecimal for any other length. *)
Definition IPString (ip : IP) : string :=
  if (length ip =? 0)%nat then "<nil>"
  else if negb (length ip =? IPv4len)%nat && negb (length ip =? IPv6len)%nat
       then "?" +:+ hexString ip
       else match To4 ip with
            | Some p4 => Join (List.map itoa p4) "."
            | None => string6 ip
            end.

(** [netip.Addr] without a zone: an IPv4 or an IPv6 address. *)
Inductive Addr : Type :=
  | Addr4 (b : list N)
  | Addr6 (b : list N).

Definition As16 (a : Addr) : IP :=
  match a with
  | Addr4 b => v4InV6Prefix ++ b
  | Addr6 b => b
  end.

Definition BitLen (a : Addr) : N :=
  match a with Addr4 _ => 32 | Addr6 _ => 128 end.

(** [netip.parseIPv4Fields]: four decimal octets without leading zeros. *)
Fixpoint parseIPv4Fields (s : string) (first prevDot : bool) (val : N)
    (digLen : nat) (fields : list N) : option (list N) :=
  match s with
  | EmptyString =>
      if (length fields <? 3)%nat then None else Some (fields ++ [val])
  | String c s' =>
      if isDigit c then
        if (digLen =? 1)%nat && (val =? 0)%N then None
        else
          let val' := (val * 10 + digitVal c)%N in
          if (255 <? val')%N then None
          else parseIPv4Fields s' false false val' (S digLen) fields
      else if Ascii.eqb c "." then
        if first || String.eqb s' "" || prevDot then None
        else if (length fields =? 3)%nat then None
        else parseIPv4Fields s' false true 0%N 0%nat (fields ++ [val])
      else None
  end.

Definition parseIPv4 (s : string) : option Addr :=
  match parseIPv4Fields s true false 0%N 0%nat [] with
  | Some fields => Some (Addr4 fields)
  | None => None
  end.

Definition isHexDigit (c : ascii) : bool :=
  let b := byte_of c in
  isDigit c || ((97 <=? b)%N && (b <=? 102)%N) || ((65 <=? b)%N && (b <=? 70)%N).

Definition hexVal (c : ascii) : N :=
  let b := byte_of c in
  if isDigit c then (b - 48)%N
  else if (97 <=? b)%N then (b - 87)%N else (b - 55)%N.

Fixpoint hexValue (s : string) (acc : N) : N :=
  match s with
  | EmptyString => acc
  | String c s' => hexValue s' (acc * 16 + hexVal c)%N
  end.

(** The loop of [netip.parseIPv6]: [ip] holds the [i] bytes parsed so far,
    [ellipsis] the byte position of [::] if one was seen.  The result is the
    bytes, the position of the ellipsis and the text left over. *)
Fixpoint parseIPv6Loop (fuel : nat) (s : string) (ip : list N)
    (ellipsis : option nat) : option (list N * option nat * string) :=
  match fuel with
  | O => Some (ip, ellipsis, s)
  | S fuel' =>
      if (16 <=? length ip)%nat then Some (ip, ellipsis, s)
      else
        let '(digs, rest) := span isHexDigit s in
        if (String.length digs =? 0)%nat then None
        else if (4 <? String.length digs)%nat then None
        else
          match rest with
          | String "." _ =>
              let i := length ip in
              if negb (isSome ellipsis) && negb (i =? 12)%nat then None
              else if (16 <? i + 4)%nat then None
              else match parseIPv4Fields s true false 0%N 0%nat [] with
                   | Some f4 => Some (ip ++ f4, ellipsis, "")
                   | None => None
                   end
          | _ =>
              let acc := hexValue digs 0 in
              let ip' := ip ++ [(acc / 256)%N; (acc mod 256)%N] in
              match rest with
              | EmptyString => Some (ip', ellipsis, "")
              | String c EmptyString => None
              | String c (String d rest2 as rest1) =>
                  if negb (Ascii.eqb c ":") then None
                  else if Ascii.eqb d ":" then
                    if isSome ellipsis then None
                    else match rest2 with
                         | EmptyString => Some (ip', Some (length ip'), "")
                         | _ => parseIPv6Loop fuel' rest2 ip' (Some (length ip'))
                         end
                  else parseIPv6Loop fuel' rest1 ip' ellipsis
              end
          end
  end.

Definition parseIPv6 (s0 : string) : option Addr :=
  let '(s, ellipsis, onlyEllipsis) :=
    match s0 with
    | String ":" (String ":" r) => (r, Some 0%nat, String.eqb r "")
    | _ => (s0, None, false)
    end in
  if onlyEllipsis then Some (Addr6 (repeat 0%N 16))
  else
    match parseIPv6Loop 9 s [] ellipsis with
    | None => None
    | Some (ip, ellipsis, rest) =>
        if negb (String.eqb rest "") then None
        else if (length ip <? 16)%nat then
          match ellipsis with
          | None => None
          | Some e =>
              Some (Addr6 (firstn e ip ++ repeat 0%N (16 - length ip) ++ skipn e ip))
          end
        else if isSome ellipsis then None
        else Some (Addr6 ip)
    end.

(** Which parser [netip.ParseAddr] picks: the first of ['.'], [':'], ['%']
    in the text decides. *)
Fixpoint addrKind (s : string) : option ascii :=
  match s with
  | EmptyString => None
  | String c s' =>
      if Ascii.eqb c "." || Ascii.eqb c ":" || Ascii.eqb c "%" then Some c
      else addrKind s'
  end.

(** [netip.ParseAddr] restricted to the answers with an empty zone, the only
    ones [net.ParseIP] and [net.ParseCIDR] accept: a text with a ['%'] is
    either an error or an address with a zone. *)
Definition ParseAddr (s : string) : option Addr :=
  if containsByte "%" s then None
  else match addrKind s with
       | Some "."%char => parseIPv4 s
       | Some ":"%char => parseIPv6 s
       | _ => None
       end.

(** [net.ParseIP]: the 16-byte form of the address, [None] for [nil]. *)
Definition ParseIP (s : string) : option IP :=
  match ParseAddr s with
  | Some a => Some (As16 a)
  | None => None
  end.

(** [net.CIDRMask]. *)
Fixpoint cidrMaskBytes (l : nat) (n : N) : list N :=
  match l with
  | O => []
  | S l' =>
      if (8 <=? n)%N then 255%N :: cidrMaskBytes l' (n - 8)%N
      else (255 - N.shiftr 255 n)%N :: cidrMaskBytes l' 0%N
  end.

Definition CIDRMask (ones bits : N) : list N :=
  if negb (bits =? 32)%N && negb (bits =? 128)%N then []
  else if (bits <? ones)%N then []
  else cidrMaskBytes (N.to_nat (bits / 8)) ones.

Fixpoint andBytes (a b : list N) : list N :=
  match a, b with
  | x :: a', y :: b' => N.land x y :: andBytes a' b'
  | _, _ => []
  end.

(** [IP.Mask]. *)
Definition IPMask (ip : IP) (mask : list N) : IP :=
  let mask :=
    if (length mask =? IPv6len)%nat && (length ip =? IPv4len)%nat
       && allFF (firstn 12 mask)
    then skipn 12 mask else mask in
  let ip :=
    if (length mask =? IPv4len)%nat && (length ip =? IPv6len)%nat
       && bytesEqual (firstn 12 ip) v4InV6Prefix
    then skipn 12 ip else ip in
  if negb (length ip =? length mask)%nat then [] else andBytes ip mask.

Record IPNet : Type := { netIP : IP; netMask : list N }.

Definition allDigits (s : string) : bool :=
  let '(d, rest) := span isDigit s in
  negb (String.eqb d "") && String.eqb rest "".

Fixpoint decValue (s : string) (acc : N) : N :=
  match s with
  | EmptyString => acc
  | String c s' => decValue s' (acc * 10 + digitVal c)%N
  end.

(** [net.ParseCIDR]: the network of a text [address/bits]; [None] for an
    error. *)
Definition ParseCIDR (s : string) : option IPNet :=
  match Cut s "/" with
  | None => None
  | Some (addr, mask) =>
      match ParseAddr addr with
      | None => None
      | Some a =>
          if negb (allDigits mask) then None
          else
            let n := decValue mask 0 in
            if (BitLen a <? n)%N then None
            else
              let m := CIDRMask n (BitLen a) in
              Some {| netIP := IPMask (As16 a) m; netMask := m |}
      end
  end.

(** [net.networkNumberAndMask]; [([], [])] stands for [(nil, nil)]. *)
Definition networkNumberAndMask (n : IPNet) : list N * list N :=
  let ip4 := To4 (netIP n) in
  let ip := match ip4 with Some x => x | None => netIP n end in
  if negb (isSome ip4) && negb (length ip =? IPv6len)%nat then ([], [])
  else
    let m := netMask n in
    if (length m =? IPv4len)%nat then
      if negb (length ip =? IPv4len)%nat then ([], []) else (ip, m)
    else if (length m =? IPv6len)%nat then
      if (length ip =? IPv4len)%nat then (ip, skipn 12 m) else (ip, m)
    else ([], []).

Fixpoint sameUnderMask (nn m ip : list N) : bool :=
  match nn, ip with
  | x :: nn', y :: ip' =>
      let mi := hd 0%N m in
      (N.land x mi =? N.land y mi)%N && sameUnderMask nn' (tl m) ip'
  | _, _ => true
  end.

(** [IPNet.Contains]. *)
Definition Contains (n : IPNet) (ip : IP) : bool :=
  let '(nn, m) := networkNumberAndMask n in
  let ip := match To4 ip with Some x => x | None => ip end in
  if negb (length ip =? length nn)%nat then false
  else sameUnderMask nn m ip.

(** [time.Duration]: a signed 64-bit count of nanoseconds. *)
Definition Duration := Z.
Definition wrap64 (z : Z) : Z := ((z + 2 ^ 63) mod 2 ^ 64 - 2 ^ 63)%Z.
Definition Millisecond : Duration := 1000000%Z.
Definition Second : Duration := 1000000000%Z.

(** [context.Context] as the program builds it: the background context,
    which never expires, or a context derived with [context.WithTimeout]. *)
Inductive Context : Type :=
  | Background
  | WithTimeout (parent : Context) (timeout : Duration).

Definition hasDeadline (ctx : Context) : bool :=
  match ctx with
  | Background => false
  | WithTimeout _ _ => true
  end.

(** A Go [error] value; [None] is the [nil] error. *)
Inductive error : Type := mkError (msg : string).

Definition isNil {A} (e : option A) : bool := negb (isSome e).

(** [net.IPAddr]. *)
Record IPAddr : Type := { addrIP : IP; Zone : string }.

(** [net.Resolver]: whether the Go resolver is forced, and the server and
    dial timeout of its [Dial] function when it has one. *)
Record Resolver : Type := { PreferGo : bool; Dial : option (string * Duration) }.

Definition DefaultResolver : Resolver := {| PreferGo := false; Dial := None |}.

(** The network, as far as the program can observe it: the answers of the
    three lookups of [net.Resolver].  Each answer is Go's pair of a value
    and an error.  For one request the program makes at most one forward
    lookup per resolver and one host lookup, but it may make several
    reverse lookups of the same address, one per goroutine of
    [performReverseLookups], and these need not agree (one may time out, or
    the record may change): the last argument of [LookupAddr] is the
    position of the goroutine that makes the call. *)
Record Network : Type := {
  LookupIPAddr : Resolver -> Context -> string -> list IPAddr * option error;
  LookupHost : Resolver -> Context -> string -> list string * option error;
  LookupAddr : Resolver -> Context -> string -> nat -> list string * option error
}.

(** One call on the network, or a pause, as the program performs them. *)
Inductive NetCall : Type :=
  | CallLookupIPAddr (r : Resolver) (ctx : Context) (host : string)
  | CallLookupHost (r : Resolver) (ctx : Context) (host : string)
  | CallLookupAddr (r : Resolver) (ctx : Context) (addr : string)
  | CallSleep (d : Duration).

Definition callContext (c : NetCall) : option Context :=
  match c with
  | CallLookupIPAddr _ ctx _ => Some ctx
  | CallLookupHost _ ctx _ => Some ctx
  | CallLookupAddr _ ctx _ => Some ctx
  | CallSleep _ => None
  end.

End GoNet.

(* ===================================================================== *)
(** ** The program: data                                                  *)
(* ===================================================================== *)

Import GoStrings GoNet.

Definition NumWorkers : Z := 50.
Definition InputBufferSize : Z := 1000.
Definition DNSTimeout : Duration := (5 * Second)%Z.

(** [cdnProviders], a Go map from provider name to CIDR blocks, written as
    its entries in the order of the source.  A [range] over a Go map visits
    the entries in an order that is not specified and may change from one
    loop to the next: see [detectCDN]. *)
Definition cdnProviders : list (string * list string) :=
  [ ("cloudflare",
     [ "173.245.48.0/20"; "103.21.244.0/22"; "103.22.200.0/22";
       "103.31.4.0/22"; "141.101.64.0/18"; "108.162.192.0/18";
       "190.93.240.0/20"; "188.114.96.0/20"; "197.234.240.0/22";
       "198.41.128.0/17"; "162.158.0.0/15"; "104.16.0.0/13";
       "104.24.0.0/14"; "172.64.0.0/13"; "131.0.72.0/22" ]);
    ("cloudfront",
     [ "52.84.0.0/15"; "54.230.0.0/16"; "54.239.128.0/18";
       "99.84.0.0/16"; "205.251.192.0/19"; "54.239.192.0/19";
       "70.132.0.0/18"; "13.32.0.0/15"; "13.35.0.0/16";
       "204.246.164.0/22"; "204.246.168.0/22"; "71.152.0.0/17" ]);
    ("aws_global_accelerator",
     [ "75.2.0.0/16"; "99.77.0.0/16"; "99.83.0.0/16";
       "108.136.0.0/13"; "130.176.0.0/12"; "150.222.0.0/16";
       "15.177.0.0/18"; "52.93.0.0/16"; "54.239.0.0/16" ]);
    ("fastly",
     [ "23.235.32.0/20"; "43.249.72.0/22"; "103.244.50.0/24";
       "103.245.222.0/23"; "103.245.224.0/24"; "104.156.80.0/20";
       "140.248.64.0/18"; "140.248.128.0/17"; "146.75.0.0/16";
       "151.101.0.0/16"; "157.52.64.0/18"; "167.82.0.0/17";
       "167.82.128.0/20"; "167.82.160.0/20"; "167.82.224.0/20";
       "172.111.64.0/18"; "185.31.16.0/22"; "199.27.72.0/21";
       "199.232.0.0/16" ]);
    ("akamai",
     [ "23.0.0.0/12"; "2.16.0.0/13"; "23.192.0.0/11"; "23.32.0.0/11";
       "23.64.0.0/14"; "23.72.0.0/13"; "96.16.0.0/15"; "96.6.0.0/15";
       "104.64.0.0/10"; "184.24.0.0/13"; "184.50.0.0/15"; "184.84.0.0/14";
       "172.224.0.0/12"; "172.240.0.0/13" ]) ].

(** [DNSRequest]; its [line] field is [req_line] here, since [DNSResult]
    has a field of the same name. *)
Record DNSRequest : Type := {
  req_line : string;
  expectedIP : string;
  domain : string
}.

Record DNSResult : Type := {
  line : string;
  shouldPrint : bool;
  status : string;
  resolvedIPs : list string
}.

(* ===================================================================== *)
(** ** The program: reading a line                                        *)
(* ===================================================================== *)

(** The class [\s] of Go's [regexp]: tab, newline, form feed, carriage
    return, space. *)
Definition isReSpace (c : ascii) : bool :=
  let b := byte_of c in
  (b =? 9)%N || (b =? 10)%N || (b =? 12)%N || (b =? 13)%N || (b =? 32)%N.

Definition notCloseBracket (c : ascii) : bool := negb (Ascii.eqb c "]").

Definition many1 (p : ascii -> bool) (s : string) : option (string * string) :=
  let '(a, rest) := span p s in
  if String.eqb a "" then None else Some (a, rest).

Definition lit (c : ascii) (s : string) : option string :=
  match s with
  | String d rest => if Ascii.eqb c d then Some rest else None
  | EmptyString => None
  end.

(** [re.FindStringSubmatch] for the pattern of [main],
    [^(\d+\.\d+\.\d+\.\d+):(\d+)\s+\[([^\]]+)\]]:
    the whole match and its three groups, or [nil]. *)
Definition FindStringSubmatch (s : string) : list string :=
  let m :=
    '(a, s) ← many1 isDigit s; s ← lit "." s;
    '(b, s) ← many1 isDigit s; s ← lit "." s;
    '(c, s) ← many1 isDigit s; s ← lit "." s;
    '(d, s) ← many1 isDigit s; s ← lit ":" s;
    '(port, s) ← many1 isDigit s;
    '(ws, s) ← many1 isReSpace s; s ← lit "[" s;
    '(dom, s) ← many1 notCloseBracket s; s ← lit "]" s;
    let ip := a +:+ "." +:+ b +:+ "." +:+ c +:+ "." +:+ d in
    Some [ip +:+ ":" +:+ port +:+ ws +:+ "[" +:+ dom +:+ "]"; ip; port; dom] in
  match m with
  | Some matches => matches
  | None => []
  end.

(** What the reader loop of [main] makes of one line of input: nothing for
    an empty line, a [MALFORMED] result, or a request for the workers. *)
Inductive Parsed : Type :=
  | SkipLine
  | MalformedLine (result : DNSResult)
  | RequestLine (request : DNSRequest).

Definition parseLine (text : string) : Parsed :=
  let line := TrimSpace text in
  if String.eqb line "" then SkipLine
  else
    let matches := FindStringSubmatch line in
    if negb (length matches =? 4)%nat then
      MalformedLine {| line := line; shouldPrint := true;
                       status := "MALFORMED"; resolvedIPs := [] |}
    else
      RequestLine {| req_line := line;
                     expectedIP := nth 1 matches "";
                     domain := nth 3 matches "" |}.

(* ===================================================================== *)
(** ** The program: printing a result                                     *)
(* ===================================================================== *)

(** The lines one result adds to standard output.  The same code stands in
    [outputWorker], in the direct print of [dnsWorker] and in the direct
    print of the reader loop. *)
Definition printResult (result : DNSResult) : list string :=
  if shouldPrint result then
    if (0 <? length (resolvedIPs result))%nat then
      [line result +:+ " " +:+ status result +:+ " "
         +:+ Join (resolvedIPs result) ","]
    else [line result +:+ " " +:+ status result]
  else [].

(** [outputWorker] over the results it receives, in the order of arrival. *)
Definition outputWorker (outputChan : list DNSResult) : list string :=
  flat_map printResult outputChan.

(* ===================================================================== *)
(** ** The program: resolving one request                                 *)
(* ===================================================================== *)

(** A resolver that dials one fixed server, as strategies 3 to 6 and the
    two forced modes build it. *)
Definition dialResolver (server : string) (dnsTimeout : Duration) : Resolver :=
  {| PreferGo := true; Dial := Some (server, dnsTimeout) |}.

Definition systemResolver : Resolver := DefaultResolver.
Definition goBuiltinResolver : Resolver := {| PreferGo := true; Dial := None |}.
Definition googleResolver := dialResolver "8.8.8.8:53".
Definition cloudflareResolver := dialResolver "1.1.1.1:53".
Definition quad9Resolver := dialResolver "9.9.9.9:53".
Definition openDNSResolver := dialResolver "208.67.222.222:53".

(** The [strategies] slice of [processDNSRequest].  Every strategy is a
    closure [resolver.LookupIPAddr(ctx, domain)] over one resolver, so the
    resolver stands for the strategy. *)
Definition buildStrategies (dnsTimeout : Duration)
    (forceGoogle forceCF noSystemDNS : bool) : list Resolver :=
  if forceGoogle then [googleResolver dnsTimeout]
  else if forceCF then [cloudflareResolver dnsTimeout]
  else
    (if negb noSystemDNS then [systemResolver; goBuiltinResolver] else [])
    ++ [ googleResolver dnsTimeout; cloudflareResolver dnsTimeout;
         quad9Resolver dnsTimeout; openDNSResolver dnsTimeout ].

(** The variables of the resolution loop, with the network calls made so
    far. *)
Record Attempt : Type := {
  ips : list IPAddr;
  err : option error;
  successfulStrategy : Z;
  calls : list NetCall
}.

Definition noAttempt : Attempt :=
  {| ips := []; err := None; successfulStrategy := (-1)%Z; calls := [] |}.

(** [for i, strategy := range strategies]: stop at the first strategy that
    answers without error and with at least one address, pause 50ms after
    any other. *)
Fixpoint tryStrategies (net : Network) (ctx : Context) (dom : string)
    (i : Z) (strategies : list Resolver) (st : Attempt) : Attempt :=
  match strategies with
  | [] => st
  | strategy :: rest =>
      let '(ips', err') := LookupIPAddr net strategy ctx dom in
      let calls' := calls st ++ [CallLookupIPAddr strategy ctx dom] in
      if isNil err' && (0 <? length ips')%nat then
        {| ips := ips'; err := err'; successfulStrategy := i; calls := calls' |}
      else
        tryStrategies net ctx dom (i + 1)%Z rest
          {| ips := ips'; err := err';
             successfulStrategy := successfulStrategy st;
             calls := calls' ++ [CallSleep (50 * Millisecond)%Z] |}
  end.

(** The addresses among the texts [hosts], as [net.IPAddr] values. *)
Definition hostsToIPAddrs (hosts : list string) : list IPAddr :=
  flat_map (fun host =>
              match ParseIP host with
              | Some ip => [{| addrIP := ip; Zone := "" |}]
              | None => []
              end) hosts.

(** [if err != nil { hosts, err = net.LookupHost(request.domain) ... }]:
    [net.LookupHost] is [DefaultResolver.LookupHost] under
    [context.Background()]. *)
Definition lookupHostFallback (net : Network) (dom : string)
    (nStrategies : nat) (st : Attempt) : Attempt :=
  if isSome (err st) then
    let '(hosts, err') := LookupHost net DefaultResolver Background dom in
    let calls' := calls st ++ [CallLookupHost DefaultResolver Background dom] in
    if isNil err' && (0 <? length hosts)%nat then
      {| ips := ips st ++ hostsToIPAddrs hosts; err := err';
         successfulStrategy := Z.of_nat nStrategies; calls := calls' |}
    else
      {| ips := ips st; err := err';
         successfulStrategy := successfulStrategy st; calls := calls' |}
  else st.

(** Lines 304 to 332: the strategies, then the fallback. *)
Definition resolve (net : Network) (ctx : Context) (dom : string)
    (strategies : list Resolver) : Attempt :=
  lookupHostFallback net dom (length strategies)
    (tryStrategies net ctx dom 0%Z strategies noAttempt).

(* ===================================================================== *)
(** ** The program: the CDN classifier                                    *)
(* ===================================================================== *)

(** [for _, cidr := range cidrs]: a block that does not parse is skipped. *)
Fixpoint inCIDRs (parsedIP : IP) (cidrs : list string) : bool :=
  match cidrs with
  | [] => false
  | cidr :: rest =>
      match ParseCIDR cidr with
      | None => inCIDRs parsedIP rest
      | Some ipnet => if Contains ipnet parsedIP then true else inCIDRs parsedIP rest
      end
  end.

(** [for provider, cidrs := range cdnProviders], over the entries in the
    order the loop happens to visit them. *)
Fixpoint firstProvider (parsedIP : IP) (entries : list (string * list string))
    : option string :=
  match entries with
  | [] => None
  | (provider, cidrs) :: rest =>
      if inCIDRs parsedIP cidrs then Some provider
      else firstProvider parsedIP rest
  end.

(** [detectCDN].  [rangeOrder k] is the order in which the [range] over
    [cdnProviders] visits the entries for the address at position [k]: Go
    leaves it open, so it is a parameter; [validOrder] says that it is an
    order of the table. *)
Fixpoint detectCDNFrom (rangeOrder : nat -> list (string * list string))
    (k : nat) (ips : list string) : string :=
  match ips with
  | [] => ""
  | ip :: rest =>
      match ParseIP ip with
      | None => detectCDNFrom rangeOrder (S k) rest
      | Some parsedIP =>
          match firstProvider parsedIP (rangeOrder k) with
          | Some provider => provider
          | None => detectCDNFrom rangeOrder (S k) rest
          end
      end
  end.

Definition detectCDN (rangeOrder : nat -> list (string * list string))
    (ips : list string) : string :=
  detectCDNFrom rangeOrder 0 ips.

Definition validOrder (rangeOrder : nat -> list (string * list string)) : Prop :=
  forall k, Permutation (rangeOrder k) cdnProviders.

(** The order of the source text, at every loop. *)
Definition sourceOrder : nat -> list (string * list string) :=
  fun _ => cdnProviders.

(** The reverse order, at every loop. *)
Definition reverseOrder : nat -> list (string * list string) :=
  fun _ => rev cdnProviders.

(* ===================================================================== *)
(** ** The program: reverse lookups                                       *)
(* ===================================================================== *)

Record reverseResult : Type := { rr_ip : string; hostname : string }.

(** The body of the goroutine at position [i] of [performReverseLookups]:
    one reverse lookup under a 2 second timeout derived from [ctx]. *)
Definition reverseLookup (net : Network) (resolver : Resolver) (ctx : Context)
    (i : nat) (ipAddr : string) : reverseResult :=
  let reverseCtx := WithTimeout ctx (2 * Second)%Z in
  let '(hostnames, err') := LookupAddr net resolver reverseCtx ipAddr i in
  if isSome err' || (length hostnames =? 0)%nat then
    {| rr_ip := ipAddr; hostname := "" |}
  else
    {| rr_ip := ipAddr; hostname := TrimSuffix (hd "" hostnames) "." |}.

(** The collecting loop: at most [len(ips)] results are taken from the
    channel.  [arrivals] lists the goroutines (by position in [ips]) whose
    result the loop received, in the order of receipt; a goroutine whose
    result did not arrive before the context was done is not in it.  A
    later result for the same address overwrites an earlier one. *)
Definition collectResults (n : nat) (arrivals : list nat)
    (results : list reverseResult) : gmap string string :=
  fold_left
    (fun (reverseMap : gmap string string) i =>
       match results !! i with
       | Some result => <[rr_ip result := hostname result]> reverseMap
       | None => reverseMap
       end)
    (firstn n arrivals) ∅.

Definition formatIP (reverseMap : gmap string string) (ip : string) : string :=
  match reverseMap !! ip with
  | Some h => if negb (String.eqb h "") then ip +:+ "[" +:+ h +:+ "]" else ip
  | None => ip
  end.

(** [performReverseLookups]: the formatted addresses, and the lookups the
    goroutines make, in the order the goroutines are started.  [results]
    holds the result of each goroutine, by position. *)
Definition performReverseLookups (net : Network) (resolver : Resolver)
    (ctx : Context) (arrivals : list nat) (ips : list string)
    : list string * list NetCall :=
  let results := imap (reverseLookup net resolver ctx) ips in
  let reverseMap := collectResults (length ips) arrivals results in
  (List.map (formatIP reverseMap) ips,
   List.map (fun ip => CallLookupAddr resolver (WithTimeout ctx (2 * Second)%Z) ip) ips).

(* ===================================================================== *)
(** ** The program: [processDNSRequest]                                   *)
(* ===================================================================== *)

(** What the run-time leaves open while one request is processed. *)
Record Schedule : Type := {
  rangeOrder : nat -> list (string * list string);
  arrivals : list nat
}.

(** Lines 366 to 371. *)
Definition mismatchStatus (cdnProvider : string) : string :=
  if negb (String.eqb cdnProvider "") then "CDN_MISMATCH_" +:+ ToUpper cdnProvider
  else "IP_MISMATCH".

Definition strategyNames : list string :=
  ["system"; "go-builtin"; "google"; "cloudflare"; "quad9"; "opendns"; "fallback"].

(** Lines 373 to 379. *)
Definition verboseStatus (verbose : bool) (successfulStrategy : Z)
    (status : string) : string :=
  if verbose then
    if (0 <=? successfulStrategy)%Z
       && (successfulStrategy <? Z.of_nat (length strategyNames))%Z
    then status +:+ "_VIA_"
           +:+ ToUpper (nth (Z.to_nat successfulStrategy) strategyNames "")
    else status
  else status.

(** [context.WithTimeout(context.Background(), dnsTimeout*3)]. *)
Definition requestContext (dnsTimeout : Duration) : Context :=
  WithTimeout Background (wrap64 (dnsTimeout * 3)).

(** [processDNSRequest]: the result, and the network calls made for it. *)
Definition processDNSRequest (net : Network) (sched : Schedule)
    (request : DNSRequest) (dnsTimeout : Duration)
    (forceGoogle forceCF noSystemDNS verbose : bool)
    : DNSResult * list NetCall :=
  let ctx := requestContext dnsTimeout in
  let strategies := buildStrategies dnsTimeout forceGoogle forceCF noSystemDNS in
  let st := resolve net ctx (domain request) strategies in
  if isSome (err st) || (length (ips st) =? 0)%nat then
    ({| line := req_line request; shouldPrint := true;
        status := "DNS_FAILURE"; resolvedIPs := [] |}, calls st)
  else
    let resolvedIPStrings := List.map (fun ip => IPString (addrIP ip)) (ips st) in
    let foundMatch :=
      existsb (fun ipStr => String.eqb ipStr (expectedIP request)) resolvedIPStrings in
    if foundMatch then
      ({| line := req_line request; shouldPrint := false;
          status := "MATCH"; resolvedIPs := resolvedIPStrings |}, calls st)
    else
      let cdnProvider := detectCDN (rangeOrder sched) resolvedIPStrings in
      let status0 := mismatchStatus cdnProvider in
      let status1 := verboseStatus verbose (successfulStrategy st) status0 in
      let '(formattedIPs, reverseCalls) :=
        performReverseLookups net DefaultResolver ctx (arrivals sched)
          resolvedIPStrings in
      ({| line := req_line request; shouldPrint := true;
          status := status1; resolvedIPs := formattedIPs |},
       calls st ++ reverseCalls).

(* ===================================================================== *)
(** ** The program: the pipeline of [main]                                *)
(* ===================================================================== *)

(** The flags of [main]. *)
Record Config : Type := {
  workers : Z;
  bufferSize : Z;
  dnsTimeout : Duration;
  forceGoogle : bool;
  forceCF : bool;
  noSystemDNS : bool;
  verbose : bool
}.

(** A result [processDNSRequest] can return for a request, under some
    schedule of the run-time. *)
Definition processed (cfg : Config) (net : Network) (request : DNSRequest)
    (result : DNSResult) : Prop :=
  exists sched,
    validOrder (rangeOrder sched) /\
    result = fst (processDNSRequest net sched request (dnsTimeout cfg)
                    (forceGoogle cfg) (forceCF cfg) (noSystemDNS cfg) (verbose cfg)).

(** One [dnsWorker]: waiting at [range inputChan], holding the result of
    a request at its [select], or returned. *)
Inductive Worker : Type :=
  | WIdle
  | WHolding (request : DNSRequest) (result : DNSResult)
  | WExited.

(** [main] after it has started the goroutines: at [wg.Wait()], at
    [<-outputDone] (the result channel is closed), returned, or stopped by a
    panic of a goroutine. *)
Inductive MainState : Type :=
  | MainWaiting
  | MainClosed
  | MainExited
  | MainPanicked.

(** The three places where a result leaves the program. *)
Inductive Path : Type :=
  | ByOutputWorker
  | ByWorker
  | ByReader.

(** A result that has left the program (printed, or dropped because its
    [shouldPrint] is false), with the request it answers ([None] for a
    malformed line).  This is bookkeeping of the model. *)
Record Emission : Type := {
  origin : option DNSRequest;
  emitted : DNSResult;
  path : Path
}.

(** The state of the running program.  [inputChan] and [outputChan] are the
    contents of the two channels, oldest first; a result in [outputChan]
    carries the request it answers, as bookkeeping.  [accepted] lists the
    requests the reader has built, [outcomes] the results that have left. *)
Record State : Type := St {
  stdin : list string;
  readerDone : bool;
  inputChan : list DNSRequest;
  pool : list Worker;
  outputChan : list (option DNSRequest * DNSResult);
  outputClosed : bool;
  sinkDone : bool;
  mainAt : MainState;
  stdout : list string;
  accepted : list DNSRequest;
  outcomes : list Emission
}.

(** The state after [main] has started its goroutines.  [main] exits with
    status 1 when both forced modes are set, and [make] panics on a
    negative buffer size: there is no run then. *)
Definition start (cfg : Config) (lines : list string) : option State :=
  if forceGoogle cfg && forceCF cfg then None
  else if (bufferSize cfg <? 0)%Z then None
  else Some (St lines false [] (repeat WIdle (Z.to_nat (workers cfg))) []
               false false MainWaiting [] [] []).

(** A send on a channel can go through when the buffer has room, or when
    the buffer is empty and a receiver waits (the only way for a channel
    of capacity 0).  The [time.After(time.Second)] branch of a [select] is
    left free to fire whenever the channel is open and the send has not
    happened: the program takes it only after a second without room, so
    every run of the program is a run of the model. *)
Definition canSendInput (cfg : Config) (s : State) : Prop :=
  (Z.of_nat (length (inputChan s)) < bufferSize cfg)%Z
  \/ (inputChan s = [] /\ In WIdle (pool s)).

Definition canSendOutput (cfg : Config) (s : State) : Prop :=
  (Z.of_nat (length (outputChan s)) < bufferSize cfg)%Z
  \/ (outputChan s = [] /\ sinkDone s = false).

Definition running (s : State) : Prop :=
  mainAt s = MainWaiting \/ mainAt s = MainClosed.

(** The reader goroutine of [main], one input line per step. *)
Inductive reader_step (cfg : Config) (net : Network) : State -> State -> Prop :=
  | R_skip text rest ic pl oc ocl sd m so acc outs :
      parseLine text = SkipLine ->
      reader_step cfg net
        (St (text :: rest) false ic pl oc ocl sd m so acc outs)
        (St rest false ic pl oc ocl sd m so acc outs)
  | R_malformed_send text rest result ic pl oc sd m so acc outs :
      parseLine text = MalformedLine result ->
      canSendOutput cfg (St (text :: rest) false ic pl oc false sd m so acc outs) ->
      reader_step cfg net
        (St (text :: rest) false ic pl oc false sd m so acc outs)
        (St rest false ic pl (oc ++ [(None, result)]) false sd m so acc outs)
  | R_malformed_print text rest result ic pl oc sd m so acc outs :
      parseLine text = MalformedLine result ->
      reader_step cfg net
        (St (text :: rest) false ic pl oc false sd m so acc outs)
        (St rest false ic pl oc false sd m
           (so ++ [line result +:+ " MALFORMED"]) acc
           (outs ++ [{| origin := None; emitted := result; path := ByReader |}]))
  | R_malformed_closed text rest result ic pl oc sd m so acc outs :
      (* a send on the closed result channel panics *)
      parseLine text = MalformedLine result ->
      reader_step cfg net
        (St (text :: rest) false ic pl oc true sd m so acc outs)
        (St rest false ic pl oc true sd MainPanicked so acc outs)
  | R_enqueue text rest request ic pl oc ocl sd m so acc outs :
      parseLine text = RequestLine request ->
      canSendInput cfg (St (text :: rest) false ic pl oc ocl sd m so acc outs) ->
      reader_step cfg net
        (St (text :: rest) false ic pl oc ocl sd m so acc outs)
        (St rest false (ic ++ [request]) pl oc ocl sd m so (acc ++ [request]) outs)
  | R_inline_send text rest request result ic pl oc sd m so acc outs :
      parseLine text = RequestLine request ->
      processed cfg net request result ->
      canSendOutput cfg (St (text :: rest) false ic pl oc false sd m so acc outs) ->
      reader_step cfg net
        (St (text :: rest) false ic pl oc false sd m so acc outs)
        (St rest false ic pl (oc ++ [(Some request, result)]) false sd m so
           (acc ++ [request]) outs)
  | R_inline_print text rest request result ic pl oc sd m so acc outs :
      parseLine text = RequestLine request ->
      processed cfg net request result ->
      reader_step cfg net
        (St (text :: rest) false ic pl oc false sd m so acc outs)
        (St rest false ic pl oc false sd m (so ++ printResult result)
           (acc ++ [request])
           (outs ++ [{| origin := Some request; emitted := result; path := ByReader |}]))
  | R_inline_closed text rest request result ic pl oc sd m so acc outs :
      (* a send on the closed result channel panics *)
      parseLine text = RequestLine request ->
      processed cfg net request result ->
      reader_step cfg net
        (St (text :: rest) false ic pl oc true sd m so acc outs)
        (St rest false ic pl oc true sd MainPanicked so (acc ++ [request]) outs)
  | R_close ic pl oc ocl sd m so acc outs :
      (* the input is exhausted: the deferred [close(inputChan)] *)
      reader_step cfg net
        (St [] false ic pl oc ocl sd m so acc outs)
        (St [] true ic pl oc ocl sd m so acc outs).

(** One [dnsWorker]. *)
Inductive dnsWorker_step (cfg : Config) (net : Network) : State -> State -> Prop :=
  | W_receive request result si rd ic l1 l2 oc ocl sd m so acc outs :
      processed cfg net request result ->
      dnsWorker_step cfg net
        (St si rd (request :: ic) (l1 ++ WIdle :: l2) oc ocl sd m so acc outs)
        (St si rd ic (l1 ++ WHolding request result :: l2) oc ocl sd m so acc outs)
  | W_send request result si rd ic l1 l2 oc sd m so acc outs :
      canSendOutput cfg
        (St si rd ic (l1 ++ WHolding request result :: l2) oc false sd m so acc outs) ->
      dnsWorker_step cfg net
        (St si rd ic (l1 ++ WHolding request result :: l2) oc false sd m so acc outs)
        (St si rd ic (l1 ++ WIdle :: l2) (oc ++ [(Some request, result)]) false
           sd m so acc outs)
  | W_print request result si rd ic l1 l2 oc sd m so acc outs :
      dnsWorker_step cfg net
        (St si rd ic (l1 ++ WHolding request result :: l2) oc false sd m so acc outs)
        (St si rd ic (l1 ++ WIdle :: l2) oc false sd m (so ++ printResult result) acc
           (outs ++ [{| origin := Some request; emitted := result; path := ByWorker |}]))
  | W_send_closed request result si rd ic l1 l2 oc sd m so acc outs :
      (* a send on the closed result channel panics *)
      dnsWorker_step cfg net
        (St si rd ic (l1 ++ WHolding request result :: l2) oc true sd m so acc outs)
        (St si rd ic (l1 ++ WHolding request result :: l2) oc true sd MainPanicked
           so acc outs)
  | W_exit si l1 l2 oc ocl sd m so acc outs :
      (* [inputChan] is closed and drained: [wg.Done()] *)
      dnsWorker_step cfg net
        (St si true [] (l1 ++ WIdle :: l2) oc ocl sd m so acc outs)
        (St si true [] (l1 ++ WExited :: l2) oc ocl sd m so acc outs).

(** [outputWorker]. *)
Inductive outputWorker_step : State -> State -> Prop :=
  | S_receive o result si rd ic pl oc ocl m so acc outs :
      outputWorker_step
        (St si rd ic pl ((o, result) :: oc) ocl false m so acc outs)
        (St si rd ic pl oc ocl false m (so ++ printResult result) acc
           (outs ++ [{| origin := o; emitted := result; path := ByOutputWorker |}]))
  | S_done si rd ic pl m so acc outs :
      (* [outputChan] is closed and drained: [done <- true] *)
      outputWorker_step
        (St si rd ic pl [] true false m so acc outs)
        (St si rd ic pl [] true true m so acc outs).

(** [main]: [wg.Wait(); close(outputChan); <-outputDone]. *)
Inductive main_step : State -> State -> Prop :=
  | M_close si rd ic pl oc sd so acc outs :
      Forall (fun w => w = WExited) pl ->
      main_step
        (St si rd ic pl oc false sd MainWaiting so acc outs)
        (St si rd ic pl oc true sd MainClosed so acc outs)
  | M_exit si rd ic pl oc ocl so acc outs :
      main_step
        (St si rd ic pl oc ocl true MainClosed so acc outs)
        (St si rd ic pl oc ocl true MainExited so acc outs).

(** One step of the program: a step of one of its goroutines, as long as
    [main] has not returned (after which the process is gone). *)
Definition step (cfg : Config) (net : Network) (s s' : State) : Prop :=
  running s /\
  (reader_step cfg net s s' \/ dnsWorker_step cfg net s s'
   \/ outputWorker_step s s' \/ main_step s s').

(** Runs of [n] steps. *)
Inductive run (cfg : Config) (net : Network) : nat -> State -> State -> Prop :=
  | run_nil s : run cfg net 0 s s
  | run_step n s s' s'' :
      run cfg net n s s' -> step cfg net s' s'' -> run cfg net (S n) s s''.

Definition halted (cfg : Config) (net : Network) (s : State) : Prop :=
  forall s', step cfg net s s' -> False.

(** The requests among input lines, in order. *)
Definition requestsOf (lines : list string) : list DNSRequest :=
  flat_map (fun text =>
              match parseLine text with
              | RequestLine request => [request]
              | _ => []
              end) lines.

Definition heldBy (pl : list Worker) : list DNSRequest :=
  flat_map (fun w =>
              match w with
              | WHolding request _ => [request]
              | _ => []
              end) pl.

Definition queuedOrigins (oc : list (option DNSRequest * DNSResult))
    : list DNSRequest :=
  flat_map (fun x => match fst x with Some request => [request] | None => [] end) oc.

(** The requests whose result has left the program, one entry per result. *)
Definition served (outs : list Emission) : list DNSRequest :=
  flat_map (fun e => match origin e with Some request => [request] | None => [] end) outs.

(** How far a state is from the end of the run. *)
Definition workerWeight (w : Worker) : nat :=
  match w with
  | WIdle => 1
  | WHolding _ _ => 3
  | WExited => 0
  end.

Definition poolWeight (pl : list Worker) : nat :=
  fold_right (fun w n => workerWeight w + n) 0 pl.

Definition mainWeight (m : MainState) : nat :=
  match m with
  | MainWaiting => 2
  | MainClosed => 1
  | _ => 0
  end.

Definition measure (s : State) : nat :=
  4 * length (stdin s) + (if readerDone s then 0 else 1)
  + 3 * length (inputChan s) + poolWeight (pool s)
  + length (outputChan s) + (if sinkDone s then 0 else 1)
  + mainWeight (mainAt s).

(* ===================================================================== *)
(** ** What the claims speak of                                           *)
(* ===================================================================== *)

(** An address text lies inside a CIDR block of the table. *)
Definition insidePrefix (ip cidr : string) : Prop :=
  exists parsedIP ipnet,
    ParseIP ip = Some parsedIP /\ ParseCIDR cidr = Some ipnet
    /\ Contains ipnet parsedIP = true.

(** An address text falls inside one of the prefixes of a provider. *)
Definition fallsInside (ip provider : string) : Prop :=
  exists cidrs cidr,
    In (provider, cidrs) cdnProviders /\ In cidr cidrs /\ insidePrefix ip cidr.

Definition inAnyPrefix (ip : string) : Prop :=
  exists provider, fallsInside ip provider.



(** An entry of the output of [performReverseLookups] on the list [ips]
    for the address [ip]: the bare address, or the address with the first
    name of a reverse lookup of it, made by a goroutine started for this
    address, without one trailing dot. *)
Definition annotated (net : Network) (resolver : Resolver) (ctx : Context)
    (ips : list string) (ip entry : string) : Prop :=
  entry = ip
  \/ exists i raw others,
       ips !! i = Some ip
       /\ LookupAddr net resolver (WithTimeout ctx (2 * Second)%Z) ip i
          = (raw :: others, None)
       /\ entry = ip +:+ "[" +:+ TrimSuffix raw "." +:+ "]".

(** Every binding of the map built by the collecting loop is the answer of
    a goroutine started for its key. *)
Definition fromGoroutines (net : Network) (resolver : Resolver) (ctx : Context)
    (ips : list string) (reverseMap : gmap string string) : Prop :=
  forall k v, reverseMap !! k = Some v ->
              exists i, ips !! i = Some k
                        /\ v = hostname (reverseLookup net resolver ctx i k).

(** The providers one of whose prefixes contains the address text, in the
    order of the source. *)
Definition providersOf (ip : string) : list string :=
  match ParseIP ip with
  | Some p =>
      List.map fst (List.filter (fun e => inCIDRs p (snd e)) cdnProviders)
  | None => []
  end.

(** The convention of Go's lookups: an answer with an error carries no
    address. *)
Definition errorsCarryNoAddress (net : Network) : Prop :=
  forall r ctx host answer e,
    LookupIPAddr net r ctx host = (answer, Some e) -> answer = [].

Definition isLookupIPAddrCall (c : NetCall) : bool :=
  match c with
  | CallLookupIPAddr _ _ _ => true
  | _ => false
  end.

Definition isLookupHostCall (c : NetCall) : bool :=
  match c with
  | CallLookupHost _ _ _ => true
  | _ => false
  end.

(** A network call made under a context without deadline. *)
Definition withoutDeadline (c : NetCall) : bool :=
  match callContext c with
  | Some ctx => negb (hasDeadline ctx)
  | None => false
  end.

(* ===================================================================== *)
(** ** Concrete inputs for the examples                                   *)
(* ===================================================================== *)

Definition sampleRequest : DNSRequest :=
  {| req_line := "1.2.3.4:443 [example.com]";
     expectedIP := "1.2.3.4";
     domain := "example.com" |}.

(** An IPv4 address in the 16-byte form of [net.IPv4]. *)
Definition ipv4 (a b c d : N) : IPAddr :=
  {| addrIP := v4InV6Prefix ++ [a; b; c; d]; Zone := "" |}.


Definition noSuchHost : option error := Some (mkError "no such host").

(** No lookup succeeds. *)
Definition netDown : Network :=
  {| LookupIPAddr := fun _ _ _ => ([], noSuchHost);
     LookupHost := fun _ _ _ => ([], noSuchHost);
     LookupAddr := fun _ _ _ _ => ([], noSuchHost) |}.

(** Every forward lookup returns no address and no error, while the
    generic host lookup knows an address. *)
Definition netEmptyAnswer : Network :=
  {| LookupIPAddr := fun _ _ _ => ([], None);
     LookupHost := fun _ _ _ => (["93.184.216.34"], None);
     LookupAddr := fun _ _ _ _ => ([], noSuchHost) |}.

(** Every forward lookup returns [answer]; the only reverse name known is
    the one of 23.32.0.1. *)
Definition netAnswering (answer : list IPAddr) : Network :=
  {| LookupIPAddr := fun _ _ _ => (answer, None);
     LookupHost := fun _ _ _ => ([], noSuchHost);
     LookupAddr := fun _ _ addr _ =>
       if String.eqb addr "23.32.0.1"
       then (["a23-32-0-1.deploy.static.akamaitechnologies.com."], None)
       else ([], noSuchHost) |}.

Definition sampleSchedule : Schedule :=
  {| rangeOrder := sourceOrder; arrivals := [0; 1]%nat |}.

Definition defaultConfig : Config :=
  {| workers := NumWorkers; bufferSize := InputBufferSize;
     dnsTimeout := DNSTimeout; forceGoogle := false; forceCF := false;
     noSystemDNS := false; verbose := false |}.

(** [-workers 0]. *)
Definition noWorkerConfig : Config :=
  {| workers := 0; bufferSize := InputBufferSize;
     dnsTimeout := DNSTimeout; forceGoogle := false; forceCF := false;
     noSystemDNS := false; verbose := false |}.

(** [-workers 1 -buffer 1]. *)
Definition smallConfig : Config :=
  {| workers := 1; bufferSize := 1;
     dnsTimeout := DNSTimeout; forceGoogle := false; forceCF := false;
     noSystemDNS := false; verbose := false |}.

(* ===================================================================== *)
(** ** Invariants of the pipeline                                         *)
(* ===================================================================== *)

(** The shutdown protocol of [main]: the result channel is closed only
    after every worker has returned, a worker returns only after the
    request channel is closed and drained, the reader closes it only at
    the end of the input, and [main] returns only after [outputWorker] has
    drained the closed result channel. *)
Record controlled (cfg : Config) (s : State) : Prop := {
  ctl_size : length (pool s) = Z.to_nat (workers cfg);
  ctl_closed : outputClosed s = true <-> mainAt s <> MainWaiting;
  ctl_join : mainAt s <> MainWaiting -> Forall (fun w => w = WExited) (pool s);
  ctl_drained : In WExited (pool s) -> readerDone s = true /\ inputChan s = [];
  ctl_eof : readerDone s = true -> stdin s = [];
  ctl_sink : sinkDone s = true -> outputChan s = [] /\ outputClosed s = true;
  ctl_exit : mainAt s = MainExited -> sinkDone s = true;
  ctl_no_panic : mainAt s <> MainPanicked
}.

(** A result answers the request it is kept with. *)
Definition answers (cfg : Config) (net : Network) (o : option DNSRequest)
    (result : DNSResult) : Prop :=
  match o with
  | Some request => processed cfg net request result
  | None => True
  end.

Definition heldOk (cfg : Config) (net : Network) (w : Worker) : Prop :=
  match w with
  | WHolding request result => processed cfg net request result
  | _ => True
  end.

(** Every accepted request is in exactly one place: the request channel,
    the hands of a worker, the result channel, or among the results that
    have left; the accepted requests are the requests of the lines read so
    far; and standard output holds the lines of the results that have
    left, in the order they left. *)
Record accounted (cfg : Config) (net : Network) (lines : list string)
    (s : State) : Prop := {
  acc_flow :
    Permutation (accepted s)
      (inputChan s ++ heldBy (pool s) ++ queuedOrigins (outputChan s)
       ++ served (outcomes s));
  acc_read : requestsOf lines = accepted s ++ requestsOf (stdin s);
  acc_stdout : stdout s = flat_map printResult (List.map emitted (outcomes s));
  acc_held : Forall (heldOk cfg net) (pool s);
  acc_queued : Forall (fun x => answers cfg net (fst x) (snd x)) (outputChan s);
  acc_outcomes : Forall (fun e => answers cfg net (origin e) (emitted e)) (outcomes s)
}.

(** The fields of a state written with [St]. *)
Ltac state_fields :=
  cbn [stdin readerDone inputChan pool outputChan outputClosed sinkDone
       mainAt stdout accepted outcomes] in *.

(** A step that sends on the closed result channel contradicts the
    shutdown protocol: [Hclosed] says that nobody is left to send. *)
Ltac no_send_on_closed Hclosed :=
  first
    [ destruct (Hclosed eq_refl) as [? [? ?]]; discriminate
    | let Hall := fresh "Hall" in
      destruct (Hclosed eq_refl) as [_ [_ Hall]];
      apply Forall_app in Hall; destruct Hall as [_ Hall];
      inversion Hall; discriminate ].

(* ===================================================================== *)
(** ** What the further properties speak of                               *)
(* ===================================================================== *)

Definition isLookupAddrCall (c : NetCall) : bool :=
  match c with
  | CallLookupAddr _ _ _ => true
  | _ => false
  end.

Definition isSleepCall (c : NetCall) : bool :=
  match c with
  | CallSleep _ => true
  | _ => false
  end.

(** A strategy after which the loop of [processDNSRequest] goes on: it
    returns an error, or no address. *)
Definition answersNothing (net : Network) (ctx : Context) (dom : string)
    (r : Resolver) : bool :=
  let '(ips', err') := LookupIPAddr net r ctx dom in
  negb (isNil err' && (0 <? length ips')%nat).

(** The system resolver fails; every resolver of Go's own answers. *)
Definition netSystemDown (answer : list IPAddr) : Network :=
  {| LookupIPAddr := fun r _ _ =>
       if PreferGo r then (answer, None) else ([], noSuchHost);
     LookupHost := fun _ _ _ => ([], noSuchHost);
     LookupAddr := fun _ _ _ _ => ([], noSuchHost) |}.

(** Every forward lookup fails; the generic host lookup returns [hosts]. *)
Definition netFallbackOnly (hosts : list string) : Network :=
  {| LookupIPAddr := fun _ _ _ => ([], noSuchHost);
     LookupHost := fun _ _ _ => (hosts, None);
     LookupAddr := fun _ _ _ _ => ([], noSuchHost) |}.

(** How many calls of a trace satisfy [p]. *)
Definition countCalls (p : NetCall -> bool) (trace : list NetCall) : nat :=
  length (List.filter p trace).

(** The status of a mismatch before the verbose suffix: lines 366 to 371. *)
Definition isMismatchTag (s : string) : Prop :=
  s = "IP_MISMATCH"
  \/ exists provider, provider <> "" /\ s = "CDN_MISMATCH_" +:+ ToUpper provider.

(** [fmt.Sprintf("%s[%s]", ip, hostname)] when the name is not empty, the
    bare address otherwise: line 435. *)
Definition entryFor (ip h : string) : string :=
  if negb (String.eqb h "") then ip +:+ "[" +:+ h +:+ "]" else ip.

(** The goroutine, by position in [ips], whose result for the address [ip]
    the collecting loop received last among [received]. *)
Definition lastArrival (ips : list string) (received : list nat) (ip : string)
    : option nat :=
  List.find (fun i => bool_decide (ips !! i = Some ip)) (rev received).

(** Only the reverse lookup of the first goroutine finds a name; the others
    fail. *)
Definition netFirstCallOnly : Network :=
  {| LookupIPAddr := fun _ _ _ => ([], noSuchHost);
     LookupHost := fun _ _ _ => ([], noSuchHost);
     LookupAddr := fun _ _ _ i =>
       if (i =? 0)%nat then (["host.example."], None) else ([], noSuchHost) |}.

(** The network [net] with every reverse lookup failing. *)
Definition withoutReverseNames (net : Network) : Network :=
  {| LookupIPAddr := LookupIPAddr net;
     LookupHost := LookupHost net;
     LookupAddr := fun _ _ _ _ => ([], noSuchHost) |}.

(** The schedule in which no reverse lookup answers in time. *)
Definition nothingArrives : Schedule :=
  {| rangeOrder := sourceOrder; arrivals := [] |}.

(** Every byte of [s] satisfies [p]. *)
Fixpoint allBytes (p : ascii -> bool) (s : string) : bool :=
  match s with
  | EmptyString => true
  | String c s' => p c && allBytes p s'
  end.

(** What [p+] of the pattern of [main] matches: a non-empty text of bytes
    of the class [p]. *)
Definition isRun (p : ascii -> bool) (s : string) : bool :=
  negb (String.eqb s "") && allBytes p s.

(** The text [s] does not go on with a byte of the class [p]. *)
Definition stopsRun (p : ascii -> bool) (s : string) : bool :=
  match s with
  | EmptyString => true
  | String c _ => negb (p c)
  end.

(** The texts the pattern of [main] is made for: [a.b.c.d:port], white
    space, the domain in brackets, and anything after the closing
    bracket. *)
Definition dottedQuad (a b c d : string) : string :=
  a +:+ "." +:+ b +:+ "." +:+ c +:+ "." +:+ d.

Definition requestText (ip port ws dom rest : string) : string :=
  (ip +:+ ":" +:+ port +:+ ws +:+ "[" +:+ dom +:+ "]") +:+ rest.

(** The [MALFORMED] results of input lines, in order. *)
Definition malformedOf (lines : list string) : list DNSResult :=
  flat_map (fun text =>
              match parseLine text with
              | MalformedLine result => [result]
              | _ => []
              end) lines.

(** The results of malformed lines waiting in the result channel, and those
    that have left the program. *)
Definition queuedMalformed (oc : list (option DNSRequest * DNSResult))
    : list DNSResult :=
  flat_map (fun x => match fst x with Some _ => [] | None => [snd x] end) oc.

Definition emittedMalformed (outs : list Emission) : list DNSResult :=
  flat_map (fun e => match origin e with Some _ => [] | None => [emitted e] end) outs.

(** Every malformed line read so far has its result in exactly one place:
    the result channel, or among the results that have left. *)
Definition malformedFlow (lines : list string) (s : State) : Prop :=
  Permutation (malformedOf lines)
    (queuedMalformed (outputChan s) ++ emittedMalformed (outcomes s)
     ++ malformedOf (stdin s)).

(** The queues and the pool keep their sizes: a channel never holds more
    than its capacity (one item in hand-over for a channel without buffer),
    and the pool has the configured number of workers. *)
Record bounded (cfg : Config) (s : State) : Prop := {
  bnd_input : (Z.of_nat (length (inputChan s)) <= Z.max 1 (bufferSize cfg))%Z;
  bnd_output : (Z.of_nat (length (outputChan s)) <= Z.max 1 (bufferSize cfg))%Z;
  bnd_pool : length (pool s) = Z.to_nat (workers cfg)
}.

(* ===================================================================== *)
(** ** The first version of the program                                   *)
(* ===================================================================== *)

(** The first version of [san-resolver.go]: one resolver, no provider
    table, no status; a printed line is the input line.  [DNSRequest] is
    the same struct in both versions. *)
Module FirstVersion.

Record DNSResult : Type := {
  line : string;
  shouldPrint : bool
}.

(** [resolver.LookupIPAddr] of the one resolver of [processDNSRequest]:
    Go's own resolver, dialing the server it picked itself with
    [DNSTimeout] as dial timeout. *)
Definition Lookup : Type := Context -> string -> list IPAddr * option error.

(** [for _, ip := range ips]: return at the first address whose text is
    the expected IP. *)
Fixpoint foundMatch (expectedIP : string) (ips : list IPAddr) : bool :=
  match ips with
  | [] => false
  | ip :: rest =>
      if String.eqb (IPString (addrIP ip)) expectedIP then true
      else foundMatch expectedIP rest
  end.

Definition processDNSRequest (LookupIPAddr : Lookup) (request : DNSRequest)
    : DNSResult :=
  let ctx := WithTimeout Background DNSTimeout in
  let '(ips, err) := LookupIPAddr ctx (domain request) in
  if isSome err then {| line := req_line request; shouldPrint := true |}
  else if foundMatch (expectedIP request) ips
       then {| line := req_line request; shouldPrint := false |}
       else {| line := req_line request; shouldPrint := true |}.

(** [fmt.Println(result.line)] under [if result.shouldPrint]: the same code
    in [outputWorker], [dnsWorker] and the reader loop. *)
Definition printResult (result : DNSResult) : list string :=
  if shouldPrint result then [line result] else [].

Definition outputWorker (outputChan : list DNSResult) : list string :=
  flat_map printResult outputChan.

(** What the reader loop makes of one line: a malformed line is queued for
    printing as it is. *)
Inductive Parsed : Type :=
  | SkipLine
  | MalformedLine (result : DNSResult)
  | RequestLine (request : DNSRequest).

Definition parseLine (text : string) : Parsed :=
  let line := TrimSpace text in
  if String.eqb line "" then SkipLine
  else
    let matches := FindStringSubmatch line in
    if negb (length matches =? 4)%nat then
      MalformedLine {| line := line; shouldPrint := true |}
    else
      RequestLine {| req_line := line;
                     expectedIP := nth 1 matches "";
                     domain := nth 3 matches "" |}.

End FirstVersion.

(* ===================================================================== *)
(** ** Prefixes of the table that share addresses                         *)
(* ===================================================================== *)

(** Two networks, given by network number and mask, agree on the bits both
    masks keep: a necessary condition for having an address in common. *)
Fixpoint agreeUnderBothMasks (nn1 m1 nn2 m2 : list N) : bool :=
  match nn1, nn2 with
  | x :: nn1', y :: nn2' =>
      let k := N.land (hd 0%N m1) (hd 0%N m2) in
      (N.land x k =? N.land y k)%N
      && agreeUnderBothMasks nn1' (tl m1) nn2' (tl m2)
  | _, _ => true
  end.

Definition mayShareAddress (n1 n2 : IPNet) : bool :=
  let '(nn1, m1) := networkNumberAndMask n1 in
  let '(nn2, m2) := networkNumberAndMask n2 in
  (length nn1 =? length nn2)%nat && agreeUnderBothMasks nn1 m1 nn2 m2.

Definition mayShareAddressText (cidr1 cidr2 : string) : bool :=
  match ParseCIDR cidr1, ParseCIDR cidr2 with
  | Some n1, Some n2 => mayShareAddress n1 n2
  | _, _ => false
  end.

(** The one overlap between providers of the table: the CloudFront blocks
    inside 54.239.0.0/16 of AWS Global Accelerator. *)
Definition knownOverlap (p1 cidr1 p2 cidr2 : string) : bool :=
  (String.eqb p1 "cloudfront" && String.eqb p2 "aws_global_accelerator"
   && String.eqb cidr2 "54.239.0.0/16")
  || (String.eqb p1 "aws_global_accelerator" && String.eqb p2 "cloudfront"
      && String.eqb cidr1 "54.239.0.0/16").

(** Every pair of blocks of two different providers that may share an
    address is the known overlap. *)
Definition overlapsAreKnown : bool :=
  forallb (fun e1 =>
    forallb (fun e2 =>
      String.eqb (fst e1) (fst e2)
      || forallb (fun cidr1 =>
           forallb (fun cidr2 =>
             negb (mayShareAddressText cidr1 cidr2)
             || knownOverlap (fst e1) cidr1 (fst e2) cidr2)
             (snd e2))
           (snd e1))
      cdnProviders)
    cdnProviders.

(* ===================================================================== *)
(** * Theorems                                                            *)
(* ===================================================================== *)

(** ** The strategy chain *)

Lemma buildStrategies_default (t : Duration) :
  buildStrategies t false false false
  = [ systemResolver; goBuiltinResolver; googleResolver t;
      cloudflareResolver t; quad9Resolver t; openDNSResolver t ].
Proof. reflexivity. Qed.

Lemma buildStrategies_forced (t : Duration) (forceCF noSystemDNS : bool) :
  buildStrategies t true forceCF noSystemDNS = [googleResolver t]
  /\ buildStrategies t false true noSystemDNS = [cloudflareResolver t].
Proof. split; reflexivity. Qed.

(** C9, as the code has it: with the skip-system-resolver option (and no
    forced resolver) the chain is exactly the four public resolvers, in
    their fixed order; both the system resolver (strategy 1) and Go's
    built-in resolver (strategy 2) are left out, and the chain without the
    option is those two followed by the same four. *)
Theorem noSystemDNS_leaves_the_public_resolvers (t : Duration) :
  buildStrategies t false false true
  = [ googleResolver t; cloudflareResolver t; quad9Resolver t; openDNSResolver t ]
  /\ buildStrategies t false false false
     = systemResolver :: goBuiltinResolver :: buildStrategies t false false true.
Proof. split; reflexivity. Qed.

(** C9, as stated, fails: strategy 2 is in the default chain and is not in
    the chain built with the skip-system-resolver option. *)
Lemma noSystemDNS_drops_the_builtin_resolver :
  In goBuiltinResolver (buildStrategies DNSTimeout false false false)
  /\ (In goBuiltinResolver (buildStrategies DNSTimeout false false true) -> False).
Proof.
  split.
  - right. left. reflexivity.
  - cbn. intros [H | [H | [H | [H | []]]]]; discriminate H.
Qed.

(** ** Results and printing *)

Lemma printResult_suppressed (result : DNSResult) :
  shouldPrint result = false -> printResult result = [].
Proof. unfold printResult. intros ->. reflexivity. Qed.

Lemma outputWorker_app (l1 l2 : list DNSResult) :
  outputWorker (l1 ++ l2) = outputWorker l1 ++ outputWorker l2.
Proof. unfold outputWorker. apply flat_map_app. Qed.

Lemma existsb_eqb_In (x : string) (l : list string) :
  In x l -> existsb (fun y => String.eqb y x) l = true.
Proof.
  intros H. apply existsb_exists. exists x. split; [exact H | apply String.eqb_refl].
Qed.

Lemma existsb_eqb_not_In (x : string) (l : list string) :
  (In x l -> False) -> existsb (fun y => String.eqb y x) l = false.
Proof.
  intros H. destruct (existsb _ l) eqn:E; [| reflexivity].
  apply existsb_exists in E. destruct E as [y [Hy Heq]].
  apply String.eqb_eq in Heq. subst y. destruct (H Hy).
Qed.

Lemma length_zero_eqb {A} (l : list A) : (length l =? 0)%nat = false <-> l <> [].
Proof.
  destruct l; cbn; split; intros H; congruence.
Qed.

(** C1: when the resolution succeeds and one of the resolved addresses
    prints as the expected IP, the result is [MATCH] with [shouldPrint]
    false, whatever other addresses were resolved; such a result prints
    nothing, neither alone nor anywhere in the queue of [outputWorker], and
    the step of [outputWorker] that takes it leaves standard output as it
    was. *)
Theorem match_is_never_printed (net : Network) (sched : Schedule)
    (request : DNSRequest) (t : Duration) (fg fc ns vb : bool) :
  let st := resolve net (requestContext t) (domain request)
              (buildStrategies t fg fc ns) in
  err st = None ->
  In (expectedIP request) (List.map (fun ip => IPString (addrIP ip)) (ips st)) ->
  let result := fst (processDNSRequest net sched request t fg fc ns vb) in
  status result = "MATCH"
  /\ shouldPrint result = false
  /\ printResult result = []
  /\ (forall before after,
        outputWorker (before ++ result :: after) = outputWorker (before ++ after))
  /\ (forall o si rd ic pl oc ocl m so acc outs s',
        outputWorker_step (St si rd ic pl ((o, result) :: oc) ocl false m so acc outs) s' ->
        stdout s' = so).
Proof.
  intros st Herr Hin result.
  assert (Hne : (length (ips st) =? 0)%nat = false).
  { apply length_zero_eqb. intros E. rewrite E in Hin. destruct Hin. }
  assert (Hres : result
            = {| line := req_line request; shouldPrint := false; status := "MATCH";
                 resolvedIPs := List.map (fun ip => IPString (addrIP ip)) (ips st) |}).
  { subst result. unfold processDNSRequest. fold st.
    rewrite Herr, Hne. cbn [isSome orb].
    rewrite (existsb_eqb_In _ _ Hin). reflexivity. }
  assert (Hp : printResult result = []) by (rewrite Hres; reflexivity).
  repeat split.
  - rewrite Hres. reflexivity.
  - rewrite Hres. reflexivity.
  - exact Hp.
  - intros before after.
    rewrite !outputWorker_app. cbn. rewrite Hp. reflexivity.
  - intros o si rd ic pl oc ocl m so acc outs s' Hs.
    inversion Hs; subst. cbn. rewrite Hp. apply app_nil_r.
Qed.

(** An answer with 5.6.7.8 and the expected 1.2.3.4. *)
Lemma match_is_never_printed_witness :
  let result :=
    fst (processDNSRequest (netAnswering [ipv4 5 6 7 8; ipv4 1 2 3 4])
           sampleSchedule sampleRequest DNSTimeout false false false false) in
  status result = "MATCH"
  /\ shouldPrint result = false
  /\ printResult result = []
  /\ (forall before after,
        outputWorker (before ++ result :: after) = outputWorker (before ++ after))
  /\ (forall o si rd ic pl oc ocl m so acc outs s',
        outputWorker_step (St si rd ic pl ((o, result) :: oc) ocl false m so acc outs) s' ->
        stdout s' = so).
Proof.
  apply (match_is_never_printed (netAnswering [ipv4 5 6 7 8; ipv4 1 2 3 4])
           sampleSchedule sampleRequest DNSTimeout false false false false).
  - reflexivity.
  - vm_compute. right. left. reflexivity.
Defined.

(** ** Reverse lookups *)

Lemma reverseLookup_ip (net : Network) (resolver : Resolver) (ctx : Context)
    (i : nat) (ip : string) :
  rr_ip (reverseLookup net resolver ctx i ip) = ip.
Proof.
  unfold reverseLookup.
  destruct (LookupAddr net resolver _ ip i) as [hostnames e].
  destruct (isSome e || (length hostnames =? 0)%nat); reflexivity.
Qed.

Lemma reverseLookup_hostname (net : Network) (resolver : Resolver)
    (ctx : Context) (i : nat) (ip : string) :
  hostname (reverseLookup net resolver ctx i ip) = ""
  \/ exists raw others,
       LookupAddr net resolver (WithTimeout ctx (2 * Second)%Z) ip i
         = (raw :: others, None)
       /\ hostname (reverseLookup net resolver ctx i ip) = TrimSuffix raw ".".
Proof.
  unfold reverseLookup.
  destruct (LookupAddr net resolver _ ip i) as [hostnames e] eqn:E.
  destruct e as [e |]; cbn; [left; reflexivity |].
  destruct hostnames as [| raw others]; cbn; [left; reflexivity |].
  right. exists raw, others. split; reflexivity.
Qed.

Lemma collect_fromGoroutines (net : Network) (resolver : Resolver)
    (ctx : Context) (ips : list string) (order : list nat) :
  forall reverseMap : gmap string string,
    fromGoroutines net resolver ctx ips reverseMap ->
    fromGoroutines net resolver ctx ips
      (fold_left
         (fun (m : gmap string string) i =>
            match imap (reverseLookup net resolver ctx) ips !! i with
            | Some result => <[rr_ip result := hostname result]> m
            | None => m
            end) order reverseMap).
Proof.
  induction order as [| i order IH]; intros m Hm; cbn; [exact Hm |].
  apply IH.
  destruct (imap (reverseLookup net resolver ctx) ips !! i) as [r |] eqn:E;
    [| exact Hm].
  apply list_lookup_imap_Some in E. destruct E as [ip [Hi ->]].
  rewrite reverseLookup_ip.
  intros k v. destruct (decide (ip = k)) as [-> | Hne].
  - rewrite lookup_insert_eq. intros [= <-]. exists i. split; [exact Hi | reflexivity].
  - rewrite lookup_insert_ne by exact Hne. apply Hm.
Qed.

Lemma formatIP_annotated (net : Network) (resolver : Resolver) (ctx : Context)
    (ips : list string) (reverseMap : gmap string string) (ip : string) :
  fromGoroutines net resolver ctx ips reverseMap ->
  annotated net resolver ctx ips ip (formatIP reverseMap ip).
Proof.
  intros Hm. unfold formatIP.
  destruct (reverseMap !! ip) as [h |] eqn:E; [| left; reflexivity].
  destruct (String.eqb h "") eqn:Eh; cbn; [left; reflexivity |].
  apply Hm in E. destruct E as [i [Hi E]].
  destruct (reverseLookup_hostname net resolver ctx i ip)
    as [H0 | [raw [others [Hl Hh]]]].
  - rewrite H0 in E. subst h. discriminate Eh.
  - right. exists i, raw, others. split; [exact Hi |]. split; [exact Hl |].
    rewrite E, Hh. reflexivity.
Qed.

Lemma reverse_entries_annotated (net : Network) (resolver : Resolver)
    (ctx : Context) (order : list nat) (ips : list string) :
  Forall2 (annotated net resolver ctx ips) ips
    (fst (performReverseLookups net resolver ctx order ips)).
Proof.
  cbn.
  assert (Hm : fromGoroutines net resolver ctx ips
                 (collectResults (length ips) order
                    (imap (reverseLookup net resolver ctx) ips))).
  { unfold collectResults. apply collect_fromGoroutines.
    intros k v Hk. rewrite lookup_empty in Hk. discriminate Hk. }
  revert Hm.
  generalize (collectResults (length ips) order
                (imap (reverseLookup net resolver ctx) ips)).
  intros m Hm.
  assert (Hall : forall l,
            Forall2 (annotated net resolver ctx ips) l (List.map (formatIP m) l)).
  { induction l as [| ip l IH]; cbn; constructor.
    - apply formatIP_annotated. exact Hm.
    - exact IH. }
  apply Hall.
Qed.

(** C7: [performReverseLookups] returns one entry per input address, at
    the position of that address in the input, whichever results arrived
    and in whichever order; the entry is the bare address, or
    [address[hostname]] where the hostname is the first name of a reverse
    lookup made for that address, without its trailing dot. *)
Theorem reverse_lookups_keep_the_input_order (net : Network)
    (resolver : Resolver) (ctx : Context) (order : list nat)
    (ips : list string) :
  let out := fst (performReverseLookups net resolver ctx order ips) in
  length out = length ips
  /\ Forall2 (annotated net resolver ctx ips) ips out.
Proof.
  cbn. split; [apply length_map |].
  apply (reverse_entries_annotated net resolver ctx order ips).
Qed.


Example reverse_lookups_example :
  fst (performReverseLookups (netAnswering []) DefaultResolver
         (requestContext DNSTimeout) [1; 0]%nat ["54.239.128.1"; "23.32.0.1"])
  = ["54.239.128.1"; "23.32.0.1[a23-32-0-1.deploy.static.akamaitechnologies.com]"].
Proof. vm_compute. reflexivity. Qed.

(** A result that did not arrive in time leaves its address bare. *)
Example reverse_lookups_late_example :
  fst (performReverseLookups (netAnswering []) DefaultResolver
         (requestContext DNSTimeout) [0]%nat ["54.239.128.1"; "23.32.0.1"])
  = ["54.239.128.1"; "23.32.0.1"].
Proof. vm_compute. reflexivity. Qed.

(** ** The fallback lookup *)

(** The strategy loop only adds forward lookups under [ctx] and pauses to
    the calls. *)
Lemma tryStrategies_calls (net : Network) (ctx : Context) (dom : string)
    (strategies : list Resolver) :
  forall i st,
  exists added,
    calls (tryStrategies net ctx dom i strategies st) = calls st ++ added
    /\ Forall (fun c => (exists r, c = CallLookupIPAddr r ctx dom)
                        \/ (exists d, c = CallSleep d)) added.
Proof.
  induction strategies as [| s rest IH]; intros i st; cbn [tryStrategies].
  - exists []. split; [symmetry; apply app_nil_r | constructor].
  - destruct (LookupIPAddr net s ctx dom) as [ips' err'].
    destruct (isNil err' && (0 <? length ips')%nat).
    + cbn. exists [CallLookupIPAddr s ctx dom]. split; [reflexivity |].
      constructor; [left; eexists; reflexivity | constructor].
    + match goal with |- context [tryStrategies _ _ _ ?j rest ?st'] =>
        destruct (IH j st') as [added [Hc Hf]] end.
      cbn in Hc. rewrite Hc.
      exists (CallLookupIPAddr s ctx dom :: CallSleep (50 * Millisecond)%Z :: added).
      split.
      * rewrite <- !app_assoc. reflexivity.
      * constructor; [left; eexists; reflexivity |].
        constructor; [right; eexists; reflexivity | exact Hf].
Qed.

(** The fallback lookup is made exactly when the last strategy that ran
    returned an error; an answer without addresses and without error does
    not lead to it. *)
Lemma fallback_only_after_an_error (net : Network) (ctx : Context)
    (dom : string) (strategies : list Resolver) :
  let st := tryStrategies net ctx dom 0%Z strategies noAttempt in
  calls (resolve net ctx dom strategies)
  = calls st ++ (if isSome (err st)
                 then [CallLookupHost DefaultResolver Background dom]
                 else []).
Proof.
  cbn. unfold resolve, lookupHostFallback.
  destruct (err (tryStrategies net ctx dom 0%Z strategies noAttempt)); cbn.
  - destruct (LookupHost net DefaultResolver Background dom) as [hosts e'].
    destruct (isNil e' && _); reflexivity.
  - symmetry. apply app_nil_r.
Qed.

(** When the resolution ends with an error or without address, the result
    is [DNS_FAILURE], printed, with an empty address list. *)
Lemma failed_resolution_is_DNS_FAILURE (net : Network) (sched : Schedule)
    (request : DNSRequest) (t : Duration) (fg fc ns vb : bool) :
  let st := resolve net (requestContext t) (domain request)
              (buildStrategies t fg fc ns) in
  isSome (err st) || (length (ips st) =? 0)%nat = true ->
  fst (processDNSRequest net sched request t fg fc ns vb)
  = {| line := req_line request; shouldPrint := true;
       status := "DNS_FAILURE"; resolvedIPs := [] |}.
Proof.
  intros st H. unfold processDNSRequest. fold st. rewrite H. reflexivity.
Qed.

Lemma tryStrategies_error_no_address (net : Network) (ctx : Context)
    (dom : string) (strategies : list Resolver) :
  errorsCarryNoAddress net ->
  forall i st,
    (isSome (err st) = true -> ips st = []) ->
    isSome (err (tryStrategies net ctx dom i strategies st)) = true ->
    ips (tryStrategies net ctx dom i strategies st) = [].
Proof.
  intros Hnet. induction strategies as [| s rest IH]; intros i st Hst;
    cbn [tryStrategies]; [exact Hst |].
  destruct (LookupIPAddr net s ctx dom) as [ips' err'] eqn:E.
  destruct (isNil err' && (0 <? length ips')%nat) eqn:Eok.
  - cbn. apply andb_true_iff in Eok. destruct Eok as [Hn _].
    destruct err'; [discriminate Hn | discriminate].
  - apply IH. cbn. destruct err' as [e |]; [| discriminate].
    intros _. exact (Hnet s ctx dom ips' e E).
Qed.

(** The part of C2 that holds: when the last strategy that ran returned an
    error, and the fallback lookup fails too or returns no address, the
    result is [DNS_FAILURE] with an empty address list. *)
Lemma exhausted_chain_is_DNS_FAILURE (net : Network) (sched : Schedule)
    (request : DNSRequest) (t : Duration) (fg fc ns vb : bool) :
  errorsCarryNoAddress net ->
  isSome (err (tryStrategies net (requestContext t) (domain request) 0%Z
                 (buildStrategies t fg fc ns) noAttempt)) = true ->
  isSome (snd (LookupHost net DefaultResolver Background (domain request))) = true
  \/ fst (LookupHost net DefaultResolver Background (domain request)) = [] ->
  fst (processDNSRequest net sched request t fg fc ns vb)
  = {| line := req_line request; shouldPrint := true;
       status := "DNS_FAILURE"; resolvedIPs := [] |}.
Proof.
  intros Hnet Herr Hfb. apply failed_resolution_is_DNS_FAILURE.
  unfold resolve, lookupHostFallback. rewrite Herr.
  pose proof (tryStrategies_error_no_address net (requestContext t)
                (domain request) (buildStrategies t fg fc ns) Hnet 0%Z noAttempt
                (fun _ => eq_refl) Herr) as Hips.
  destruct (LookupHost net DefaultResolver Background (domain request))
    as [hosts e]. cbn [fst snd] in Hfb.
  destruct e as [e |]; cbn [isNil isSome negb andb]; [reflexivity |].
  destruct Hfb as [Hfb | ->]; [discriminate Hfb |].
  cbn. rewrite Hips. reflexivity.
Qed.

(** C2 at its failing input: all six strategies of the default chain
    answer with no address and no error.  The program reports
    [DNS_FAILURE] with an empty address list after the six lookups,
    without the fallback lookup, which would have returned an address. *)
Example fallback_is_skipped_after_empty_answers :
  let '(result, trace) :=
    processDNSRequest netEmptyAnswer sampleSchedule sampleRequest DNSTimeout
      false false false false in
  status result = "DNS_FAILURE"
  /\ resolvedIPs result = []
  /\ length (List.filter isLookupIPAddrCall trace) = 6%nat
  /\ existsb isLookupHostCall trace = false
  /\ LookupHost netEmptyAnswer DefaultResolver Background (domain sampleRequest)
     = (["93.184.216.34"], None).
Proof. vm_compute. repeat split; reflexivity. Qed.

(** When the last strategy returns an error instead, the fallback runs
    (here it fails too). *)
Example fallback_runs_after_an_error :
  let '(result, trace) :=
    processDNSRequest netDown sampleSchedule sampleRequest DNSTimeout
      false false false false in
  status result = "DNS_FAILURE"
  /\ resolvedIPs result = []
  /\ length (List.filter isLookupHostCall trace) = 1%nat.
Proof. vm_compute. repeat split; reflexivity. Qed.

Lemma existsb_app_bool {A} (f : A -> bool) (l1 l2 : list A) :
  existsb f (l1 ++ l2) = existsb f l1 || existsb f l2.
Proof. apply existsb_app. Qed.

Lemma existsb_false {A} (f : A -> bool) (l : list A) :
  Forall (fun x => f x = false) l -> existsb f l = false.
Proof.
  induction 1 as [| x l Hx _ IH]; [reflexivity |]. cbn. rewrite Hx, IH. reflexivity.
Qed.

(** X2: the fallback lookup appears among the network calls of a request
    exactly when the last strategy that ran returned an error: after a
    chain whose last answer carries no error (also an empty one) it is not
    made. *)
Theorem fallback_runs_iff_the_last_strategy_errs (net : Network)
    (sched : Schedule) (request : DNSRequest) (t : Duration)
    (fg fc ns vb : bool) :
  existsb isLookupHostCall
    (snd (processDNSRequest net sched request t fg fc ns vb))
  = isSome (err (tryStrategies net (requestContext t) (domain request) 0%Z
                   (buildStrategies t fg fc ns) noAttempt)).
Proof.
  assert (Hres : existsb isLookupHostCall
            (calls (resolve net (requestContext t) (domain request)
                      (buildStrategies t fg fc ns)))
          = isSome (err (tryStrategies net (requestContext t) (domain request)
                           0%Z (buildStrategies t fg fc ns) noAttempt))).
  { rewrite fallback_only_after_an_error.
    destruct (tryStrategies_calls net (requestContext t) (domain request)
                (buildStrategies t fg fc ns) 0%Z noAttempt) as [added [Hc Hf]].
    rewrite Hc. cbn [calls noAttempt app]. rewrite existsb_app_bool.
    rewrite (existsb_false isLookupHostCall added).
    - destruct (isSome _); reflexivity.
    - eapply Forall_impl; [exact Hf |]. cbn.
      intros c [[r ->] | [d ->]]; reflexivity. }
  unfold processDNSRequest.
  set (st := resolve net (requestContext t) (domain request)
               (buildStrategies t fg fc ns)) in *.
  destruct (isSome (err st) || (length (ips st) =? 0)%nat); [exact Hres |].
  destruct (existsb _ (List.map _ (ips st))); [exact Hres |].
  cbn [snd performReverseLookups]. rewrite existsb_app_bool, Hres.
  rewrite (existsb_false isLookupHostCall).
  - apply orb_false_r.
  - apply List.Forall_forall. intros c Hc. apply in_map_iff in Hc.
    destruct Hc as [ip [<- _]]. reflexivity.
Qed.

(** ** Deadlines *)

(** X1: every forward lookup of a strategy and every reverse lookup is made
    under a context with a deadline; the only calls without one are the
    fallback lookups. *)
Lemma only_the_fallback_lacks_a_deadline (net : Network) (sched : Schedule)
    (request : DNSRequest) (t : Duration) (fg fc ns vb : bool) :
  Forall (fun c => withoutDeadline c = true ->
                   c = CallLookupHost DefaultResolver Background (domain request))
    (snd (processDNSRequest net sched request t fg fc ns vb)).
Proof.
  assert (Hres : Forall (fun c => withoutDeadline c = true ->
                   c = CallLookupHost DefaultResolver Background (domain request))
            (calls (resolve net (requestContext t) (domain request)
                      (buildStrategies t fg fc ns)))).
  { rewrite fallback_only_after_an_error.
    destruct (tryStrategies_calls net (requestContext t) (domain request)
                (buildStrategies t fg fc ns) 0%Z noAttempt) as [added [Hc Hf]].
    rewrite Hc. cbn [calls noAttempt app]. apply Forall_app. split.
    - eapply Forall_impl; [exact Hf |]. cbn.
      intros c [[r ->] | [d ->]] H; discriminate H.
    - destruct (isSome _); constructor; [intros _; reflexivity | constructor]. }
  unfold processDNSRequest.
  set (st := resolve net (requestContext t) (domain request)
               (buildStrategies t fg fc ns)) in *.
  destruct (isSome (err st) || (length (ips st) =? 0)%nat); [exact Hres |].
  destruct (existsb _ _); [exact Hres |].
  cbn. apply Forall_app. split; [exact Hres |].
  apply List.Forall_forall. intros c Hc. apply in_map_iff in Hc.
  destruct Hc as [ip [<- _]]. intros H. discriminate H.
Qed.

(** C8 at its failing input: when no strategy answers, the fallback
    [net.LookupHost] is called under [context.Background()], which has no
    deadline. *)
Example fallback_lookup_has_no_deadline :
  let trace :=
    snd (processDNSRequest netDown sampleSchedule sampleRequest DNSTimeout
           false false false false) in
  In (CallLookupHost DefaultResolver Background "example.com") trace
  /\ hasDeadline Background = false
  /\ existsb withoutDeadline trace = true.
Proof.
  vm_compute. split; [| split; reflexivity].
  do 12 right. left. reflexivity.
Qed.

(** ** The CDN classifier *)

Lemma inCIDRs_true (p : IP) (cidrs : list string) :
  inCIDRs p cidrs = true
  <-> exists cidr ipnet,
        In cidr cidrs /\ ParseCIDR cidr = Some ipnet /\ Contains ipnet p = true.
Proof.
  induction cidrs as [| c rest IH]; cbn.
  - split; [discriminate | intros [? [? [[] _]]]].
  - destruct (ParseCIDR c) as [n |] eqn:E.
    + destruct (Contains n p) eqn:Ec.
      * split; [intros _ | reflexivity]. exists c, n. auto.
      * rewrite IH. split.
        -- intros [c' [n' [Hin H]]]. exists c', n'. auto.
        -- intros [c' [n' [[-> | Hin] [Hp Hc]]]].
           ++ congruence.
           ++ exists c', n'. auto.
    + rewrite IH. split.
      * intros [c' [n' [Hin H]]]. exists c', n'. auto.
      * intros [c' [n' [[-> | Hin] [Hp Hc]]]]; [congruence |].
        exists c', n'. auto.
Qed.

Lemma firstProvider_Some (p : IP) (entries : list (string * list string))
    (name : string) :
  firstProvider p entries = Some name ->
  exists cidrs, In (name, cidrs) entries /\ inCIDRs p cidrs = true.
Proof.
  induction entries as [| [n cidrs] rest IH]; cbn; [discriminate |].
  destruct (inCIDRs p cidrs) eqn:E.
  - intros [= <-]. exists cidrs. auto.
  - intros H. destruct (IH H) as [c [Hin Hc]]. exists c. auto.
Qed.

Lemma firstProvider_None (p : IP) (entries : list (string * list string)) :
  firstProvider p entries = None
  <-> forall name cidrs, In (name, cidrs) entries -> inCIDRs p cidrs = false.
Proof.
  induction entries as [| [n cidrs] rest IH]; cbn.
  - split; [intros _ ? ? [] | reflexivity].
  - destruct (inCIDRs p cidrs) eqn:E.
    + split; [discriminate |]. intros H.
      rewrite (H n cidrs) in E by (left; reflexivity). discriminate E.
    + rewrite IH. split.
      * intros H name c [[= <- <-] | Hin]; [exact E | eauto].
      * intros H name c Hin. eauto.
Qed.

Lemma validOrder_In (order : nat -> list (string * list string)) (k : nat)
    (e : string * list string) :
  validOrder order -> (In e (order k) <-> In e cdnProviders).
Proof.
  intros H. split; apply Permutation_in; [apply H | symmetry; apply H].
Qed.

Lemma validOrder_sourceOrder : validOrder sourceOrder.
Proof. intros k. apply Permutation_refl. Qed.

Lemma validOrder_reverseOrder : validOrder reverseOrder.
Proof. intros k. symmetry. apply Permutation_rev. Qed.

Lemma provider_names_nonempty (name : string) (cidrs : list string) :
  In (name, cidrs) cdnProviders -> String.eqb name "" = false.
Proof.
  unfold cdnProviders. cbn [In].
  intros [H | [H | [H | [H | [H | []]]]]]; inversion H; reflexivity.
Qed.

(** What one pass of the provider loop finds for a parsed address. *)
Lemma firstProvider_fallsInside (order : nat -> list (string * list string))
    (k : nat) (ip : string) (p : IP) (name : string) :
  validOrder order -> ParseIP ip = Some p ->
  firstProvider p (order k) = Some name -> fallsInside ip name.
Proof.
  intros Hv Hp Hf. apply firstProvider_Some in Hf.
  destruct Hf as [cidrs [Hin Hc]].
  apply (validOrder_In _ _ _ Hv) in Hin.
  apply inCIDRs_true in Hc. destruct Hc as [cidr [ipnet [Hc [Hpc Hct]]]].
  exists cidrs, cidr. split; [exact Hin |]. split; [exact Hc |].
  exists p, ipnet. auto.
Qed.

Lemma firstProvider_finds (order : nat -> list (string * list string))
    (k : nat) (ip : string) (p : IP) :
  validOrder order -> ParseIP ip = Some p -> inAnyPrefix ip ->
  exists name, firstProvider p (order k) = Some name.
Proof.
  intros Hv Hp [name [cidrs [cidr [Hin [Hc [p' [ipnet [Hp' [Hpc Hct]]]]]]]]].
  rewrite Hp in Hp'. injection Hp' as <-.
  destruct (firstProvider p (order k)) as [n |] eqn:E; [eauto |].
  exfalso.
  assert (Hf : inCIDRs p cidrs = false).
  { apply (proj1 (firstProvider_None p (order k)) E name).
    apply (validOrder_In _ _ _ Hv). exact Hin. }
  assert (Ht : inCIDRs p cidrs = true).
  { apply inCIDRs_true. exists cidr, ipnet. auto. }
  congruence.
Qed.

Lemma detectCDNFrom_none (order : nat -> list (string * list string))
    (ips : list string) :
  validOrder order ->
  (forall ip, In ip ips -> inAnyPrefix ip -> False) ->
  forall k, detectCDNFrom order k ips = "".
Proof.
  intros Hv. induction ips as [| ip rest IH]; intros Hnone k; cbn; [reflexivity |].
  destruct (ParseIP ip) as [p |] eqn:Hp.
  - destruct (firstProvider p (order k)) as [name |] eqn:Hf.
    + exfalso. apply (Hnone ip); [left; reflexivity |].
      exists name. eapply firstProvider_fallsInside; eauto.
    + apply IH. intros x Hx. apply Hnone. right. exact Hx.
  - apply IH. intros x Hx. apply Hnone. right. exact Hx.
Qed.

Lemma detectCDNFrom_first (order : nat -> list (string * list string))
    (before : list string) (ip : string) (after : list string) :
  validOrder order ->
  (forall x, In x before -> inAnyPrefix x -> False) ->
  inAnyPrefix ip ->
  forall k, fallsInside ip (detectCDNFrom order k (before ++ ip :: after)).
Proof.
  intros Hv. induction before as [| x before IH]; intros Hb Hip k; cbn.
  - assert (Hparse : exists p, ParseIP ip = Some p).
    { destruct Hip as [? [? [? [_ [_ [p [? [Hp _]]]]]]]]. eauto. }
    destruct Hparse as [p Hp]. rewrite Hp.
    destruct (firstProvider_finds order k ip p Hv Hp Hip) as [name Hf].
    rewrite Hf. eapply firstProvider_fallsInside; eauto.
  - destruct (ParseIP x) as [p |] eqn:Hp.
    + destruct (firstProvider p (order k)) as [name |] eqn:Hf.
      * exfalso. apply (Hb x); [left; reflexivity |].
        exists name. eapply firstProvider_fallsInside; eauto.
      * apply IH; [| exact Hip]. intros y Hy. apply Hb. right. exact Hy.
    + apply IH; [| exact Hip]. intros y Hy. apply Hb. right. exact Hy.
Qed.

Lemma detectCDNFrom_unambiguous (o1 o2 : nat -> list (string * list string))
    (ips : list string) :
  validOrder o1 -> validOrder o2 ->
  (forall ip p q, In ip ips -> fallsInside ip p -> fallsInside ip q -> p = q) ->
  forall k, detectCDNFrom o1 k ips = detectCDNFrom o2 k ips.
Proof.
  intros H1 H2. induction ips as [| ip rest IH]; intros Hu k; cbn; [reflexivity |].
  assert (Hrest : forall k', detectCDNFrom o1 k' rest = detectCDNFrom o2 k' rest).
  { apply IH. intros x p q Hx. apply Hu. right. exact Hx. }
  destruct (ParseIP ip) as [p |] eqn:Hp; [| apply Hrest].
  destruct (firstProvider p (o1 k)) as [n1 |] eqn:E1;
    destruct (firstProvider p (o2 k)) as [n2 |] eqn:E2.
  - apply (Hu ip); [left; reflexivity | |].
    + exact (firstProvider_fallsInside o1 k ip p n1 H1 Hp E1).
    + exact (firstProvider_fallsInside o2 k ip p n2 H2 Hp E2).
  - exfalso.
    assert (Hin : inAnyPrefix ip)
      by (exists n1; exact (firstProvider_fallsInside o1 k ip p n1 H1 Hp E1)).
    destruct (firstProvider_finds o2 k ip p H2 Hp Hin) as [n Hn]. congruence.
  - exfalso.
    assert (Hin : inAnyPrefix ip)
      by (exists n2; exact (firstProvider_fallsInside o2 k ip p n2 H2 Hp E2)).
    destruct (firstProvider_finds o1 k ip p H1 Hp Hin) as [n Hn]. congruence.
  - apply Hrest.
Qed.

(** C4, as the code has it: the addresses are tested in list order, the
    providers in whatever order the [range] over the Go map visits them.
    Without any address inside a prefix the classifier returns no
    provider; otherwise it returns a provider one of whose prefixes
    contains the first address that lies inside any prefix.  Two runs
    agree whenever no address of the list lies inside the prefixes of two
    providers. *)
Theorem detectCDN_returns_a_provider_of_the_first_match
    (order : nat -> list (string * list string)) (ips : list string) :
  validOrder order ->
  ((forall ip, In ip ips -> inAnyPrefix ip -> False) -> detectCDN order ips = "")
  /\ (forall before ip after,
        ips = before ++ ip :: after ->
        (forall x, In x before -> inAnyPrefix x -> False) ->
        inAnyPrefix ip ->
        fallsInside ip (detectCDN order ips))
  /\ (forall order',
        validOrder order' ->
        (forall ip p q, In ip ips -> fallsInside ip p -> fallsInside ip q -> p = q) ->
        detectCDN order' ips = detectCDN order ips).
Proof.
  intros Hv. unfold detectCDN. split; [| split].
  - intros H. apply detectCDNFrom_none; assumption.
  - intros before ip after -> Hb Hip. apply detectCDNFrom_first; assumption.
  - intros order' Hv' Hu. apply detectCDNFrom_unambiguous; assumption.
Qed.

(** The table in the order of the source, and one address. *)
Lemma detectCDN_returns_a_provider_of_the_first_match_witness :
  ((forall ip, In ip ["54.239.128.1"] -> inAnyPrefix ip -> False) ->
     detectCDN sourceOrder ["54.239.128.1"] = "")
  /\ (forall before ip after,
        ["54.239.128.1"] = before ++ ip :: after ->
        (forall x, In x before -> inAnyPrefix x -> False) ->
        inAnyPrefix ip ->
        fallsInside ip (detectCDN sourceOrder ["54.239.128.1"]))
  /\ (forall order',
        validOrder order' ->
        (forall ip p q, In ip ["54.239.128.1"] ->
                        fallsInside ip p -> fallsInside ip q -> p = q) ->
        detectCDN order' ["54.239.128.1"] = detectCDN sourceOrder ["54.239.128.1"]).
Proof.
  apply (detectCDN_returns_a_provider_of_the_first_match sourceOrder
           ["54.239.128.1"]).
  intros k. apply Permutation_refl.
Defined.

(** C4, as stated, fails: 54.239.128.1 lies in 54.239.128.0/18 of
    cloudfront and in 54.239.0.0/16 of aws_global_accelerator, and two
    orders of the table give two different providers for it. *)
Lemma detectCDN_depends_on_the_map_order :
  validOrder sourceOrder /\ validOrder reverseOrder
  /\ detectCDN sourceOrder ["54.239.128.1"] = "cloudfront"
  /\ detectCDN reverseOrder ["54.239.128.1"] = "aws_global_accelerator".
Proof.
  split; [apply validOrder_sourceOrder |].
  split; [apply validOrder_reverseOrder |].
  split; vm_compute; reflexivity.
Qed.

Lemma fallsInside_providersOf (ip name : string) :
  fallsInside ip name <-> In name (providersOf ip).
Proof.
  unfold providersOf. split.
  - intros [cidrs [cidr [Hin [Hc [p [ipnet [Hp [Hpc Hct]]]]]]]].
    rewrite Hp. apply in_map_iff. exists (name, cidrs). split; [reflexivity |].
    apply filter_In. split; [exact Hin |]. cbn.
    apply inCIDRs_true. exists cidr, ipnet. auto.
  - destruct (ParseIP ip) as [p |] eqn:Hp; [| intros []].
    intros H. apply in_map_iff in H. destruct H as [[n cidrs] [Hn H]].
    cbn in Hn. subst n. apply filter_In in H. destruct H as [Hin Hc].
    cbn in Hc. apply inCIDRs_true in Hc.
    destruct Hc as [cidr [ipnet [Hc [Hpc Hct]]]].
    exists cidrs, cidr. split; [exact Hin |]. split; [exact Hc |].
    exists p, ipnet. auto.
Qed.

Example providers_of_an_akamai_address : providersOf "23.32.0.1" = ["akamai"].
Proof. vm_compute. reflexivity. Qed.

Example providers_of_an_ambiguous_address :
  providersOf "54.239.128.1" = ["cloudfront"; "aws_global_accelerator"].
Proof. vm_compute. reflexivity. Qed.

Lemma detectCDNFrom_some (order : nat -> list (string * list string))
    (ips : list string) :
  validOrder order ->
  (exists ip, In ip ips /\ inAnyPrefix ip) ->
  forall k, exists ip, In ip ips /\ fallsInside ip (detectCDNFrom order k ips).
Proof.
  intros Hv. induction ips as [| x rest IH]; intros [ip [Hin Hip]] k;
    [destruct Hin |]. cbn [detectCDNFrom].
  assert (Hrest : (inAnyPrefix x -> False) ->
                  exists ip', In ip' (x :: rest)
                    /\ fallsInside ip' (detectCDNFrom order (S k) rest)).
  { intros Hx. destruct Hin as [-> | Hin]; [destruct (Hx Hip) |].
    destruct (IH (ex_intro _ ip (conj Hin Hip)) (S k)) as [ip' [Hin' Hf]].
    exists ip'. split; [right; exact Hin' | exact Hf]. }
  destruct (ParseIP x) as [p |] eqn:Hp.
  - destruct (firstProvider p (order k)) as [name |] eqn:Hf.
    + exists x. split; [left; reflexivity |].
      exact (firstProvider_fallsInside order k x p name Hv Hp Hf).
    + apply Hrest. intros Hx.
      destruct (firstProvider_finds order k x p Hv Hp Hx) as [n Hn]. congruence.
  - apply Hrest. intros [? [? [? [_ [_ [p [? [Hp' _]]]]]]]]. congruence.
Qed.

(** ** Mismatches *)

Lemma verboseStatus_off (k : Z) (tag : string) : verboseStatus false k tag = tag.
Proof. reflexivity. Qed.

(** The result for a successful resolution without the expected address. *)
Lemma mismatch_result (net : Network) (sched : Schedule)
    (request : DNSRequest) (t : Duration) (fg fc ns vb : bool) :
  let st := resolve net (requestContext t) (domain request)
              (buildStrategies t fg fc ns) in
  let addrs := List.map (fun ip => IPString (addrIP ip)) (ips st) in
  err st = None -> ips st <> [] -> (In (expectedIP request) addrs -> False) ->
  fst (processDNSRequest net sched request t fg fc ns vb)
  = {| line := req_line request; shouldPrint := true;
       status := verboseStatus vb (successfulStrategy st)
                   (mismatchStatus (detectCDN (rangeOrder sched) addrs));
       resolvedIPs := fst (performReverseLookups net DefaultResolver
                             (requestContext t) (arrivals sched) addrs) |}.
Proof.
  intros st addrs Herr Hne Hnot. unfold processDNSRequest. fold st. fold addrs.
  rewrite Herr. rewrite (proj2 (length_zero_eqb (ips st)) Hne). cbn [isSome orb].
  rewrite (existsb_eqb_not_In _ _ Hnot). reflexivity.
Qed.




(** The scenarios of the program's documentation. *)
Example scenario_match_prints_nothing :
  printResult (fst (processDNSRequest (netAnswering [ipv4 1 2 3 4])
                      sampleSchedule sampleRequest DNSTimeout
                      false false false false)) = [].
Proof. vm_compute. reflexivity. Qed.

Example scenario_dns_failure :
  printResult (fst (processDNSRequest netDown sampleSchedule sampleRequest
                      DNSTimeout false false false false))
  = ["1.2.3.4:443 [example.com] DNS_FAILURE"].
Proof. vm_compute. reflexivity. Qed.

Example scenario_akamai :
  printResult (fst (processDNSRequest (netAnswering [ipv4 23 32 0 1])
                      sampleSchedule sampleRequest DNSTimeout
                      false false false false))
  = ["1.2.3.4:443 [example.com] CDN_MISMATCH_AKAMAI 23.32.0.1[a23-32-0-1.deploy.static.akamaitechnologies.com]"].
Proof. vm_compute. reflexivity. Qed.

Example scenario_plain_mismatch :
  printResult (fst (processDNSRequest (netAnswering [ipv4 5 6 7 8; ipv4 9 9 9 9])
                      sampleSchedule sampleRequest DNSTimeout
                      false false false false))
  = ["1.2.3.4:443 [example.com] IP_MISMATCH 5.6.7.8,9.9.9.9"].
Proof. vm_compute. reflexivity. Qed.

(** ** IPv6 answers *)









(** An IPv4-mapped address is an IPv4 address for the classifier: as a
    text it is found in the table, and [IP.String] prints such an address
    in dotted form. *)
Example ipv4_mapped_address_is_classified :
  detectCDN sourceOrder ["::ffff:23.32.0.1"] = "akamai"
  /\ IPString (v4InV6Prefix ++ [23; 32; 0; 1]%N) = "23.32.0.1".
Proof. vm_compute. split; reflexivity. Qed.

(** ** Reading the input *)

Lemma parseLine_blank (text : string) :
  TrimSpace text = "" -> parseLine text = SkipLine.
Proof. unfold parseLine. intros ->. reflexivity. Qed.

Lemma parseLine_malformed (text : string) :
  TrimSpace text <> "" ->
  length (FindStringSubmatch (TrimSpace text)) <> 4%nat ->
  parseLine text
  = MalformedLine {| line := TrimSpace text; shouldPrint := true;
                     status := "MALFORMED"; resolvedIPs := [] |}.
Proof.
  intros Hne Hlen. unfold parseLine.
  destruct (String.eqb (TrimSpace text) "") eqn:E.
  - apply String.eqb_eq in E. contradiction.
  - destruct (length (FindStringSubmatch (TrimSpace text)) =? 4)%nat eqn:E4.
    + apply Nat.eqb_eq in E4. contradiction.
    + reflexivity.
Qed.

Lemma parseLine_request (text : string) (request : DNSRequest) :
  parseLine text = RequestLine request ->
  req_line request = TrimSpace text
  /\ length (FindStringSubmatch (TrimSpace text)) = 4%nat.
Proof.
  unfold parseLine.
  destruct (String.eqb (TrimSpace text) ""); [discriminate |].
  destruct (length (FindStringSubmatch (TrimSpace text)) =? 4)%nat eqn:E4;
    [| discriminate].
  intros [= <-]. split; [reflexivity | apply Nat.eqb_eq; exact E4].
Qed.

Lemma reader_skips_blank (text : string) (rest : list string) :
  TrimSpace text = "" ->
  forall cfg net ic pl oc ocl sd m so acc outs s',
    reader_step cfg net (St (text :: rest) false ic pl oc ocl sd m so acc outs) s' ->
    s' = St rest false ic pl oc ocl sd m so acc outs.
Proof.
  intros Hb. pose proof (parseLine_blank text Hb) as Hp.
  intros cfg net ic pl oc ocl sd m so acc outs s' Hs.
  inversion Hs; subst; try congruence.
Qed.

(** C5, as stated, fails for blank records: a line of spaces does not
    match the pattern, yet it gives no [MALFORMED] result; the reader
    skips it and nothing reaches the result queue or standard output.
    (It also fails without workers: [malformed_line_is_lost_without_workers].) *)
Lemma blank_line_gives_no_result :
  FindStringSubmatch (TrimSpace "   ") = []
  /\ parseLine "   " = SkipLine
  /\ parseLine "" = SkipLine
  /\ forall cfg net rest ic pl oc ocl sd m so acc outs s',
       reader_step cfg net
         (St ("   " :: rest) false ic pl oc ocl sd m so acc outs) s' ->
       s' = St rest false ic pl oc ocl sd m so acc outs.
Proof.
  split; [vm_compute; reflexivity |].
  split; [vm_compute; reflexivity |].
  split; [vm_compute; reflexivity |].
  intros cfg net rest. apply reader_skips_blank. vm_compute. reflexivity.
Qed.

(** ** The pipeline: every run ends *)

Lemma poolWeight_app (l1 l2 : list Worker) :
  poolWeight (l1 ++ l2) = (poolWeight l1 + poolWeight l2)%nat.
Proof.
  unfold poolWeight.
  induction l1 as [| w l1 IH]; cbn; [reflexivity |]. rewrite IH. lia.
Qed.

Lemma poolWeight_mid (l1 l2 : list Worker) (w : Worker) :
  poolWeight (l1 ++ w :: l2) = (poolWeight l1 + workerWeight w + poolWeight l2)%nat.
Proof. rewrite poolWeight_app. unfold poolWeight. cbn. lia. Qed.

Lemma running_weight (m : MainState) :
  m = MainWaiting \/ m = MainClosed -> (1 <= mainWeight m)%nat.
Proof. intros [-> | ->]; cbn; lia. Qed.

(** Every step brings the program closer to its end. *)
Lemma step_decreases (cfg : Config) (net : Network) (s s' : State) :
  step cfg net s s' -> (measure s' < measure s)%nat.
Proof.
  intros [Hrun [H | [H | [H | H]]]]; inversion H; subst;
    unfold running in Hrun; cbn [mainAt] in Hrun;
    pose proof (running_weight _ Hrun) as Hw;
    unfold measure; cbn [stdin readerDone inputChan pool outputChan sinkDone mainAt];
    rewrite ?poolWeight_mid, ?length_app; cbn [length workerWeight mainWeight];
    cbn [mainWeight] in Hw; lia.
Qed.

Lemma run_is_bounded (cfg : Config) (net : Network) (n : nat) (s0 s : State) :
  run cfg net n s0 s -> (n + measure s <= measure s0)%nat.
Proof.
  induction 1 as [s | n s s' s'' Hr IH Hs]; [lia |].
  apply step_decreases in Hs. lia.
Qed.

(** ** The pipeline: the shutdown protocol *)

Lemma Forall_exited_mid (l1 l2 : list Worker) (w : Worker) :
  Forall (fun w => w = WExited) (l1 ++ w :: l2) -> w = WExited.
Proof.
  intros H. apply Forall_app in H. destruct H as [_ H].
  inversion H; subst. reflexivity.
Qed.

Lemma In_exited_mid (l1 l2 : list Worker) (w w' : Worker) :
  w' <> WExited -> In WExited (l1 ++ w' :: l2) -> In WExited (l1 ++ w :: l2).
Proof.
  intros Hne H. apply in_app_iff in H. apply in_app_iff.
  destruct H as [H | [H | H]]; [left; exact H | congruence | right; right; exact H].
Qed.

Lemma Forall_exited_In (pl : list Worker) :
  Forall (fun w => w = WExited) pl -> (1 <= length pl)%nat -> In WExited pl.
Proof.
  intros H Hl. destruct pl as [| w pl]; cbn in Hl; [lia |].
  inversion H; subst. left. reflexivity.
Qed.

(** With at least one worker, nobody sends on the closed result channel:
    when it is closed the reader has finished and every worker has
    returned. *)
Lemma closed_after_everyone (cfg : Config) (s : State) :
  (1 <= workers cfg)%Z -> controlled cfg s -> outputClosed s = true ->
  readerDone s = true /\ inputChan s = []
  /\ Forall (fun w => w = WExited) (pool s).
Proof.
  intros HN [Hsize Hcl Hjoin Hdr _ _ _ _] Hocl.
  assert (Hall : Forall (fun w => w = WExited) (pool s))
    by (apply Hjoin, Hcl, Hocl).
  assert (Hin : In WExited (pool s)).
  { apply Forall_exited_In; [exact Hall |]. rewrite Hsize. lia. }
  destruct (Hdr Hin) as [Hrd Hic]. auto.
Qed.

Lemma start_controlled (cfg : Config) (lines : list string) (s0 : State) :
  start cfg lines = Some s0 -> controlled cfg s0.
Proof.
  unfold start. destruct (forceGoogle cfg && forceCF cfg); [discriminate |].
  destruct (bufferSize cfg <? 0)%Z; [discriminate |].
  intros [= <-]. constructor; cbn.
  - apply repeat_length.
  - split; [discriminate | intros H; destruct H; reflexivity].
  - intros H. destruct H. reflexivity.
  - intros H. apply repeat_spec in H. discriminate H.
  - discriminate.
  - discriminate.
  - discriminate.
  - discriminate.
Qed.

Lemma step_controlled (cfg : Config) (net : Network) (s s' : State) :
  (1 <= workers cfg)%Z -> controlled cfg s -> step cfg net s s' ->
  controlled cfg s'.
Proof.
  intros HN Hc [Hrun Hs].
  pose proof (closed_after_everyone cfg s HN Hc) as Hclosed.
  destruct Hc as [Hsize Hcl Hjoin Hdr Heof Hsink Hexit Hnp].
  destruct Hs as [H | [H | [H | H]]]; inversion H; subst;
    state_fields;
    try no_send_on_closed Hclosed;
    constructor;
    state_fields;
    try assumption;
    try (rewrite !length_app in *; cbn [length] in *; assumption).
  all: try (intros Hx; destruct (Hdr Hx) as [? ?]; discriminate).
  all: try (intros Hx; destruct (Hsink Hx) as [? ?]; discriminate).
  all: try (intros Hx; specialize (Hjoin Hx); apply Forall_exited_mid in Hjoin;
            discriminate Hjoin).
  all: try (intros Hx; apply (In_exited_mid _ _ WIdle) in Hx; [| discriminate];
            destruct (Hdr Hx) as [? ?]; try discriminate; auto).
  all: try (intros Hx; apply (In_exited_mid _ _ (WHolding request result)) in Hx;
            [| discriminate]; destruct (Hdr Hx) as [? ?]; try discriminate; auto).
  all: try discriminate.
  all: try (intros _; reflexivity).
  all: try (intros _; split; reflexivity).
  - split; [intros _; discriminate | intros _; reflexivity].
  - intros _. assumption.
  - split; [intros _; discriminate | intros _; apply Hcl; discriminate].
  - intros _. apply Hjoin. discriminate.
Qed.

Lemma run_controlled (cfg : Config) (net : Network) (n : nat) (s0 s : State) :
  (1 <= workers cfg)%Z -> controlled cfg s0 -> run cfg net n s0 s ->
  controlled cfg s.
Proof.
  intros HN H0. induction 1 as [s | n s s' s'' Hr IH Hs]; [exact H0 |].
  apply (step_controlled cfg net s' s'' HN (IH H0) Hs).
Qed.

(** ** The pipeline: where the requests are *)

Lemma heldBy_mid (l1 l2 : list Worker) (w : Worker) :
  heldBy (l1 ++ w :: l2)
  = heldBy l1 ++ match w with WHolding request _ => [request] | _ => [] end
    ++ heldBy l2.
Proof. unfold heldBy. rewrite flat_map_app. reflexivity. Qed.

Lemma queuedOrigins_snoc (oc : list (option DNSRequest * DNSResult))
    (o : option DNSRequest) (result : DNSResult) :
  queuedOrigins (oc ++ [(o, result)])
  = queuedOrigins oc ++ match o with Some request => [request] | None => [] end.
Proof.
  unfold queuedOrigins. rewrite flat_map_app. cbn. rewrite app_nil_r. reflexivity.
Qed.

Lemma queuedOrigins_cons (oc : list (option DNSRequest * DNSResult))
    (o : option DNSRequest) (result : DNSResult) :
  queuedOrigins ((o, result) :: oc)
  = match o with Some request => [request] | None => [] end ++ queuedOrigins oc.
Proof. reflexivity. Qed.

Lemma served_snoc (outs : list Emission) (e : Emission) :
  served (outs ++ [e])
  = served outs ++ match origin e with Some request => [request] | None => [] end.
Proof.
  unfold served. rewrite flat_map_app. cbn. rewrite app_nil_r. reflexivity.
Qed.

Lemma printed_snoc (outs : list Emission) (e : Emission) :
  flat_map printResult (List.map emitted (outs ++ [e]))
  = flat_map printResult (List.map emitted outs) ++ printResult (emitted e).
Proof.
  rewrite map_app, flat_map_app. cbn. rewrite app_nil_r. reflexivity.
Qed.

Lemma requestsOf_cons (text : string) (rest : list string) :
  requestsOf (text :: rest)
  = match parseLine text with
    | RequestLine request => [request]
    | _ => []
    end ++ requestsOf rest.
Proof. reflexivity. Qed.

Lemma parseLine_malformed_print (text : string) (result : DNSResult) :
  parseLine text = MalformedLine result ->
  printResult result = [line result +:+ " MALFORMED"].
Proof.
  unfold parseLine. destruct (String.eqb (TrimSpace text) ""); [discriminate |].
  destruct (negb _); [| discriminate]. intros [= <-]. reflexivity.
Qed.

Lemma Forall_heldOk_mid (cfg : Config) (net : Network) (l1 l2 : list Worker)
    (w w' : Worker) :
  Forall (heldOk cfg net) (l1 ++ w :: l2) -> heldOk cfg net w' ->
  Forall (heldOk cfg net) (l1 ++ w' :: l2).
Proof.
  intros H Hw. apply Forall_app in H. destruct H as [H1 H2].
  apply Forall_app. split; [exact H1 |].
  inversion H2; subst. constructor; assumption.
Qed.

Lemma Forall_heldOk_at (cfg : Config) (net : Network) (l1 l2 : list Worker)
    (w : Worker) :
  Forall (heldOk cfg net) (l1 ++ w :: l2) -> heldOk cfg net w.
Proof.
  intros H. apply Forall_app in H. destruct H as [_ H].
  inversion H; subst. assumption.
Qed.

Lemma start_accounted (cfg : Config) (net : Network) (lines : list string)
    (s0 : State) :
  start cfg lines = Some s0 -> accounted cfg net lines s0.
Proof.
  unfold start. destruct (forceGoogle cfg && forceCF cfg); [discriminate |].
  destruct (bufferSize cfg <? 0)%Z; [discriminate |].
  intros [= <-]. constructor; cbn; try reflexivity; try constructor.
  - induction (Z.to_nat (workers cfg)); cbn; [constructor | exact IHn].
  - induction (Z.to_nat (workers cfg)); cbn; constructor; [exact I | exact IHn].
Qed.

Lemma step_accounted (cfg : Config) (net : Network) (lines : list string)
    (s s' : State) :
  (1 <= workers cfg)%Z -> controlled cfg s -> accounted cfg net lines s ->
  step cfg net s s' -> accounted cfg net lines s'.
Proof.
  intros HN Hc Ha [Hrun Hs].
  pose proof (closed_after_everyone cfg s HN Hc) as Hclosed.
  destruct Ha as [Hflow Hread Hout Hheld Hq Hres].
  destruct Hs as [H | [H | [H | H]]]; inversion H; subst;
    state_fields;
    try no_send_on_closed Hclosed;
    constructor;
    state_fields;
    rewrite ?heldBy_mid, ?queuedOrigins_snoc, ?queuedOrigins_cons, ?served_snoc,
      ?printed_snoc in *;
    cbn [origin emitted fst snd] in *;
    try assumption.
  all: try (rewrite Hflow; solve_Permutation).
  all: try (rewrite Hread, requestsOf_cons;
            match goal with Hp : parseLine _ = _ |- _ => rewrite Hp end;
            cbn [app]; rewrite <- ?app_assoc; reflexivity).
  all: try (rewrite Hout; reflexivity).
  all: try (rewrite Hout;
            match goal with Hp : parseLine _ = MalformedLine _ |- _ =>
              rewrite (parseLine_malformed_print _ _ Hp) end; reflexivity).
  all: try (apply Forall_app; split; [assumption |];
            constructor; [cbn; try assumption; exact I | constructor]).
  all: try (eapply Forall_heldOk_mid; [eassumption |]; cbn; try assumption; exact I).
  - apply Forall_app. split; [assumption |].
    constructor; [exact (Forall_heldOk_at _ _ _ _ _ Hheld) | constructor].
  - apply Forall_app. split; [assumption |].
    constructor; [exact (Forall_heldOk_at _ _ _ _ _ Hheld) | constructor].
  - inversion Hq; subst. assumption.
  - apply Forall_app. split; [assumption |].
    inversion Hq; subst. constructor; [assumption | constructor].
Qed.

Lemma run_accounted (cfg : Config) (net : Network) (lines : list string)
    (n : nat) (s0 s : State) :
  (1 <= workers cfg)%Z -> controlled cfg s0 -> accounted cfg net lines s0 ->
  run cfg net n s0 s -> accounted cfg net lines s.
Proof.
  intros HN Hc0 Ha0. induction 1 as [s | n s s' s'' Hr IH Hs]; [exact Ha0 |].
  apply (step_accounted cfg net lines s' s'' HN); [| exact (IH Hc0 Ha0) | exact Hs].
  exact (run_controlled cfg net n s s' HN Hc0 Hr).
Qed.

(** A result carries the line of its request. *)
Lemma processed_line (cfg : Config) (net : Network) (request : DNSRequest)
    (result : DNSResult) :
  processed cfg net request result -> line result = req_line request.
Proof.
  intros [sched [_ ->]]. unfold processDNSRequest.
  destruct (isSome _ || _); [reflexivity |].
  destruct (existsb _ _); reflexivity.
Qed.

(** ** The pipeline: no deadlock *)

Lemma processed_exists (cfg : Config) (net : Network) (request : DNSRequest) :
  exists result, processed cfg net request result.
Proof.
  eexists. exists sampleSchedule. split; [exact validOrder_sourceOrder | reflexivity].
Qed.

Lemma pool_cases (pl : list Worker) :
  Forall (fun w => w = WExited) pl
  \/ (exists l1 l2, pl = l1 ++ WIdle :: l2)
  \/ (exists l1 l2 request result, pl = l1 ++ WHolding request result :: l2).
Proof.
  induction pl as [| w pl IH]; [left; constructor |].
  destruct w as [| request result |].
  - right. left. exists [], pl. reflexivity.
  - right. right. exists [], pl, request, result. reflexivity.
  - destruct IH as [IH | [[l1 [l2 ->]] | [l1 [l2 [request [result ->]]]]]].
    + left. constructor; [reflexivity | exact IH].
    + right. left. exists (WExited :: l1), l2. reflexivity.
    + right. right. exists (WExited :: l1), l2, request, result. reflexivity.
Qed.

(** As long as [main] has not returned, some goroutine can take a step. *)
Lemma progress (cfg : Config) (net : Network) (s : State) :
  controlled cfg s -> running s -> exists s', step cfg net s s'.
Proof.
  intros Hc Hrun.
  destruct s as [si rd ic pl oc ocl sd m so acc outs].
  destruct Hc as [_ Hcl _ _ _ _ _ _]. cbn in Hcl.
  assert (Hstep : forall s',
            reader_step cfg net (St si rd ic pl oc ocl sd m so acc outs) s'
            \/ dnsWorker_step cfg net (St si rd ic pl oc ocl sd m so acc outs) s'
            \/ outputWorker_step (St si rd ic pl oc ocl sd m so acc outs) s'
            \/ main_step (St si rd ic pl oc ocl sd m so acc outs) s' ->
            exists s'', step cfg net (St si rd ic pl oc ocl sd m so acc outs) s'').
  { intros s' H. exists s'. split; assumption. }
  destruct rd.
  - destruct (pool_cases pl)
      as [Hall | [[l1 [l2 ->]] | [l1 [l2 [request [result ->]]]]]].
    + destruct Hrun as [Hm | Hm]; cbn in Hm; subst m.
      * destruct ocl.
        -- exfalso. apply (proj1 Hcl); reflexivity.
        -- eapply Hstep. right. right. right. apply M_close. exact Hall.
      * assert (Hocl : ocl = true) by (apply Hcl; discriminate). subst ocl.
        destruct sd.
        -- eapply Hstep. right. right. right. apply M_exit.
        -- destruct oc as [| [o result] oc].
           ++ eapply Hstep. right. right. left. apply S_done.
           ++ eapply Hstep. right. right. left. apply S_receive.
    + destruct ic as [| request ic].
      * eapply Hstep. right. left. apply W_exit.
      * destruct (processed_exists cfg net request) as [result Hp].
        eapply Hstep. right. left. apply (W_receive cfg net request result).
        exact Hp.
    + destruct ocl.
      * eapply Hstep. right. left. apply W_send_closed.
      * eapply Hstep. right. left. apply W_print.
  - destruct si as [| text rest].
    + eapply Hstep. left. apply R_close.
    + destruct (parseLine text) as [| result | request] eqn:Hp.
      * eapply Hstep. left. apply R_skip. exact Hp.
      * destruct ocl.
        -- eapply Hstep. left. eapply R_malformed_closed. exact Hp.
        -- eapply Hstep. left. eapply R_malformed_print. exact Hp.
      * destruct (processed_exists cfg net request) as [result Hr].
        destruct ocl.
        -- eapply Hstep. left. eapply R_inline_closed; eassumption.
        -- eapply Hstep. left. eapply R_inline_print; eassumption.
Qed.

Lemma halted_is_exited (cfg : Config) (net : Network) (s : State) :
  controlled cfg s -> halted cfg net s -> mainAt s = MainExited.
Proof.
  intros Hc Hh.
  destruct (mainAt s) eqn:E; [| | reflexivity |].
  - destruct (progress cfg net s Hc (or_introl E)) as [s' Hs]. destruct (Hh s' Hs).
  - destruct (progress cfg net s Hc (or_intror E)) as [s' Hs]. destruct (Hh s' Hs).
  - destruct (ctl_no_panic cfg s Hc E).
Qed.

Lemma heldBy_exited (pl : list Worker) :
  Forall (fun w => w = WExited) pl -> heldBy pl = [].
Proof.
  induction 1 as [| w pl Hw _ IH]; [reflexivity |]. subst w. exact IH.
Qed.

(** When [main] has returned, every accepted request has left. *)
Lemma exited_all_served (cfg : Config) (net : Network) (lines : list string)
    (s : State) :
  (1 <= workers cfg)%Z -> controlled cfg s -> accounted cfg net lines s ->
  mainAt s = MainExited ->
  accepted s = requestsOf lines
  /\ Permutation (served (outcomes s)) (requestsOf lines).
Proof.
  intros HN Hc Ha Hm.
  destruct Hc as [Hsize Hcl Hjoin Hdr Heof Hsink Hexit Hnp].
  destruct Ha as [Hflow Hread _ _ _ _].
  assert (Hall : Forall (fun w => w = WExited) (pool s))
    by (apply Hjoin; rewrite Hm; discriminate).
  assert (Hin : In WExited (pool s)).
  { apply Forall_exited_In; [exact Hall |]. rewrite Hsize. lia. }
  destruct (Hdr Hin) as [Hrd Hic].
  destruct (Hsink (Hexit Hm)) as [Hoc _].
  rewrite (Heof Hrd) in Hread. cbn in Hread. rewrite app_nil_r in Hread.
  rewrite Hic, Hoc, (heldBy_exited _ Hall) in Hflow. cbn in Hflow.
  split; [symmetry; exact Hread |].
  rewrite Hread. symmetry. exact Hflow.
Qed.

Lemma run_cons (cfg : Config) (net : Network) (n : nat) (s s' s'' : State) :
  step cfg net s s' -> run cfg net n s' s'' -> run cfg net (S n) s s''.
Proof.
  intros Hs Hr. induction Hr as [s' | n s' t t' Hr IH Ht].
  - eapply run_step; [apply run_nil | exact Hs].
  - eapply run_step; [exact (IH Hs) | exact Ht].
Qed.

Lemma exited_is_halted (cfg : Config) (net : Network) (s : State) :
  mainAt s = MainExited -> halted cfg net s.
Proof.
  intros Hm s' [[H | H] _]; rewrite Hm in H; discriminate H.
Qed.

(** From every state the shutdown protocol holds in, the program can run
    to its end. *)
Lemma runs_to_the_end (cfg : Config) (net : Network) :
  (1 <= workers cfg)%Z ->
  forall k s, (measure s <= k)%nat -> controlled cfg s ->
              exists m s', run cfg net m s s' /\ halted cfg net s'.
Proof.
  intros HN. induction k as [| k IH]; intros s Hk Hc.
  - exists 0%nat, s. split; [apply run_nil |].
    intros s' Hs. apply step_decreases in Hs. lia.
  - destruct (mainAt s) eqn:Em.
    + destruct (progress cfg net s Hc (or_introl Em)) as [s1 Hs].
      pose proof (step_decreases cfg net s s1 Hs) as Hlt.
      destruct (IH s1 ltac:(lia) (step_controlled cfg net s s1 HN Hc Hs))
        as [m [s' [Hr Hh]]].
      exists (S m), s'. split; [exact (run_cons cfg net m s s1 s' Hs Hr) | exact Hh].
    + destruct (progress cfg net s Hc (or_intror Em)) as [s1 Hs].
      pose proof (step_decreases cfg net s s1 Hs) as Hlt.
      destruct (IH s1 ltac:(lia) (step_controlled cfg net s s1 HN Hc Hs))
        as [m [s' [Hr Hh]]].
      exists (S m), s'. split; [exact (run_cons cfg net m s s1 s' Hs Hr) | exact Hh].
    + exists 0%nat, s. split; [apply run_nil |].
      intros s' [[H | H] _]; rewrite Em in H; discriminate H.
    + exists 0%nat, s. split; [apply run_nil |].
      intros s' [[H | H] _]; rewrite Em in H; discriminate H.
Qed.

(** C6, as the code has it: with at least one worker, every run of the
    pipeline is finite; at every moment the requests whose result has left
    the program (through [outputWorker], the direct print of a worker or
    the direct print of the reader) are among the accepted ones, each at
    most as often as it was accepted, every such result is a result of
    [processDNSRequest] for its request, and standard output holds exactly
    the lines of the results that have left, once each; a run can only
    stop when [main] has returned, and then the accepted requests are the
    requests of the input and the results that have left are one per
    accepted request; and the run can always be continued to such a stop. *)
Theorem every_request_gets_exactly_one_outcome (cfg : Config) (net : Network)
    (lines : list string) (s0 : State) (n : nat) (s : State) :
  (1 <= workers cfg)%Z ->
  start cfg lines = Some s0 ->
  run cfg net n s0 s ->
  (n <= measure s0)%nat
  /\ (exists pending,
        Permutation (accepted s) (served (outcomes s) ++ pending))
  /\ stdout s = flat_map printResult (List.map emitted (outcomes s))
  /\ Forall (fun e => answers cfg net (origin e) (emitted e)) (outcomes s)
  /\ (halted cfg net s ->
      mainAt s = MainExited
      /\ accepted s = requestsOf lines
      /\ Permutation (served (outcomes s)) (requestsOf lines)
      /\ length (served (outcomes s)) = length (requestsOf lines))
  /\ (exists m s', run cfg net m s s' /\ halted cfg net s').
Proof.
  intros HN Hstart Hrun.
  pose proof (start_controlled cfg lines s0 Hstart) as Hc0.
  pose proof (start_accounted cfg net lines s0 Hstart) as Ha0.
  pose proof (run_controlled cfg net n s0 s HN Hc0 Hrun) as Hc.
  pose proof (run_accounted cfg net lines n s0 s HN Hc0 Ha0 Hrun) as Ha.
  split; [pose proof (run_is_bounded cfg net n s0 s Hrun); lia |].
  split.
  { exists (inputChan s ++ heldBy (pool s) ++ queuedOrigins (outputChan s)).
    rewrite (acc_flow cfg net lines s Ha). solve_Permutation. }
  split; [exact (acc_stdout cfg net lines s Ha) |].
  split; [exact (acc_outcomes cfg net lines s Ha) |].
  split; [| exact (runs_to_the_end cfg net HN (measure s) s (Nat.le_refl _) Hc)].
  intros Hh.
  pose proof (halted_is_exited cfg net s Hc Hh) as Hm.
  destruct (exited_all_served cfg net lines s HN Hc Ha Hm) as [Hacc Hperm].
  split; [exact Hm |]. split; [exact Hacc |]. split; [exact Hperm |].
  apply Permutation_length. exact Hperm.
Qed.

(** One worker, buffers of one, one request that does not resolve: the
    run through the request queue, the worker and [outputWorker]. *)
Lemma every_request_gets_exactly_one_outcome_witness :
  exists s0 s,
    start smallConfig ["1.2.3.4:443 [example.com]"] = Some s0
    /\ run smallConfig netDown 9 s0 s
    /\ mainAt s = MainExited
    /\ stdout s = ["1.2.3.4:443 [example.com] DNS_FAILURE"]
    /\ (9 <= measure s0)%nat
    /\ Permutation (served (outcomes s))
         (requestsOf ["1.2.3.4:443 [example.com]"]).
Proof.
  pose (q := sampleRequest).
  pose (r := {| line := "1.2.3.4:443 [example.com]"; shouldPrint := true;
                status := "DNS_FAILURE"; resolvedIPs := [] |}).
  assert (Hp : processed smallConfig netDown q r).
  { exists sampleSchedule. split; [exact validOrder_sourceOrder |].
    vm_compute. reflexivity. }
  assert (Hrun : run smallConfig netDown 9
            (St ["1.2.3.4:443 [example.com]"] false [] [WIdle] [] false false
               MainWaiting [] [] [])
            (St [] true [] [WExited] [] true true MainExited
               ["1.2.3.4:443 [example.com] DNS_FAILURE"] [q]
               [{| origin := Some q; emitted := r; path := ByOutputWorker |}])).
  { eapply run_cons.
    { split; [left; reflexivity |]. left.
      apply (R_enqueue smallConfig netDown _ _ q); [vm_compute; reflexivity |].
      left. cbn. lia. }
    eapply run_cons.
    { split; [left; reflexivity |]. left. apply R_close. }
    eapply run_cons.
    { split; [left; reflexivity |]. right. left.
      apply (W_receive smallConfig netDown q r _ _ _ [] []). exact Hp. }
    eapply run_cons.
    { split; [left; reflexivity |]. right. left.
      apply (W_send smallConfig netDown q r _ _ _ [] []). left. cbn. lia. }
    eapply run_cons.
    { split; [left; reflexivity |]. right. left.
      apply (W_exit smallConfig netDown _ [] []). }
    eapply run_cons.
    { split; [left; reflexivity |]. right. right. left. apply S_receive. }
    eapply run_cons.
    { split; [left; reflexivity |]. right. right. right.
      apply M_close. constructor; [reflexivity | constructor]. }
    eapply run_cons.
    { split; [right; reflexivity |]. right. right. left. apply S_done. }
    eapply run_cons.
    { split; [right; reflexivity |]. right. right. right. apply M_exit. }
    apply run_nil. }
  eexists. eexists. split; [reflexivity |]. split; [exact Hrun |].
  split; [reflexivity |]. split; [reflexivity |].
  destruct (every_request_gets_exactly_one_outcome smallConfig netDown
              ["1.2.3.4:443 [example.com]"] _ 9 _
              ltac:(cbn; lia) eq_refl Hrun) as [Hn [_ [_ [_ [Hh _]]]]].
  split; [exact Hn |].
  assert (Hhalt : halted smallConfig netDown
            (St [] true [] [WExited] [] true true MainExited
               ["1.2.3.4:443 [example.com] DNS_FAILURE"] [q]
               [{| origin := Some q; emitted := r; path := ByOutputWorker |}]))
    by (apply exited_is_halted; reflexivity).
  destruct (Hh Hhalt) as [_ [_ [Hperm _]]].
  exact Hperm.
Defined.

(** C6, as stated, fails without workers ([-workers 0]): the reader puts a
    request on the request channel, [wg.Wait()] returns at once, [main]
    closes the result channel and returns after [outputWorker] has
    finished; the accepted request never gets a result. *)
Lemma a_pool_without_workers_loses_requests :
  exists s0 s,
    start noWorkerConfig ["1.2.3.4:443 [example.com]"] = Some s0
    /\ run noWorkerConfig netDown 4 s0 s
    /\ mainAt s = MainExited
    /\ accepted s = [sampleRequest]
    /\ outcomes s = []
    /\ stdout s = [].
Proof.
  eexists.
  exists (St [] false [sampleRequest] [] [] true true MainExited []
            [sampleRequest] []).
  split; [reflexivity |]. split; [| repeat split; reflexivity].
  eapply run_cons.
  { split; [left; reflexivity |]. left.
    apply (R_enqueue noWorkerConfig netDown _ _ sampleRequest);
      [vm_compute; reflexivity |].
    left. reflexivity. }
  eapply run_cons.
  { split; [left; reflexivity |]. right. right. right.
    apply M_close. constructor. }
  eapply run_cons.
  { split; [right; reflexivity |]. right. right. left. apply S_done. }
  eapply run_cons.
  { split; [right; reflexivity |]. right. right. right. apply M_exit. }
  apply run_nil.
Qed.

(* ===================================================================== *)
(** ** Further properties of [processDNSRequest]                          *)
(* ===================================================================== *)

Lemma tryStrategies_first_answer (net : Network) (ctx : Context) (dom : string)
    (s : Resolver) (after : list Resolver) (answer : list IPAddr) :
  LookupIPAddr net s ctx dom = (answer, None) -> answer <> [] ->
  forall before i st,
    forallb (answersNothing net ctx dom) before = true ->
    tryStrategies net ctx dom i (before ++ s :: after) st
    = {| ips := answer; err := None;
         successfulStrategy := (i + Z.of_nat (length before))%Z;
         calls := calls st
                  ++ flat_map (fun r => [CallLookupIPAddr r ctx dom;
                                         CallSleep (50 * Millisecond)%Z]) before
                  ++ [CallLookupIPAddr s ctx dom] |}.
Proof.
  intros Hs Hne. induction before as [| r before IH]; intros i st Hb.
  - cbn [app tryStrategies length flat_map]. rewrite Hs.
    destruct answer as [| a answer]; [congruence |]. cbn.
    f_equal. lia.
  - cbn [forallb] in Hb. apply andb_true_iff in Hb. destruct Hb as [Hr Hb].
    cbn [app tryStrategies]. unfold answersNothing in Hr.
    destruct (LookupIPAddr net r ctx dom) as [ips' err'].
    apply negb_true_iff in Hr. rewrite Hr.
    rewrite (IH _ _ Hb). cbn [calls length flat_map].
    f_equal; [lia |]. rewrite <- !app_assoc. reflexivity.
Qed.

(** X3: the strategies are tried in the order of the chain and the first one
    that answers without error and with an address ends the resolution: its
    answer is the result, its position is recorded, no later strategy and no
    fallback lookup is called, and each strategy before it was called once
    and followed by a pause of 50ms. *)
Theorem first_answer_ends_the_chain (net : Network) (ctx : Context)
    (dom : string) (before : list Resolver) (s : Resolver)
    (after : list Resolver) (answer : list IPAddr) :
  forallb (answersNothing net ctx dom) before = true ->
  LookupIPAddr net s ctx dom = (answer, None) -> answer <> [] ->
  let st := resolve net ctx dom (before ++ s :: after) in
  ips st = answer
  /\ err st = None
  /\ successfulStrategy st = Z.of_nat (length before)
  /\ calls st
     = flat_map (fun r => [CallLookupIPAddr r ctx dom;
                           CallSleep (50 * Millisecond)%Z]) before
       ++ [CallLookupIPAddr s ctx dom].
Proof.
  intros Hb Hs Hne st. subst st. unfold resolve.
  rewrite (tryStrategies_first_answer net ctx dom s after answer Hs Hne
             before 0%Z noAttempt Hb).
  unfold lookupHostFallback. cbn. repeat split; reflexivity.
Qed.

Lemma first_answer_ends_the_chain_witness :
  let st := resolve (netSystemDown [ipv4 1 2 3 4]) (requestContext DNSTimeout)
              "example.com" (buildStrategies DNSTimeout false false false) in
  ips st = [ipv4 1 2 3 4]
  /\ err st = None
  /\ successfulStrategy st = 1%Z
  /\ calls st
     = [ CallLookupIPAddr systemResolver (requestContext DNSTimeout) "example.com";
         CallSleep (50 * Millisecond)%Z;
         CallLookupIPAddr goBuiltinResolver (requestContext DNSTimeout) "example.com" ].
Proof.
  apply (first_answer_ends_the_chain (netSystemDown [ipv4 1 2 3 4])
           (requestContext DNSTimeout) "example.com" [systemResolver]
           goBuiltinResolver
           [googleResolver DNSTimeout; cloudflareResolver DNSTimeout;
            quad9Resolver DNSTimeout; openDNSResolver DNSTimeout]
           [ipv4 1 2 3 4]).
  - reflexivity.
  - reflexivity.
  - discriminate.
Defined.

Lemma countCalls_app (p : NetCall -> bool) (l1 l2 : list NetCall) :
  countCalls p (l1 ++ l2) = (countCalls p l1 + countCalls p l2)%nat.
Proof. unfold countCalls. rewrite List.filter_app, length_app. reflexivity. Qed.

Lemma tryStrategies_counts (net : Network) (ctx : Context) (dom : string)
    (strategies : list Resolver) :
  forall i st,
  exists added,
    calls (tryStrategies net ctx dom i strategies st) = calls st ++ added
    /\ (countCalls isLookupIPAddrCall added <= length strategies)%nat
    /\ (strategies <> [] -> 1 <= countCalls isLookupIPAddrCall added)%nat
    /\ (countCalls isSleepCall added <= countCalls isLookupIPAddrCall added)%nat
    /\ countCalls isLookupHostCall added = 0%nat
    /\ countCalls isLookupAddrCall added = 0%nat.
Proof.
  induction strategies as [| r rest IH]; intros i st.
  - exists []. cbn. rewrite app_nil_r. repeat split; try lia. congruence.
  - cbn [tryStrategies]. destruct (LookupIPAddr net r ctx dom) as [ips' err'].
    destruct (isNil err' && _).
    + exists [CallLookupIPAddr r ctx dom]. cbn. repeat split; lia.
    + destruct (IH (i + 1)%Z
                  {| ips := ips'; err := err';
                     successfulStrategy := successfulStrategy st;
                     calls := (calls st ++ [CallLookupIPAddr r ctx dom])
                              ++ [CallSleep (50 * Millisecond)%Z] |})
        as [added [Hc [H1 [_ [H3 [H4 H5]]]]]].
      exists (CallLookupIPAddr r ctx dom :: CallSleep (50 * Millisecond)%Z :: added).
      rewrite Hc. cbn [calls]. rewrite <- !app_assoc. cbn [app].
      split; [reflexivity |].
      change (CallLookupIPAddr r ctx dom :: CallSleep (50 * Millisecond)%Z :: added)
        with ([CallLookupIPAddr r ctx dom; CallSleep (50 * Millisecond)%Z] ++ added).
      rewrite !countCalls_app. cbn. repeat split; lia.
Qed.

Lemma buildStrategies_length (t : Duration) (fg fc ns : bool) :
  (1 <= length (buildStrategies t fg fc ns) <= 6)%nat.
Proof. destruct fg, fc, ns; cbn; lia. Qed.

(** X4: the network calls one request costs.  Whatever the network answers
    and whatever the flags are, [processDNSRequest] makes at least one and
    at most six forward lookups (one per strategy of the chain), pauses at
    most once per forward lookup, makes at most one fallback host lookup,
    and makes one reverse lookup per reported address for a mismatch and
    none for a MATCH or a DNS_FAILURE. *)
Theorem lookups_per_request_are_bounded (net : Network) (sched : Schedule)
    (request : DNSRequest) (t : Duration) (fg fc ns vb : bool) :
  let result := fst (processDNSRequest net sched request t fg fc ns vb) in
  let trace := snd (processDNSRequest net sched request t fg fc ns vb) in
  let forward := countCalls isLookupIPAddrCall trace in
  (1 <= forward)%nat
  /\ (forward <= length (buildStrategies t fg fc ns))%nat
  /\ (length (buildStrategies t fg fc ns) <= 6)%nat
  /\ (countCalls isSleepCall trace <= forward)%nat
  /\ (countCalls isLookupHostCall trace <= 1)%nat
  /\ countCalls isLookupAddrCall trace
     = (if shouldPrint result then length (resolvedIPs result) else 0%nat).
Proof.
  cbv zeta.
  pose proof (buildStrategies_length t fg fc ns) as Hlen.
  assert (Hne : buildStrategies t fg fc ns <> []).
  { intros E. rewrite E in Hlen. cbn in Hlen. lia. }
  assert (Hres :
    exists added,
      calls (resolve net (requestContext t) (domain request)
               (buildStrategies t fg fc ns)) = added
      /\ (1 <= countCalls isLookupIPAddrCall added
          <= length (buildStrategies t fg fc ns))%nat
      /\ (countCalls isSleepCall added <= countCalls isLookupIPAddrCall added)%nat
      /\ (countCalls isLookupHostCall added <= 1)%nat
      /\ countCalls isLookupAddrCall added = 0%nat).
  { rewrite fallback_only_after_an_error. cbv zeta.
    destruct (tryStrategies_counts net (requestContext t) (domain request)
                (buildStrategies t fg fc ns) 0%Z noAttempt)
      as [added [Hc [H1 [H2 [H3 [H4 H5]]]]]].
    specialize (H2 Hne). rewrite Hc. cbn [calls noAttempt app].
    eexists. split; [reflexivity |]. rewrite !countCalls_app.
    destruct (isSome _); cbn; repeat split; lia. }
  destruct Hres as [added [Hc [H1 [H3 [H4 H5]]]]].
  unfold processDNSRequest.
  destruct (isSome _ || _).
  - cbn [fst snd shouldPrint resolvedIPs length]. rewrite Hc.
    repeat split; lia.
  - destruct (existsb _ _).
    + cbn [fst snd shouldPrint]. rewrite Hc. repeat split; lia.
    + unfold performReverseLookups. cbn [fst snd shouldPrint resolvedIPs].
      rewrite Hc, !countCalls_app.
      assert (Hrev : forall l : list string,
                countCalls isLookupIPAddrCall
                  (List.map (fun ip => CallLookupAddr DefaultResolver
                               (WithTimeout (requestContext t) (2 * Second)%Z) ip) l) = 0%nat
                /\ countCalls isSleepCall
                  (List.map (fun ip => CallLookupAddr DefaultResolver
                               (WithTimeout (requestContext t) (2 * Second)%Z) ip) l) = 0%nat
                /\ countCalls isLookupHostCall
                  (List.map (fun ip => CallLookupAddr DefaultResolver
                               (WithTimeout (requestContext t) (2 * Second)%Z) ip) l) = 0%nat
                /\ countCalls isLookupAddrCall
                  (List.map (fun ip => CallLookupAddr DefaultResolver
                               (WithTimeout (requestContext t) (2 * Second)%Z) ip) l)
                   = length l).
      { induction l as [| x l IHl]; [repeat split; reflexivity |].
        destruct IHl as [I1 [I2 [I3 I4]]]. unfold countCalls in *. cbn.
        rewrite I1, I2, I3, I4. repeat split; reflexivity. }
      destruct (Hrev (List.map (fun ip => IPString (addrIP ip))
                        (ips (resolve net (requestContext t) (domain request)
                                (buildStrategies t fg fc ns)))))
        as [I1 [I2 [I3 I4]]].
      rewrite I1, I2, I3, I4, !length_map. repeat split; lia.
Qed.

Lemma mismatchStatus_isMismatchTag (provider : string) :
  isMismatchTag (mismatchStatus provider).
Proof.
  unfold mismatchStatus, isMismatchTag.
  destruct (String.eqb provider "") eqn:E; cbn [negb].
  - left. reflexivity.
  - right. exists provider. split; [| reflexivity].
    apply String.eqb_neq. exact E.
Qed.

Lemma verboseStatus_cases (vb : bool) (k : Z) (tag : string) :
  verboseStatus vb k tag = tag
  \/ (vb = true
      /\ exists name, In name strategyNames
                      /\ verboseStatus vb k tag = tag +:+ "_VIA_" +:+ ToUpper name).
Proof.
  unfold verboseStatus. destruct vb; [| left; reflexivity].
  destruct (_ && _) eqn:E; [| left; reflexivity].
  right. split; [reflexivity |].
  exists (nth (Z.to_nat k) strategyNames ""). split; [| reflexivity].
  apply andb_true_iff in E. destruct E as [E1 E2].
  apply nth_In. lia.
Qed.

Lemma mismatch_tag_differs (tag tail : string) :
  isMismatchTag tag ->
  String.eqb (tag +:+ tail) "MATCH" = false
  /\ String.eqb (tag +:+ tail) "MALFORMED" = false
  /\ String.eqb tag "MATCH" = false
  /\ String.eqb tag "MALFORMED" = false.
Proof.
  intros [E | [provider [_ E]]]; subst tag; cbn; repeat split; reflexivity.
Qed.

(** X5: the classes of a result of [processDNSRequest].  The result carries
    the line of its request; its status is DNS_FAILURE (with no address),
    MATCH, or a mismatch tag (IP_MISMATCH, or CDN_MISMATCH_ and the upper
    case of a non-empty provider name) which in verbose mode may be followed
    by _VIA_ and the upper case of a strategy name; it is never MALFORMED;
    and the result is flagged for printing exactly when its status is not
    MATCH. *)
Theorem result_is_printed_unless_MATCH (net : Network) (sched : Schedule)
    (request : DNSRequest) (t : Duration) (fg fc ns vb : bool) :
  let result := fst (processDNSRequest net sched request t fg fc ns vb) in
  line result = req_line request
  /\ (status result = "DNS_FAILURE" /\ resolvedIPs result = []
      \/ status result = "MATCH"
      \/ exists tag,
           isMismatchTag tag
           /\ (status result = tag
               \/ (vb = true
                   /\ exists name, In name strategyNames
                                   /\ status result
                                      = tag +:+ "_VIA_" +:+ ToUpper name)))
  /\ shouldPrint result = negb (String.eqb (status result) "MATCH")
  /\ String.eqb (status result) "MALFORMED" = false.
Proof.
  cbv zeta. unfold processDNSRequest.
  destruct (isSome _ || _).
  - cbn. repeat split; auto.
  - destruct (existsb _ _).
    + cbn. repeat split; auto.
    + destruct (performReverseLookups _ _ _ _ _) as [formatted reverseCalls].
      cbn [fst line status shouldPrint resolvedIPs].
      set (st := resolve _ _ _ _).
      pose proof (mismatchStatus_isMismatchTag
                    (detectCDN (rangeOrder sched)
                       (List.map (fun ip => IPString (addrIP ip)) (ips st))))
        as Htag.
      set (tag := mismatchStatus _) in *.
      split; [reflexivity |].
      destruct (verboseStatus_cases vb (successfulStrategy st) tag)
        as [E | [Hvb [name [Hname E]]]]; rewrite E.
      * destruct (mismatch_tag_differs tag "" Htag) as [_ [_ [H1 H2]]].
        rewrite H1, H2. split; [| split; reflexivity].
        right. right. exists tag. split; [exact Htag | left; reflexivity].
      * destruct (mismatch_tag_differs tag ("_VIA_" +:+ ToUpper name) Htag)
          as [H1 [H2 _]].
        rewrite H1, H2. split; [| split; reflexivity].
        right. right. exists tag. split; [exact Htag |]. right.
        split; [exact Hvb |]. exists name. split; [exact Hname | reflexivity].
Qed.

Lemma tryStrategies_same_answers (net1 net2 : Network) (ctx : Context)
    (dom : string) (strategies : list Resolver) :
  (forall r c host, LookupIPAddr net1 r c host = LookupIPAddr net2 r c host) ->
  forall i st,
    tryStrategies net1 ctx dom i strategies st
    = tryStrategies net2 ctx dom i strategies st.
Proof.
  intros H. induction strategies as [| r rest IH]; intros i st; [reflexivity |].
  cbn [tryStrategies]. rewrite H.
  destruct (LookupIPAddr net2 r ctx dom) as [ips' err'].
  destruct (isNil err' && _); [reflexivity | apply IH].
Qed.

Lemma resolve_same_answers (net1 net2 : Network) (ctx : Context)
    (dom : string) (strategies : list Resolver) :
  (forall r c host, LookupIPAddr net1 r c host = LookupIPAddr net2 r c host) ->
  (forall r c host, LookupHost net1 r c host = LookupHost net2 r c host) ->
  resolve net1 ctx dom strategies = resolve net2 ctx dom strategies.
Proof.
  intros H1 H2. unfold resolve.
  rewrite (tryStrategies_same_answers net1 net2 ctx dom strategies H1).
  unfold lookupHostFallback. rewrite H2. reflexivity.
Qed.

Lemma detectCDNFrom_same_order (o1 o2 : nat -> list (string * list string))
    (ips : list string) :
  (forall k, o1 k = o2 k) ->
  forall k, detectCDNFrom o1 k ips = detectCDNFrom o2 k ips.
Proof.
  intros H. induction ips as [| ip rest IH]; intros k; [reflexivity |].
  cbn [detectCDNFrom]. rewrite H, !IH. reflexivity.
Qed.

Lemma Forall2_annotated_refl (net : Network) (resolver : Resolver)
    (ctx : Context) (ips : list string) :
  forall others, Forall2 (annotated net resolver ctx others) ips ips.
Proof.
  intros others.
  induction ips as [| ip rest IH]; constructor; [left; reflexivity | exact IH].
Qed.

(** X6: the reverse lookups never change the verdict.  Two runs of
    [processDNSRequest] on the same request that see the same forward
    answers (strategies and fallback) and the same order of the provider
    table return the same line, the same status and the same print flag,
    whatever the reverse lookups answer and whichever of them arrive in
    time; the reported addresses are the same up to the reverse-name
    annotation. *)
Theorem reverse_lookups_do_not_change_the_verdict (net1 net2 : Network)
    (sched1 sched2 : Schedule) (request : DNSRequest) (t : Duration)
    (fg fc ns vb : bool) :
  (forall r c host, LookupIPAddr net1 r c host = LookupIPAddr net2 r c host) ->
  (forall r c host, LookupHost net1 r c host = LookupHost net2 r c host) ->
  (forall k, rangeOrder sched1 k = rangeOrder sched2 k) ->
  let r1 := fst (processDNSRequest net1 sched1 request t fg fc ns vb) in
  let r2 := fst (processDNSRequest net2 sched2 request t fg fc ns vb) in
  line r1 = line r2
  /\ status r1 = status r2
  /\ shouldPrint r1 = shouldPrint r2
  /\ exists addrs,
       Forall2 (annotated net1 DefaultResolver (requestContext t) addrs) addrs
         (resolvedIPs r1)
       /\ Forall2 (annotated net2 DefaultResolver (requestContext t) addrs) addrs
            (resolvedIPs r2).
Proof.
  intros H1 H2 H3. cbv zeta. unfold processDNSRequest.
  rewrite (resolve_same_answers net1 net2 _ _ _ H1 H2).
  set (st := resolve net2 _ _ _).
  destruct (isSome (err st) || _).
  - cbn. repeat split. exists []. split; constructor.
  - destruct (existsb _ _).
    + cbn. repeat split.
      exists (List.map (fun ip => IPString (addrIP ip)) (ips st)).
      split; apply Forall2_annotated_refl.
    + unfold detectCDN. rewrite (detectCDNFrom_same_order _ _ _ H3).
      pose proof (reverse_entries_annotated net1 DefaultResolver
                    (requestContext t) (arrivals sched1)
                    (List.map (fun ip => IPString (addrIP ip)) (ips st))) as A1.
      pose proof (reverse_entries_annotated net2 DefaultResolver
                    (requestContext t) (arrivals sched2)
                    (List.map (fun ip => IPString (addrIP ip)) (ips st))) as A2.
      destruct (performReverseLookups net1 _ _ _ _) as [f1 c1].
      destruct (performReverseLookups net2 _ _ _ _) as [f2 c2].
      cbn [fst] in *. cbn. repeat split.
      exists (List.map (fun ip => IPString (addrIP ip)) (ips st)).
      split; assumption.
Qed.

Lemma reverse_lookups_do_not_change_the_verdict_witness :
  let r1 := fst (processDNSRequest (netAnswering [ipv4 23 32 0 1]) sampleSchedule
                   sampleRequest DNSTimeout false false false false) in
  let r2 := fst (processDNSRequest
                   (withoutReverseNames (netAnswering [ipv4 23 32 0 1]))
                   nothingArrives sampleRequest DNSTimeout false false false false) in
  resolvedIPs r1 = ["23.32.0.1[a23-32-0-1.deploy.static.akamaitechnologies.com]"]
  /\ resolvedIPs r2 = ["23.32.0.1"]
  /\ line r1 = line r2
  /\ status r1 = status r2
  /\ shouldPrint r1 = shouldPrint r2.
Proof.
  split; [reflexivity |]. split; [reflexivity |].
  pose proof (reverse_lookups_do_not_change_the_verdict
                (netAnswering [ipv4 23 32 0 1])
                (withoutReverseNames (netAnswering [ipv4 23 32 0 1]))
                sampleSchedule nothingArrives sampleRequest DNSTimeout
                false false false false
                (fun _ _ _ => eq_refl) (fun _ _ _ => eq_refl) (fun _ => eq_refl))
    as [Hl [Hs [Hp _]]].
  split; [exact Hl |]. split; [exact Hs | exact Hp].
Defined.

Lemma verbose_mismatch_is_no_other_status (vb : bool) (k : Z)
    (provider : string) :
  let s := verboseStatus vb k (mismatchStatus provider) in
  String.eqb s "MATCH" = false /\ String.eqb s "MALFORMED" = false
  /\ String.eqb s "DNS_FAILURE" = false.
Proof.
  unfold verboseStatus, mismatchStatus.
  destruct vb; [destruct (_ && _) |]; destruct (negb _); cbn; auto.
Qed.

Lemma resolve_by_fallback (net : Network) (ctx : Context) (dom : string)
    (strategies : list Resolver) (hosts : list string) :
  errorsCarryNoAddress net ->
  isSome (err (tryStrategies net ctx dom 0%Z strategies noAttempt)) = true ->
  LookupHost net DefaultResolver Background dom = (hosts, None) ->
  hosts <> [] ->
  let st := resolve net ctx dom strategies in
  ips st = hostsToIPAddrs hosts /\ err st = None
  /\ successfulStrategy st = Z.of_nat (length strategies).
Proof.
  intros Hconv Herr Hhost Hne. cbv zeta. unfold resolve, lookupHostFallback.
  rewrite Herr, Hhost.
  rewrite (tryStrategies_error_no_address net ctx dom strategies Hconv 0%Z
             noAttempt (fun _ => eq_refl) Herr).
  destruct hosts as [| h hosts]; [congruence |]. cbn. repeat split.
Qed.

Lemma hostsToIPAddrs_none (hosts : list string) :
  Forall (fun h => ParseIP h = None) hosts -> hostsToIPAddrs hosts = [].
Proof.
  induction 1 as [| h hosts Hh _ IH]; [reflexivity |].
  unfold hostsToIPAddrs in *. cbn. rewrite Hh, IH. reflexivity.
Qed.

Lemma hostsToIPAddrs_In (hosts : list string) (a : IPAddr) :
  In a (hostsToIPAddrs hosts)
  <-> exists h p, In h hosts /\ ParseIP h = Some p
                  /\ a = {| addrIP := p; Zone := "" |}.
Proof.
  unfold hostsToIPAddrs. rewrite in_flat_map. split.
  - intros [h [Hin Ha]]. destruct (ParseIP h) as [p |] eqn:E; [| destruct Ha].
    destruct Ha as [Ha | []]. exists h, p. auto.
  - intros [h [p [Hin [E Ha]]]]. exists h. split; [exact Hin |].
    rewrite E. left. auto.
Qed.

(** X7: the fallback keeps the host texts that parse.  When the chain ends
    with an error (and, as Go's lookups do, an error comes with no address)
    and the fallback host lookup returns texts without error, the resolved
    addresses are exactly the texts that [net.ParseIP] reads, the texts it
    does not read are dropped silently, the fallback is recorded as the
    strategy (position: the length of the chain), and if no text parses the
    request is a DNS_FAILURE although the fallback lookup succeeded. *)
Theorem fallback_keeps_the_hosts_that_parse (net : Network) (sched : Schedule)
    (request : DNSRequest) (t : Duration) (fg fc ns vb : bool)
    (hosts : list string) :
  errorsCarryNoAddress net ->
  isSome (err (tryStrategies net (requestContext t) (domain request) 0%Z
                 (buildStrategies t fg fc ns) noAttempt)) = true ->
  LookupHost net DefaultResolver Background (domain request) = (hosts, None) ->
  hosts <> [] ->
  let st := resolve net (requestContext t) (domain request)
              (buildStrategies t fg fc ns) in
  let result := fst (processDNSRequest net sched request t fg fc ns vb) in
  ips st = hostsToIPAddrs hosts
  /\ (forall a, In a (ips st)
                <-> exists h p, In h hosts /\ ParseIP h = Some p
                                /\ a = {| addrIP := p; Zone := "" |})
  /\ err st = None
  /\ successfulStrategy st = Z.of_nat (length (buildStrategies t fg fc ns))
  /\ (Forall (fun h => ParseIP h = None) hosts ->
      status result = "DNS_FAILURE" /\ resolvedIPs result = [])
  /\ ((exists h p, In h hosts /\ ParseIP h = Some p) ->
      String.eqb (status result) "DNS_FAILURE" = false).
Proof.
  intros Hconv Herr Hhost Hne. cbv zeta.
  destruct (resolve_by_fallback net (requestContext t) (domain request)
              (buildStrategies t fg fc ns) hosts Hconv Herr Hhost Hne)
    as [Hips [He Hk]].
  split; [exact Hips |]. split.
  { intros a. rewrite Hips. apply hostsToIPAddrs_In. }
  split; [exact He |]. split; [exact Hk |]. split.
  - intros Hnone.
    rewrite failed_resolution_is_DNS_FAILURE; [split; reflexivity |].
    rewrite Hips, (hostsToIPAddrs_none hosts Hnone). apply orb_true_r.
  - intros [h [p [Hin Hp]]].
    assert (Hin' : In {| addrIP := p; Zone := "" |} (hostsToIPAddrs hosts)).
    { apply hostsToIPAddrs_In. exists h, p. auto. }
    unfold processDNSRequest. rewrite Hips, He.
    destruct (hostsToIPAddrs hosts) as [| a0 l0] eqn:E0; [destruct Hin' |].
    cbn [isSome orb length Nat.eqb].
    destruct (existsb _ _); [reflexivity |].
    destruct (performReverseLookups _ _ _ _ _) as [formatted reverseCalls].
    cbn [fst status].
    apply verbose_mismatch_is_no_other_status.
Qed.

Lemma fallback_keeps_the_hosts_that_parse_witness :
  let net := netFallbackOnly ["93.184.216.34"; "localhost"] in
  let st := resolve net (requestContext DNSTimeout) (domain sampleRequest)
              (buildStrategies DNSTimeout false false false) in
  ips st = [ipv4 93 184 216 34] /\ err st = None /\ successfulStrategy st = 6%Z.
Proof.
  assert (Hconv : errorsCarryNoAddress
                    (netFallbackOnly ["93.184.216.34"; "localhost"])).
  { intros r c host answer e H. cbn in H. congruence. }
  assert (Hne : ["93.184.216.34"; "localhost"] <> @nil string) by discriminate.
  pose proof (fallback_keeps_the_hosts_that_parse
                (netFallbackOnly ["93.184.216.34"; "localhost"]) sampleSchedule
                sampleRequest DNSTimeout false false false false
                ["93.184.216.34"; "localhost"] Hconv eq_refl eq_refl Hne)
    as [H1 [_ [H2 [H3 _]]]].
  split; [exact H1 |]. split; [exact H2 | exact H3].
Defined.

Lemma first_answering (net : Network) (ctx : Context) (dom : string)
    (strategies : list Resolver) :
  (exists before s after,
     strategies = before ++ s :: after
     /\ forallb (answersNothing net ctx dom) before = true
     /\ answersNothing net ctx dom s = false)
  \/ forallb (answersNothing net ctx dom) strategies = true.
Proof.
  induction strategies as [| r rest IH]; [right; reflexivity |].
  destruct (answersNothing net ctx dom r) eqn:E.
  - destruct IH as [[before [s [after [H1 [H2 H3]]]]] | H].
    + left. exists (r :: before), s, after. rewrite H1. cbn. rewrite E, H2. auto.
    + right. cbn. rewrite E, H. reflexivity.
  - left. exists [], r, rest. auto.
Qed.

Lemma answersNothing_false (net : Network) (ctx : Context) (dom : string)
    (s : Resolver) :
  answersNothing net ctx dom s = false ->
  exists answer, LookupIPAddr net s ctx dom = (answer, None) /\ answer <> [].
Proof.
  unfold answersNothing. destruct (LookupIPAddr net s ctx dom) as [a e].
  intros H. apply negb_false_iff, andb_true_iff in H. destruct H as [H1 H2].
  destruct e; [discriminate |]. exists a. split; [reflexivity |].
  destruct a; [discriminate | discriminate].
Qed.

Lemma tryStrategies_none_answers (net : Network) (ctx : Context) (dom : string)
    (strategies : list Resolver) :
  forallb (answersNothing net ctx dom) strategies = true ->
  forall i st,
    (isSome (err st) = true \/ ips st = []) ->
    (isSome (err (tryStrategies net ctx dom i strategies st)) = true
     \/ ips (tryStrategies net ctx dom i strategies st) = [])
    /\ successfulStrategy (tryStrategies net ctx dom i strategies st)
       = successfulStrategy st.
Proof.
  induction strategies as [| r rest IH]; intros Hall i st Hst; [auto |].
  cbn [forallb] in Hall. apply andb_true_iff in Hall. destruct Hall as [Hr Hall].
  cbn [tryStrategies]. unfold answersNothing in Hr.
  destruct (LookupIPAddr net r ctx dom) as [ips' err'].
  apply negb_true_iff in Hr. rewrite Hr.
  specialize (IH Hall (i + 1)%Z
                {| ips := ips'; err := err';
                   successfulStrategy := successfulStrategy st;
                   calls := (calls st ++ [CallLookupIPAddr r ctx dom])
                            ++ [CallSleep (50 * Millisecond)%Z] |}).
  apply IH. cbn [err ips].
  destruct err'; [left; reflexivity |]. right.
  destruct ips'; [reflexivity | discriminate].
Qed.

(** How a resolution that ends with addresses got them: from a strategy of
    the chain, or from the fallback. *)
Lemma resolve_success (net : Network) (ctx : Context) (dom : string)
    (strategies : list Resolver) :
  errorsCarryNoAddress net ->
  let st := resolve net ctx dom strategies in
  err st = None -> ips st <> [] ->
  (exists before s after,
     strategies = before ++ s :: after
     /\ forallb (answersNothing net ctx dom) before = true
     /\ LookupIPAddr net s ctx dom = (ips st, None)
     /\ successfulStrategy st = Z.of_nat (length before))
  \/ (forallb (answersNothing net ctx dom) strategies = true
      /\ exists hosts,
           LookupHost net DefaultResolver Background dom = (hosts, None)
           /\ ips st = hostsToIPAddrs hosts
           /\ successfulStrategy st = Z.of_nat (length strategies)).
Proof.
  intros Hconv st He Hi.
  destruct (first_answering net ctx dom strategies)
    as [[before [s [after [H1 [H2 H3]]]]] | Hall].
  - left. exists before, s, after.
    destruct (answersNothing_false net ctx dom s H3) as [answer [Hs Hne]].
    subst st. unfold resolve in *. rewrite H1 in *.
    rewrite (tryStrategies_first_answer net ctx dom s after answer Hs Hne
               before 0%Z noAttempt H2) in *.
    unfold lookupHostFallback in *. cbn in *. auto.
  - right. split; [exact Hall |].
    destruct (tryStrategies_none_answers net ctx dom strategies Hall 0%Z
                noAttempt (or_intror eq_refl)) as [H0 Hk].
    pose proof (tryStrategies_error_no_address net ctx dom strategies Hconv
                  0%Z noAttempt (fun _ => eq_refl)) as Hempty.
    subst st. unfold resolve, lookupHostFallback in *.
    destruct (isSome (err (tryStrategies net ctx dom 0%Z strategies noAttempt)))
      eqn:E.
    + specialize (Hempty eq_refl).
      destruct (LookupHost net DefaultResolver Background dom) as [hosts e'].
      destruct (isNil e' && _) eqn:E'.
      * cbn [ips err successfulStrategy] in *. subst e'.
        exists hosts. rewrite Hempty. auto.
      * cbn [ips err] in *. congruence.
    + destruct H0 as [H0 | H0]; [discriminate | congruence].
Qed.

Lemma nth_error_mid {A} (l1 l2 : list A) (x : A) :
  nth_error (l1 ++ x :: l2) (length l1) = Some x.
Proof. induction l1 as [| y l1 IH]; [reflexivity | exact IH]. Qed.

(** X8: what the verbose suffix names.  For a mismatch in verbose mode (and
    with Go's convention that an error comes with no address) the status
    ends in _VIA_ and the upper case of [strategyNames[k]], where [k] is the
    position in the chain [processDNSRequest] built of the strategy that
    answered, or the length of that chain when the fallback answered.  The
    names are those of the default chain, so with [-force-google] or
    [-force-cloudflare] the forced resolver is reported as SYSTEM and the
    fallback as GO-BUILTIN, and with [-no-system-dns] the fallback is
    reported as QUAD9. *)
Theorem verbose_suffix_names_the_position_in_the_chain (net : Network)
    (sched : Schedule) (request : DNSRequest) (t : Duration)
    (fg fc ns : bool) :
  errorsCarryNoAddress net ->
  let ctx := requestContext t in
  let chain := buildStrategies t fg fc ns in
  let st := resolve net ctx (domain request) chain in
  let addrs := List.map (fun ip => IPString (addrIP ip)) (ips st) in
  err st = None -> ips st <> [] -> (In (expectedIP request) addrs -> False) ->
  let base := mismatchStatus (detectCDN (rangeOrder sched) addrs) in
  let result := fst (processDNSRequest net sched request t fg fc ns true) in
  exists k : nat,
    successfulStrategy st = Z.of_nat k
    /\ status result = base +:+ "_VIA_" +:+ ToUpper (nth k strategyNames "")
    /\ ((exists r, nth_error chain k = Some r
                   /\ LookupIPAddr net r ctx (domain request) = (ips st, None))
        \/ (k = length chain
            /\ exists hosts,
                 LookupHost net DefaultResolver Background (domain request)
                 = (hosts, None)
                 /\ ips st = hostsToIPAddrs hosts))
    /\ (fg = true \/ fc = true ->
        (k = 0%nat /\ status result = base +:+ "_VIA_SYSTEM")
        \/ (k = 1%nat /\ status result = base +:+ "_VIA_GO-BUILTIN"))
    /\ (fg = false -> fc = false -> ns = true -> k = length chain ->
        status result = base +:+ "_VIA_QUAD9").
Proof.
  intros Hconv ctx chain st addrs He Hi Hno base result.
  assert (Hstatus : status result
                    = verboseStatus true (successfulStrategy st) base).
  { subst result base addrs st chain ctx.
    rewrite (mismatch_result net sched request t fg fc ns true He Hi Hno).
    reflexivity. }
  pose proof (buildStrategies_length t fg fc ns) as Hlen.
  assert (Hk : exists k : nat,
             successfulStrategy st = Z.of_nat k /\ (k <= length chain)%nat
             /\ ((exists r, nth_error chain k = Some r
                            /\ LookupIPAddr net r ctx (domain request)
                               = (ips st, None))
                 \/ (k = length chain
                     /\ exists hosts,
                          LookupHost net DefaultResolver Background (domain request)
                          = (hosts, None)
                          /\ ips st = hostsToIPAddrs hosts))).
  { destruct (resolve_success net ctx (domain request) chain Hconv He Hi)
      as [[before [s [after [H1 [_ [H3 H4]]]]]] | [_ [hosts [H1 [H2 H3]]]]].
    - exists (length before). split; [exact H4 |]. split.
      + rewrite H1, length_app. cbn. lia.
      + left. exists s. split; [| exact H3]. rewrite H1. apply nth_error_mid.
    - exists (length chain). split; [exact H3 |]. split; [lia |].
      right. split; [reflexivity |]. exists hosts. auto. }
  destruct Hk as [k [Hk [Hle Hwho]]]. exists k.
  assert (Hs : status result
               = base +:+ "_VIA_" +:+ ToUpper (nth k strategyNames "")).
  { rewrite Hstatus, Hk. unfold verboseStatus.
    replace ((0 <=? Z.of_nat k)%Z) with true by (symmetry; apply Z.leb_le; lia).
    replace ((Z.of_nat k <? Z.of_nat (length strategyNames))%Z) with true.
    - rewrite Nat2Z.id. reflexivity.
    - symmetry. apply Z.ltb_lt. subst chain. cbn [strategyNames length]. lia. }
  split; [exact Hk |]. split; [exact Hs |]. split; [exact Hwho |]. split.
  - intros Hforced.
    assert (Hone : length chain = 1%nat).
    { subst chain. destruct fg, fc, ns; destruct Hforced; try discriminate;
        reflexivity. }
    rewrite Hs.
    destruct k as [| [| k]]; [left | right | lia]; split; reflexivity.
  - intros E1 E2 E3 E4. rewrite Hs, E4. subst chain fg fc ns. reflexivity.
Qed.

Lemma verbose_suffix_names_the_position_in_the_chain_witness :
  let net := netAnswering [ipv4 5 6 7 8] in
  let result := fst (processDNSRequest net sampleSchedule sampleRequest
                       DNSTimeout true false false true) in
  exists k : nat,
    successfulStrategy
      (resolve net (requestContext DNSTimeout) (domain sampleRequest)
         (buildStrategies DNSTimeout true false false)) = Z.of_nat k
    /\ status result
       = "IP_MISMATCH" +:+ "_VIA_" +:+ ToUpper (nth k strategyNames "")
    /\ ((k = 0%nat /\ status result = "IP_MISMATCH_VIA_SYSTEM")
        \/ (k = 1%nat /\ status result = "IP_MISMATCH_VIA_GO-BUILTIN")).
Proof.
  assert (Hconv : errorsCarryNoAddress (netAnswering [ipv4 5 6 7 8])).
  { intros r c host answer e H. cbn in H. congruence. }
  assert (Hi : [ipv4 5 6 7 8] <> []) by discriminate.
  assert (Hno : In "1.2.3.4" ["5.6.7.8"] -> False).
  { intros [H | []]. discriminate H. }
  destruct (verbose_suffix_names_the_position_in_the_chain
              (netAnswering [ipv4 5 6 7 8]) sampleSchedule sampleRequest
              DNSTimeout true false false Hconv eq_refl Hi Hno)
    as [k [Hk [Hs [_ [Hf _]]]]].
  exists k. split; [exact Hk |]. split; [exact Hs |].
  exact (Hf (or_introl eq_refl)).
Defined.

(* ===================================================================== *)
(** ** Further properties of [detectCDN]                                  *)
(* ===================================================================== *)

Lemma detectCDNFrom_in_table (order : nat -> list (string * list string))
    (ips : list string) :
  validOrder order ->
  forall k,
    detectCDNFrom order k ips = ""
    \/ exists cidrs, In (detectCDNFrom order k ips, cidrs) cdnProviders.
Proof.
  intros Hv. induction ips as [| ip rest IH]; intros k; [left; reflexivity |].
  cbn [detectCDNFrom]. destruct (ParseIP ip) as [p |]; [| apply IH].
  destruct (firstProvider p (order k)) as [name |] eqn:E; [| apply IH].
  right. destruct (firstProvider_Some p (order k) name E) as [cidrs [Hin _]].
  exists cidrs. apply (validOrder_In order k (name, cidrs) Hv). exact Hin.
Qed.

Lemma detectCDNFrom_app (order : nat -> list (string * list string))
    (ips more : list string) :
  forall k,
    detectCDNFrom order k ips <> "" ->
    detectCDNFrom order k (ips ++ more) = detectCDNFrom order k ips.
Proof.
  induction ips as [| ip rest IH]; intros k H; [cbn in H; congruence |].
  cbn [app detectCDNFrom] in *. destruct (ParseIP ip) as [p |]; [| apply IH, H].
  destruct (firstProvider p (order k)); [reflexivity | apply IH, H].
Qed.

(** X9: the verdict of [detectCDN].  For any order in which the provider
    table is visited: the answer is empty exactly when no address of the
    list lies in a prefix of the table (so IP_MISMATCH is reported only
    when no resolved address is in the table); a non-empty answer is the
    name of a provider of the table; and an answer found for a list is kept
    when more addresses follow. *)
Theorem detectCDN_is_empty_iff_no_address_is_in_the_table
    (order : nat -> list (string * list string)) (ips : list string) :
  validOrder order ->
  (detectCDN order ips = "" <-> (forall ip, In ip ips -> inAnyPrefix ip -> False))
  /\ (detectCDN order ips = ""
      \/ exists cidrs, In (detectCDN order ips, cidrs) cdnProviders)
  /\ (forall more,
        detectCDN order ips <> "" ->
        detectCDN order (ips ++ more) = detectCDN order ips).
Proof.
  intros Hv. unfold detectCDN. split; [| split].
  - split.
    + intros E ip Hin Hany.
      destruct (detectCDNFrom_some order ips Hv (ex_intro _ ip (conj Hin Hany)) 0%nat)
        as [ip' [_ [cidrs [cidr [Htab _]]]]].
      rewrite E in Htab. apply provider_names_nonempty in Htab. discriminate.
    + intros H. apply detectCDNFrom_none; assumption.
  - apply detectCDNFrom_in_table. exact Hv.
  - intros more. apply detectCDNFrom_app.
Qed.

Lemma detectCDN_is_empty_iff_no_address_is_in_the_table_witness :
  (detectCDN sourceOrder ["5.6.7.8"; "23.32.0.1"] = ""
   <-> (forall ip, In ip ["5.6.7.8"; "23.32.0.1"] -> inAnyPrefix ip -> False))
  /\ (detectCDN sourceOrder ["5.6.7.8"; "23.32.0.1"] = ""
      \/ exists cidrs,
           In (detectCDN sourceOrder ["5.6.7.8"; "23.32.0.1"], cidrs) cdnProviders)
  /\ detectCDN sourceOrder ["5.6.7.8"; "23.32.0.1"] = "akamai".
Proof.
  destruct (detectCDN_is_empty_iff_no_address_is_in_the_table sourceOrder
              ["5.6.7.8"; "23.32.0.1"] validOrder_sourceOrder) as [H1 [H2 _]].
  split; [exact H1 |]. split; [exact H2 | reflexivity].
Defined.

(* ===================================================================== *)
(** ** Further properties of [performReverseLookups]                      *)
(* ===================================================================== *)

Lemma formatIP_empty (ips : list string) : List.map (formatIP ∅) ips = ips.
Proof.
  induction ips as [| ip rest IH]; [reflexivity |].
  cbn [List.map]. rewrite IH. unfold formatIP. rewrite lookup_empty. reflexivity.
Qed.

(** The map of the collecting loop holds, for an address, the name of the
    result received last for it. *)
Lemma collect_last (net : Network) (resolver : Resolver) (ctx : Context)
    (ips : list string) (ip : string) (received : list nat) :
  fold_left
    (fun (m : gmap string string) i =>
       match imap (reverseLookup net resolver ctx) ips !! i with
       | Some result => <[rr_ip result := hostname result]> m
       | None => m
       end) received ∅ !! ip
  = match lastArrival ips received ip with
    | Some i => Some (hostname (reverseLookup net resolver ctx i ip))
    | None => None
    end.
Proof.
  induction received as [| j received IH] using rev_ind.
  - cbn. apply lookup_empty.
  - rewrite fold_left_app. cbn [fold_left].
    unfold lastArrival in *. rewrite rev_unit. cbn [List.find].
    rewrite list_lookup_imap.
    destruct (ips !! j) as [k |] eqn:Ej; cbn [fmap option_fmap option_map].
    + rewrite reverseLookup_ip.
      destruct (decide (k = ip)) as [-> | Hne].
      * rewrite lookup_insert_eq, bool_decide_true by reflexivity. reflexivity.
      * rewrite lookup_insert_ne by exact Hne.
        rewrite bool_decide_false by congruence. exact IH.
    + rewrite bool_decide_false by discriminate. exact IH.
Qed.

Lemma map_imap_ext {A B} (g : A -> B) (l : list A) :
  forall h : nat -> A -> B,
    (forall j x, l !! j = Some x -> g x = h j x) -> List.map g l = imap h l.
Proof.
  induction l as [| x l IH]; intros h H; [reflexivity |].
  rewrite imap_cons. cbn [List.map]. f_equal.
  - apply (H 0%nat x). reflexivity.
  - apply IH. intros j y Hj. apply (H (S j) y). exact Hj.
Qed.

(** X10: the entry of an address in the output of [performReverseLookups]
    is decided by the result the collecting loop received last for that
    address: the address with that result's name in brackets when the name
    is not empty, the bare address when it is empty or when no result for
    the address was received.  The goroutines of an address that occurs
    twice make a lookup each, which need not agree, so for such an address
    the entry may depend on the order of arrival.  When the addresses are
    distinct and every result arrives, each entry is fixed by the lookup of
    its own goroutine, whatever the order of arrival.  When no result
    arrives before the context is done, the output is the input. *)
Theorem the_last_result_received_decides_the_entry (net : Network)
    (resolver : Resolver) (ctx : Context) (order : list nat)
    (ips : list string) :
  let received := firstn (length ips) order in
  fst (performReverseLookups net resolver ctx order ips)
  = List.map (fun ip =>
                match lastArrival ips received ip with
                | Some i =>
                    entryFor ip (hostname (reverseLookup net resolver ctx i ip))
                | None => ip
                end) ips
  /\ (Permutation order (seq 0 (length ips)) -> NoDup ips ->
      fst (performReverseLookups net resolver ctx order ips)
      = imap (fun i ip =>
                entryFor ip (hostname (reverseLookup net resolver ctx i ip)))
          ips)
  /\ fst (performReverseLookups net resolver ctx [] ips) = ips.
Proof.
  intros received.
  assert (H1 : fst (performReverseLookups net resolver ctx order ips)
               = List.map (fun ip =>
                   match lastArrival ips received ip with
                   | Some i =>
                       entryFor ip (hostname (reverseLookup net resolver ctx i ip))
                   | None => ip
                   end) ips).
  { unfold performReverseLookups, collectResults. cbn [fst].
    apply map_ext. intros ip. unfold formatIP. fold received.
    rewrite collect_last. destruct (lastArrival ips received ip); reflexivity. }
  split; [exact H1 |]. split.
  - intros Hperm Hnodup. rewrite H1. apply map_imap_ext. intros j ip Hj.
    assert (Hlen : length order = length ips).
    { rewrite (Permutation_length Hperm). apply length_seq. }
    subst received. rewrite <- Hlen, firstn_all.
    assert (Hjo : In j (rev order)).
    { apply in_rev. rewrite rev_involutive.
      apply (Permutation_in j (Permutation_sym Hperm)). apply in_seq.
      apply lookup_lt_Some in Hj. lia. }
    unfold lastArrival.
    destruct (List.find _ (rev order)) as [i |] eqn:E.
    + apply find_some in E. destruct E as [_ E].
      apply bool_decide_eq_true in E.
      rewrite (NoDup_lookup ips i j ip Hnodup E Hj). reflexivity.
    + exfalso. pose proof (find_none _ _ E j Hjo) as Hf. cbn in Hf.
      apply bool_decide_eq_false in Hf. contradiction.
  - unfold performReverseLookups, collectResults. cbn [fst]. rewrite firstn_nil.
    apply formatIP_empty.
Qed.

(** Two goroutines for the same address, of which only the first finds a
    name: the entries follow the result received last. *)
Lemma the_last_result_received_decides_the_entry_witness :
  fst (performReverseLookups netFirstCallOnly DefaultResolver
         (requestContext DNSTimeout) [0; 1]%nat ["5.6.7.8"; "5.6.7.8"])
  = ["5.6.7.8"; "5.6.7.8"]
  /\ fst (performReverseLookups netFirstCallOnly DefaultResolver
            (requestContext DNSTimeout) [1; 0]%nat ["5.6.7.8"; "5.6.7.8"])
     = ["5.6.7.8[host.example]"; "5.6.7.8[host.example]"]
  /\ fst (performReverseLookups netFirstCallOnly DefaultResolver
            (requestContext DNSTimeout) [1; 0]%nat ["5.6.7.8"; "9.9.9.9"])
     = ["5.6.7.8[host.example]"; "9.9.9.9"].
Proof.
  destruct (the_last_result_received_decides_the_entry netFirstCallOnly
              DefaultResolver (requestContext DNSTimeout) [0; 1]%nat
              ["5.6.7.8"; "5.6.7.8"]) as [Ha _].
  destruct (the_last_result_received_decides_the_entry netFirstCallOnly
              DefaultResolver (requestContext DNSTimeout) [1; 0]%nat
              ["5.6.7.8"; "5.6.7.8"]) as [Hb _].
  destruct (the_last_result_received_decides_the_entry netFirstCallOnly
              DefaultResolver (requestContext DNSTimeout) [1; 0]%nat
              ["5.6.7.8"; "9.9.9.9"]) as [_ [Hc _]].
  split; [rewrite Ha; reflexivity |]. split; [rewrite Hb; reflexivity |].
  rewrite Hc; [reflexivity | |].
  - apply perm_swap.
  - constructor.
    + intros H. apply list_elem_of_In in H. destruct H as [H | []].
      discriminate H.
    + constructor; [intros H; apply list_elem_of_In in H; destruct H |].
      constructor.
Defined.

(* ===================================================================== *)
(** ** Further properties of the reader: the lines it accepts             *)
(* ===================================================================== *)

Lemma string_app_assoc (x y z : string) : (x +:+ y) +:+ z = x +:+ (y +:+ z).
Proof.
  induction x as [| c x IH]; [reflexivity |].
  change (String c ((x +:+ y) +:+ z) = String c (x +:+ (y +:+ z))).
  rewrite IH. reflexivity.
Qed.

Lemma append_String (c : ascii) (x y : string) :
  String c x +:+ y = String c (x +:+ y).
Proof. reflexivity. Qed.

Lemma append_empty (y : string) : "" +:+ y = y.
Proof. reflexivity. Qed.

Lemma span_run (p : ascii -> bool) (x rest : string) :
  allBytes p x = true -> stopsRun p rest = true ->
  span p (x +:+ rest) = (x, rest).
Proof.
  intros Hx Hr. induction x as [| c x IH].
  - rewrite append_empty. destruct rest as [| d rest]; [reflexivity |]. cbn in *.
    apply negb_true_iff in Hr. rewrite Hr. reflexivity.
  - cbn in Hx. apply andb_true_iff in Hx. destruct Hx as [Hc Hx].
    rewrite append_String. cbn [span]. rewrite Hc, (IH Hx). reflexivity.
Qed.

Lemma span_inv (p : ascii -> bool) (s x rest : string) :
  span p s = (x, rest) ->
  s = x +:+ rest /\ allBytes p x = true /\ stopsRun p rest = true.
Proof.
  revert x rest. induction s as [| c s IH]; intros x rest H; cbn in H.
  - injection H as <- <-. auto.
  - destruct (p c) eqn:E.
    + destruct (span p s) as [a b]. injection H as <- <-.
      destruct (IH a b eq_refl) as [H1 [H2 H3]].
      rewrite append_String. cbn. rewrite E, H2, <- H1. auto.
    + injection H as <- <-. rewrite append_empty. cbn. rewrite E. auto.
Qed.

Lemma many1_run (p : ascii -> bool) (x rest : string) :
  isRun p x = true -> stopsRun p rest = true ->
  many1 p (x +:+ rest) = Some (x, rest).
Proof.
  unfold isRun, many1. intros Hx Hr. apply andb_true_iff in Hx.
  destruct Hx as [Hne Hx]. rewrite (span_run p x rest Hx Hr).
  apply negb_true_iff in Hne. rewrite Hne. reflexivity.
Qed.

Lemma many1_inv (p : ascii -> bool) (s x rest : string) :
  many1 p s = Some (x, rest) ->
  s = x +:+ rest /\ isRun p x = true /\ stopsRun p rest = true.
Proof.
  unfold many1, isRun. destruct (span p s) as [a b] eqn:E.
  destruct (String.eqb a "") eqn:Ea; [discriminate |].
  intros H. injection H as <- <-.
  destruct (span_inv p s a b E) as [H1 [H2 H3]]. rewrite Ea, H2. auto.
Qed.

Lemma lit_inv (c : ascii) (s rest : string) :
  lit c s = Some rest -> s = String c rest.
Proof.
  destruct s as [| d s]; cbn; [discriminate |].
  destruct (Ascii.eqb c d) eqn:E; [| discriminate].
  apply Ascii.eqb_eq in E. congruence.
Qed.

Lemma isRun_first (p : ascii -> bool) (x : string) :
  isRun p x = true -> exists c x', x = String c x' /\ p c = true.
Proof.
  unfold isRun. destruct x as [| c x']; cbn; [discriminate |].
  intros H. apply andb_true_iff in H. destruct H as [H _]. eauto.
Qed.

Lemma space_is_no_digit (c : ascii) : isReSpace c = true -> isDigit c = false.
Proof.
  unfold isReSpace, isDigit. intros H.
  repeat (apply orb_true_iff in H; destruct H as [H | H]);
    apply N.eqb_eq in H; rewrite H; reflexivity.
Qed.

Lemma FindStringSubmatch_request (a b c d port ws dom rest : string) :
  isRun isDigit a = true -> isRun isDigit b = true ->
  isRun isDigit c = true -> isRun isDigit d = true ->
  isRun isDigit port = true -> isRun isReSpace ws = true ->
  isRun notCloseBracket dom = true ->
  FindStringSubmatch (requestText (dottedQuad a b c d) port ws dom rest)
  = [ dottedQuad a b c d +:+ ":" +:+ port +:+ ws +:+ "[" +:+ dom +:+ "]";
      dottedQuad a b c d; port; dom ].
Proof.
  intros Ha Hb Hc Hd Hport Hws Hdom.
  unfold FindStringSubmatch, requestText, dottedQuad.
  rewrite !string_app_assoc, ?append_String, ?append_empty.
  destruct (isRun_first _ _ Hws) as [w [ws' [Ews Hw]]].
  rewrite (many1_run isDigit a) by (assumption || reflexivity). cbn [mbind option_bind lit].
  rewrite Ascii.eqb_refl; cbn [mbind option_bind].
  rewrite (many1_run isDigit b) by (assumption || reflexivity). cbn [mbind option_bind lit].
  rewrite Ascii.eqb_refl; cbn [mbind option_bind].
  rewrite (many1_run isDigit c) by (assumption || reflexivity). cbn [mbind option_bind lit].
  rewrite Ascii.eqb_refl; cbn [mbind option_bind].
  rewrite (many1_run isDigit d) by (assumption || reflexivity). cbn [mbind option_bind lit].
  rewrite Ascii.eqb_refl; cbn [mbind option_bind].
  rewrite (many1_run isDigit port (ws +:+ _)) by
    (first [ exact Hport
           | rewrite Ews, append_String; cbn [stopsRun];
             rewrite (space_is_no_digit w Hw); reflexivity ]).
  cbn [mbind option_bind lit].
  rewrite (many1_run isReSpace ws) by (assumption || reflexivity). cbn [mbind option_bind lit].
  rewrite Ascii.eqb_refl; cbn [mbind option_bind].
  rewrite (many1_run notCloseBracket dom) by (assumption || reflexivity). cbn [mbind option_bind lit].
  rewrite Ascii.eqb_refl; cbn [mbind option_bind].
  rewrite !string_app_assoc, ?append_String, ?append_empty. reflexivity.
Qed.

Lemma FindStringSubmatch_inv (s : string) :
  length (FindStringSubmatch s) = 4%nat ->
  exists a b c d port ws dom rest,
    isRun isDigit a = true /\ isRun isDigit b = true
    /\ isRun isDigit c = true /\ isRun isDigit d = true
    /\ isRun isDigit port = true /\ isRun isReSpace ws = true
    /\ isRun notCloseBracket dom = true
    /\ s = requestText (dottedQuad a b c d) port ws dom rest.
Proof.
  unfold FindStringSubmatch.
  destruct (many1 isDigit s) as [[a s1] |] eqn:E1; cbn [mbind option_bind];
    [| discriminate].
  destruct (lit "." s1) as [s2 |] eqn:L1; cbn [mbind option_bind]; [| discriminate].
  destruct (many1 isDigit s2) as [[b s3] |] eqn:E2; cbn [mbind option_bind];
    [| discriminate].
  destruct (lit "." s3) as [s4 |] eqn:L2; cbn [mbind option_bind]; [| discriminate].
  destruct (many1 isDigit s4) as [[c s5] |] eqn:E3; cbn [mbind option_bind];
    [| discriminate].
  destruct (lit "." s5) as [s6 |] eqn:L3; cbn [mbind option_bind]; [| discriminate].
  destruct (many1 isDigit s6) as [[d s7] |] eqn:E4; cbn [mbind option_bind];
    [| discriminate].
  destruct (lit ":" s7) as [s8 |] eqn:L4; cbn [mbind option_bind]; [| discriminate].
  destruct (many1 isDigit s8) as [[port s9] |] eqn:E5; cbn [mbind option_bind];
    [| discriminate].
  destruct (many1 isReSpace s9) as [[ws s10] |] eqn:E6; cbn [mbind option_bind];
    [| discriminate].
  destruct (lit "[" s10) as [s11 |] eqn:L5; cbn [mbind option_bind]; [| discriminate].
  destruct (many1 notCloseBracket s11) as [[dom s12] |] eqn:E7;
    cbn [mbind option_bind]; [| discriminate].
  destruct (lit "]" s12) as [rest |] eqn:L6; cbn [mbind option_bind]; [| discriminate].
  intros _.
  apply many1_inv in E1, E2, E3, E4, E5, E6, E7.
  apply lit_inv in L1, L2, L3, L4, L5, L6.
  destruct E1 as [S1 [Ha _]], E2 as [S2 [Hb _]], E3 as [S3 [Hc _]],
    E4 as [S4 [Hd _]], E5 as [S5 [Hport _]], E6 as [S6 [Hws _]],
    E7 as [S7 [Hdom _]].
  exists a, b, c, d, port, ws, dom, rest.
  repeat (split; [assumption |]).
  unfold requestText, dottedQuad.
  rewrite !string_app_assoc, ?append_String, ?append_empty.
  subst. reflexivity.
Qed.

Lemma parseLine_request_inv (text : string) (q : DNSRequest) :
  parseLine text = RequestLine q ->
  exists a b c d port ws dom rest,
    isRun isDigit a = true /\ isRun isDigit b = true
    /\ isRun isDigit c = true /\ isRun isDigit d = true
    /\ isRun isDigit port = true /\ isRun isReSpace ws = true
    /\ isRun notCloseBracket dom = true
    /\ TrimSpace text = requestText (dottedQuad a b c d) port ws dom rest
    /\ q = {| req_line := TrimSpace text;
              expectedIP := dottedQuad a b c d;
              domain := dom |}.
Proof.
  intros H. unfold parseLine in H.
  destruct (String.eqb (TrimSpace text) ""); [discriminate |].
  destruct (length (FindStringSubmatch (TrimSpace text)) =? 4)%nat eqn:E;
    cbn [negb] in H; [| discriminate].
  apply Nat.eqb_eq in E.
  destruct (FindStringSubmatch_inv _ E)
    as [a [b [c [d [port [ws [dom [rest [Ha [Hb [Hc [Hd [Hp [Hw [Hdom Hs]]]]]]]]]]]]]]].
  exists a, b, c, d, port, ws, dom, rest.
  repeat (split; [assumption |]).
  pose proof (FindStringSubmatch_request a b c d port ws dom rest
                Ha Hb Hc Hd Hp Hw Hdom) as Hf.
  rewrite <- Hs in Hf. rewrite Hf in H. injection H as <-. reflexivity.
Qed.

(** X11: the lines the reader accepts.  A line of input becomes a request
    exactly when, once trimmed, it consists of four non-empty runs of
    digits separated by dots, a colon, a non-empty run of digits, a
    non-empty run of white space, and a non-empty text without closing
    bracket in brackets; anything may follow the closing bracket.  The
    request then carries the trimmed line, the dotted digits as expected IP
    and the bracketed text as domain.  The digits are not checked to be an
    IP address, and the port is not kept. *)
Theorem the_reader_accepts_exactly_the_request_lines (text : string)
    (q : DNSRequest) :
  parseLine text = RequestLine q
  <-> exists a b c d port ws dom rest,
        isRun isDigit a = true /\ isRun isDigit b = true
        /\ isRun isDigit c = true /\ isRun isDigit d = true
        /\ isRun isDigit port = true /\ isRun isReSpace ws = true
        /\ isRun notCloseBracket dom = true
        /\ TrimSpace text = requestText (dottedQuad a b c d) port ws dom rest
        /\ q = {| req_line := TrimSpace text;
                  expectedIP := dottedQuad a b c d;
                  domain := dom |}.
Proof.
  split; [apply parseLine_request_inv |].
  intros [a [b [c [d [port [ws [dom [rest [Ha [Hb [Hc [Hd [Hp [Hw [Hdom [Hs Hq]]]]]]]]]]]]]]]].
  pose proof (FindStringSubmatch_request a b c d port ws dom rest
                Ha Hb Hc Hd Hp Hw Hdom) as Hf.
  rewrite <- Hs in Hf. unfold parseLine. subst q. rewrite Hf.
  destruct (isRun_first _ _ Ha) as [x [a' [Ea _]]].
  replace (String.eqb (TrimSpace text) "") with false; [reflexivity |].
  rewrite Hs. unfold requestText, dottedQuad. rewrite Ea.
  rewrite !string_app_assoc, ?append_String. reflexivity.
Qed.

(* ===================================================================== *)
(** ** Further properties of the pipeline                                 *)
(* ===================================================================== *)

Lemma malformedOf_cons (text : string) (rest : list string) :
  malformedOf (text :: rest)
  = match parseLine text with
    | MalformedLine result => [result]
    | _ => []
    end ++ malformedOf rest.
Proof. reflexivity. Qed.

Lemma queuedMalformed_snoc (oc : list (option DNSRequest * DNSResult))
    (o : option DNSRequest) (result : DNSResult) :
  queuedMalformed (oc ++ [(o, result)])
  = queuedMalformed oc ++ match o with Some _ => [] | None => [result] end.
Proof.
  unfold queuedMalformed. rewrite flat_map_app. cbn. rewrite app_nil_r. reflexivity.
Qed.

Lemma queuedMalformed_cons (oc : list (option DNSRequest * DNSResult))
    (o : option DNSRequest) (result : DNSResult) :
  queuedMalformed ((o, result) :: oc)
  = match o with Some _ => [] | None => [result] end ++ queuedMalformed oc.
Proof. reflexivity. Qed.

Lemma emittedMalformed_snoc (outs : list Emission) (e : Emission) :
  emittedMalformed (outs ++ [e])
  = emittedMalformed outs
    ++ match origin e with Some _ => [] | None => [emitted e] end.
Proof.
  unfold emittedMalformed. rewrite flat_map_app. cbn. rewrite app_nil_r.
  reflexivity.
Qed.

Lemma start_malformedFlow (cfg : Config) (lines : list string) (s0 : State) :
  start cfg lines = Some s0 -> malformedFlow lines s0.
Proof.
  unfold start. destruct (forceGoogle cfg && forceCF cfg); [discriminate |].
  destruct (bufferSize cfg <? 0)%Z; [discriminate |].
  intros [= <-]. unfold malformedFlow. cbn. reflexivity.
Qed.

Lemma step_malformedFlow (cfg : Config) (net : Network) (lines : list string)
    (s s' : State) :
  (1 <= workers cfg)%Z -> controlled cfg s -> malformedFlow lines s ->
  step cfg net s s' -> malformedFlow lines s'.
Proof.
  intros HN Hc Hflow [Hrun Hs].
  pose proof (closed_after_everyone cfg s HN Hc) as Hclosed.
  unfold malformedFlow in *.
  destruct Hs as [H | [H | [H | H]]]; inversion H; subst;
    state_fields;
    try no_send_on_closed Hclosed;
    rewrite ?queuedMalformed_snoc, ?queuedMalformed_cons, ?emittedMalformed_snoc,
      ?malformedOf_cons in *;
    cbn [origin emitted fst snd] in *;
    try assumption;
    try match goal with Hp : parseLine _ = _ |- _ => rewrite Hp in Hflow end;
    try (destruct o);
    rewrite Hflow; cbn [app]; rewrite ?app_nil_r; solve_Permutation.
Qed.

Lemma run_malformedFlow (cfg : Config) (net : Network) (lines : list string)
    (n : nat) (s0 s : State) :
  (1 <= workers cfg)%Z -> controlled cfg s0 -> malformedFlow lines s0 ->
  run cfg net n s0 s -> malformedFlow lines s.
Proof.
  intros HN Hc0 Hf0. induction 1 as [s | n s s' s'' Hr IH Hs]; [exact Hf0 |].
  apply (step_malformedFlow cfg net lines s' s'' HN); [| exact (IH Hc0 Hf0) | exact Hs].
  exact (run_controlled cfg net n s s' HN Hc0 Hr).
Qed.

Lemma exited_drained (cfg : Config) (s : State) :
  (1 <= workers cfg)%Z -> controlled cfg s -> mainAt s = MainExited ->
  stdin s = [] /\ inputChan s = [] /\ outputChan s = []
  /\ Forall (fun w => w = WExited) (pool s).
Proof.
  intros HN Hc Hex.
  pose proof (ctl_sink cfg s Hc (ctl_exit cfg s Hc Hex)) as [Hoc Hocl].
  destruct (closed_after_everyone cfg s HN Hc Hocl) as [Hrd [Hic Hall]].
  pose proof (ctl_eof cfg s Hc Hrd) as Hin. auto.
Qed.

Lemma outcomes_split (outs : list Emission) :
  length outs = (length (served outs) + length (emittedMalformed outs))%nat.
Proof.
  induction outs as [| e outs IH]; [reflexivity |].
  unfold served, emittedMalformed in *. cbn [flat_map length].
  rewrite !length_app, IH. destruct (origin e); cbn; lia.
Qed.

Lemma printed_length (l : list DNSResult) :
  length (flat_map printResult l) = length (List.filter shouldPrint l).
Proof.
  induction l as [| r l IH]; [reflexivity |].
  cbn [flat_map List.filter]. rewrite length_app, IH. unfold printResult.
  destruct (shouldPrint r); [| reflexivity].
  destruct (0 <? length (resolvedIPs r))%nat; reflexivity.
Qed.

Lemma emittedMalformed_In (outs : list Emission) (r : DNSResult) :
  In r (emittedMalformed outs) -> In r (List.map emitted outs).
Proof.
  unfold emittedMalformed. rewrite in_flat_map. intros [e [He Hr]].
  apply in_map_iff. exists e. split; [| exact He].
  destruct (origin e); [destruct Hr |]. destruct Hr as [Hr | []]. exact Hr.
Qed.

(** A line that does not match is lost when there is no worker: [main]
    closes the result channel at once, and the send of the reader panics. *)
Lemma malformed_line_is_lost_without_workers :
  exists s0 s,
    start noWorkerConfig ["garbage text"] = Some s0
    /\ run noWorkerConfig netDown 2 s0 s
    /\ mainAt s = MainPanicked
    /\ outputChan s = [] /\ outcomes s = [] /\ stdout s = [].
Proof.
  eexists.
  exists (St [] false [] [] [] true false MainPanicked [] [] []).
  split; [reflexivity |]. split; [| repeat split; reflexivity].
  eapply run_cons.
  { split; [left; reflexivity |]. right. right. right.
    apply M_close. constructor. }
  eapply run_cons.
  { split; [right; reflexivity |]. left.
    apply (R_malformed_closed noWorkerConfig netDown _ _
             {| line := "garbage text"; shouldPrint := true;
                status := "MALFORMED"; resolvedIPs := [] |}).
    vm_compute. reflexivity. }
  apply run_nil.
Qed.

(** C5, as the code has it, with at least one worker.  A line that is
    empty once trimmed is skipped: the reader moves on and nothing else
    changes.  A line that is not empty once trimmed and does not match the
    pattern becomes a [MALFORMED] result with [shouldPrint] true, printed
    as the trimmed line followed by [MALFORMED].  In every state the
    program can reach with that line next in the input, the program can
    take a step that consumes the line, and every step of the reader leaves
    the request queue and the accepted requests as they were and either
    puts that result on the result queue or prints it directly.  When
    [main] has returned, the result of every such line of the input has
    left the program and its line is on standard output. *)
Theorem malformed_lines_go_straight_to_the_results (cfg : Config)
    (net : Network) (lines : list string) (s0 : State) (text : string)
    (rest : list string) :
  (1 <= workers cfg)%Z ->
  start cfg lines = Some s0 ->
  (TrimSpace text = "" ->
   parseLine text = SkipLine
   /\ forall ic pl oc ocl sd m so acc outs s',
        reader_step cfg net (St (text :: rest) false ic pl oc ocl sd m so acc outs) s' ->
        s' = St rest false ic pl oc ocl sd m so acc outs)
  /\ (TrimSpace text <> "" ->
      length (FindStringSubmatch (TrimSpace text)) <> 4%nat ->
      let result := {| line := TrimSpace text; shouldPrint := true;
                       status := "MALFORMED"; resolvedIPs := [] |} in
      parseLine text = MalformedLine result
      /\ printResult result = [TrimSpace text +:+ " MALFORMED"]
      /\ (forall n ic pl oc ocl sd m so acc outs,
            run cfg net n s0
              (St (text :: rest) false ic pl oc ocl sd m so acc outs) ->
            (exists s',
               step cfg net
                 (St (text :: rest) false ic pl oc ocl sd m so acc outs) s'
               /\ stdin s' = rest)
            /\ forall s',
                 reader_step cfg net
                   (St (text :: rest) false ic pl oc ocl sd m so acc outs) s' ->
                 stdin s' = rest /\ inputChan s' = ic /\ pool s' = pl
                 /\ accepted s' = acc /\ mainAt s' = m
                 /\ ((outputChan s' = oc ++ [(None, result)]
                      /\ stdout s' = so /\ outcomes s' = outs)
                     \/ (outputChan s' = oc
                         /\ stdout s' = so ++ printResult result
                         /\ outcomes s'
                            = outs ++ [{| origin := None; emitted := result;
                                          path := ByReader |}])))
      /\ (In text lines ->
          forall n s,
            run cfg net n s0 s -> mainAt s = MainExited ->
            In result (emittedMalformed (outcomes s))
            /\ In (TrimSpace text +:+ " MALFORMED") (stdout s))).
Proof.
  intros HN Hstart.
  pose proof (start_controlled cfg lines s0 Hstart) as Hc0.
  split.
  - intros Hb. split; [exact (parseLine_blank text Hb) |].
    exact (reader_skips_blank text rest Hb cfg net).
  - intros Hne Hlen result.
    pose proof (parseLine_malformed text Hne Hlen) as Hp. fold result in Hp.
    split; [exact Hp |]. split; [reflexivity |]. split.
    + intros n ic pl oc ocl sd m so acc outs Hrun.
      pose proof (run_controlled cfg net n s0 _ HN Hc0 Hrun) as Hc.
      assert (Hopen : ocl = false).
      { destruct ocl; [| reflexivity].
        destruct (closed_after_everyone cfg _ HN Hc eq_refl) as [Hrd _].
        discriminate Hrd. }
      subst ocl.
      assert (Hm : m = MainWaiting).
      { destruct (ctl_closed cfg _ Hc) as [_ Hcl]. cbn in Hcl.
        destruct m; try reflexivity; exfalso;
          assert (Hx : false = true) by (apply Hcl; discriminate);
          discriminate Hx. }
      subst m. split.
      * exists (St rest false ic pl oc false sd MainWaiting
                  (so ++ [line result +:+ " MALFORMED"]) acc
                  (outs ++ [{| origin := None; emitted := result;
                               path := ByReader |}])).
        split; [| reflexivity].
        split; [left; reflexivity |]. left.
        apply (R_malformed_print cfg net text rest result). exact Hp.
      * intros s' Hs.
        inversion Hs; subst; cbn;
          try (match goal with H : parseLine text = _ |- _ =>
                 rewrite Hp in H; try discriminate H; injection H as <- end);
          repeat (split; [reflexivity |]).
        -- left. repeat split; reflexivity.
        -- right. repeat split; reflexivity.
    + intros Hin n s Hrun Hex.
      pose proof (run_controlled cfg net n s0 s HN Hc0 Hrun) as Hc.
      pose proof (run_accounted cfg net lines n s0 s HN Hc0
                    (start_accounted cfg net lines s0 Hstart) Hrun) as Ha.
      pose proof (run_malformedFlow cfg net lines n s0 s HN Hc0
                    (start_malformedFlow cfg lines s0 Hstart) Hrun) as Hf.
      destruct (exited_drained cfg s HN Hc Hex) as [Hsi [Hic [Hoc Hall]]].
      unfold malformedFlow in Hf. rewrite Hoc, Hsi in Hf. cbn in Hf.
      rewrite app_nil_r in Hf.
      assert (Hr : In result (malformedOf lines)).
      { unfold malformedOf. apply in_flat_map. exists text.
        split; [exact Hin |]. rewrite Hp. left. reflexivity. }
      apply (Permutation_in result Hf) in Hr.
      split; [exact Hr |].
      rewrite (acc_stdout cfg net lines s Ha). apply in_flat_map.
      exists result. split; [apply emittedMalformed_In; exact Hr |].
      left. reflexivity.
Qed.

(** The line [garbage text], with one worker and buffers of one: the run
    through the result channel and [outputWorker]. *)
Lemma malformed_lines_go_straight_to_the_results_witness :
  parseLine "garbage text"
  = MalformedLine {| line := "garbage text"; shouldPrint := true;
                     status := "MALFORMED"; resolvedIPs := [] |}
  /\ printResult {| line := "garbage text"; shouldPrint := true;
                    status := "MALFORMED"; resolvedIPs := [] |}
     = ["garbage text MALFORMED"]
  /\ exists s0 s,
       start smallConfig ["garbage text"] = Some s0
       /\ run smallConfig netDown 7 s0 s
       /\ mainAt s = MainExited
       /\ In "garbage text MALFORMED" (stdout s).
Proof.
  pose (r := {| line := "garbage text"; shouldPrint := true;
                status := "MALFORMED"; resolvedIPs := [] |}).
  assert (HN : (1 <= workers smallConfig)%Z) by (cbn; lia).
  assert (Hne : TrimSpace "garbage text" <> "") by discriminate.
  assert (Hlen : length (FindStringSubmatch (TrimSpace "garbage text")) <> 4%nat)
    by (vm_compute; discriminate).
  destruct (malformed_lines_go_straight_to_the_results smallConfig netDown
              ["garbage text"] _ "garbage text" [] HN eq_refl) as [_ H].
  destruct (H Hne Hlen) as [Hp [Hq [_ Hend]]].
  split; [exact Hp |]. split; [exact Hq |].
  assert (Hrun : run smallConfig netDown 7
            (St ["garbage text"] false [] [WIdle] [] false false
               MainWaiting [] [] [])
            (St [] true [] [WExited] [] true true MainExited
               ["garbage text MALFORMED"] []
               [{| origin := None; emitted := r; path := ByOutputWorker |}])).
  { eapply run_cons.
    { split; [left; reflexivity |]. left.
      apply (R_malformed_send smallConfig netDown _ _ r);
        [vm_compute; reflexivity |].
      left. cbn. lia. }
    eapply run_cons.
    { split; [left; reflexivity |]. left. apply R_close. }
    eapply run_cons.
    { split; [left; reflexivity |]. right. right. left. apply S_receive. }
    eapply run_cons.
    { split; [left; reflexivity |]. right. left.
      apply (W_exit smallConfig netDown _ [] []). }
    eapply run_cons.
    { split; [left; reflexivity |]. right. right. right.
      apply M_close. constructor; [reflexivity | constructor]. }
    eapply run_cons.
    { split; [right; reflexivity |]. right. right. left. apply S_done. }
    eapply run_cons.
    { split; [right; reflexivity |]. right. right. right. apply M_exit. }
    apply run_nil. }
  eexists. eexists. split; [reflexivity |]. split; [exact Hrun |].
  split; [reflexivity |].
  destruct (Hend (or_introl eq_refl) 7%nat _ Hrun eq_refl) as [_ Hout].
  exact Hout.
Defined.

(** X12: no malformed line is lost or reported twice.  With at least one
    worker, when [main] has returned: the results of the malformed lines
    that have left the program are exactly the MALFORMED results of the
    input lines, one per line; the results that have left are as many as
    the input has request lines and malformed lines together (blank lines
    give none); standard output holds the line [<trimmed line> MALFORMED]
    for every non-blank line that does not match the pattern; and standard
    output has one line per result flagged for printing. *)
Theorem every_malformed_line_is_reported_once (cfg : Config) (net : Network)
    (lines : list string) (s0 : State) (n : nat) (s : State) :
  (1 <= workers cfg)%Z ->
  start cfg lines = Some s0 ->
  run cfg net n s0 s ->
  mainAt s = MainExited ->
  Permutation (emittedMalformed (outcomes s)) (malformedOf lines)
  /\ length (outcomes s)
     = (length (requestsOf lines) + length (malformedOf lines))%nat
  /\ (forall text,
        In text lines -> TrimSpace text <> "" ->
        length (FindStringSubmatch (TrimSpace text)) <> 4%nat ->
        In (TrimSpace text +:+ " MALFORMED") (stdout s))
  /\ length (stdout s)
     = length (List.filter shouldPrint (List.map emitted (outcomes s))).
Proof.
  intros HN Hstart Hrun Hex.
  pose proof (start_controlled cfg lines s0 Hstart) as Hc0.
  pose proof (run_controlled cfg net n s0 s HN Hc0 Hrun) as Hc.
  pose proof (run_accounted cfg net lines n s0 s HN Hc0
                (start_accounted cfg net lines s0 Hstart) Hrun) as Ha.
  pose proof (run_malformedFlow cfg net lines n s0 s HN Hc0
                (start_malformedFlow cfg lines s0 Hstart) Hrun) as Hf.
  destruct (exited_drained cfg s HN Hc Hex) as [Hin [Hic [Hoc Hall]]].
  destruct (exited_all_served cfg net lines s HN Hc Ha Hex) as [_ Hserved].
  unfold malformedFlow in Hf. rewrite Hoc, Hin in Hf. cbn in Hf.
  rewrite app_nil_r in Hf.
  assert (Hperm : Permutation (emittedMalformed (outcomes s)) (malformedOf lines))
    by (symmetry; exact Hf).
  split; [exact Hperm |]. split; [| split].
  - rewrite outcomes_split, (Permutation_length Hserved),
      (Permutation_length Hperm). reflexivity.
  - intros text Hin' Hne Hbad.
    pose proof (parseLine_malformed text Hne Hbad) as Hp.
    set (r := {| line := TrimSpace text; shouldPrint := true;
                 status := "MALFORMED"; resolvedIPs := [] |}) in *.
    assert (Hr : In r (malformedOf lines)).
    { unfold malformedOf. apply in_flat_map. exists text.
      split; [exact Hin' |]. rewrite Hp. left. reflexivity. }
    apply (Permutation_in r (Permutation_sym Hperm)) in Hr.
    apply emittedMalformed_In in Hr.
    rewrite (acc_stdout cfg net lines s Ha). apply in_flat_map.
    exists r. split; [exact Hr |]. left. reflexivity.
  - rewrite (acc_stdout cfg net lines s Ha). apply printed_length.
Qed.

(** One worker, buffers of one, a line that does not match and a blank
    line: the run through the result channel and [outputWorker]. *)
Lemma every_malformed_line_is_reported_once_witness :
  exists s0 s,
    start smallConfig ["garbage text"; "   "] = Some s0
    /\ run smallConfig netDown 8 s0 s
    /\ mainAt s = MainExited
    /\ stdout s = ["garbage text MALFORMED"]
    /\ Permutation (emittedMalformed (outcomes s))
         (malformedOf ["garbage text"; "   "])
    /\ length (outcomes s) = 1%nat.
Proof.
  pose (r := {| line := "garbage text"; shouldPrint := true;
                status := "MALFORMED"; resolvedIPs := [] |}).
  assert (Hrun : run smallConfig netDown 8
            (St ["garbage text"; "   "] false [] [WIdle] [] false false
               MainWaiting [] [] [])
            (St [] true [] [WExited] [] true true MainExited
               ["garbage text MALFORMED"] []
               [{| origin := None; emitted := r; path := ByOutputWorker |}])).
  { eapply run_cons.
    { split; [left; reflexivity |]. left.
      apply (R_malformed_send smallConfig netDown _ _ r);
        [vm_compute; reflexivity |].
      left. cbn. lia. }
    eapply run_cons.
    { split; [left; reflexivity |]. left. apply R_skip. vm_compute. reflexivity. }
    eapply run_cons.
    { split; [left; reflexivity |]. left. apply R_close. }
    eapply run_cons.
    { split; [left; reflexivity |]. right. left.
      apply (W_exit smallConfig netDown _ [] []). }
    eapply run_cons.
    { split; [left; reflexivity |]. right. right. left. apply S_receive. }
    eapply run_cons.
    { split; [left; reflexivity |]. right. right. right.
      apply M_close. constructor; [reflexivity | constructor]. }
    eapply run_cons.
    { split; [right; reflexivity |]. right. right. left. apply S_done. }
    eapply run_cons.
    { split; [right; reflexivity |]. right. right. right. apply M_exit. }
    apply run_nil. }
  eexists. eexists. split; [reflexivity |]. split; [exact Hrun |].
  split; [reflexivity |]. split; [reflexivity |].
  destruct (every_malformed_line_is_reported_once smallConfig netDown
              ["garbage text"; "   "] _ 8 _ ltac:(cbn; lia) eq_refl Hrun eq_refl)
    as [Hperm [Hlen _]].
  split; [exact Hperm | exact Hlen].
Defined.

(** X13: the program sends on the closed result channel, and panics, in some
    run exactly when it has no worker.  With at least one worker no run
    reaches a panic: [main] closes the result channel only after every
    worker has returned, a worker returns only after the reader has closed
    the request channel, and the reader closes it after its last send.
    With [-workers 0] (or less) [wg.Wait()] returns at once, [main] closes
    the result channel, and the reader's next send on it panics. *)
Theorem no_send_on_the_closed_channel_iff_there_is_a_worker (cfg : Config)
    (net : Network) :
  forceGoogle cfg && forceCF cfg = false ->
  (0 <= bufferSize cfg)%Z ->
  (forall lines s0 n s,
     start cfg lines = Some s0 -> run cfg net n s0 s ->
     mainAt s = MainWaiting \/ mainAt s = MainClosed \/ mainAt s = MainExited)
  <-> (1 <= workers cfg)%Z.
Proof.
  intros Hflags Hbuf. split.
  - intros Hsafe. destruct (Z_le_gt_dec 1 (workers cfg)) as [H | H]; [exact H |].
    exfalso.
    pose (r := {| line := "x"; shouldPrint := true;
                  status := "MALFORMED"; resolvedIPs := [] |}).
    assert (Hstart : start cfg ["x"]
                     = Some (St ["x"] false [] [] [] false false MainWaiting
                               [] [] [])).
    { unfold start. rewrite Hflags.
      replace (bufferSize cfg <? 0)%Z with false by (symmetry; apply Z.ltb_ge; lia).
      replace (Z.to_nat (workers cfg)) with 0%nat by lia. reflexivity. }
    assert (Hrun : run cfg net 2
              (St ["x"] false [] [] [] false false MainWaiting [] [] [])
              (St [] false [] [] [] true false MainPanicked [] [] [])).
    { eapply run_cons.
      { split; [left; reflexivity |]. right. right. right.
        apply M_close. constructor. }
      eapply run_cons.
      { split; [right; reflexivity |]. left.
        apply (R_malformed_closed cfg net _ _ r). vm_compute. reflexivity. }
      apply run_nil. }
    destruct (Hsafe _ _ _ _ Hstart Hrun) as [E | [E | E]]; discriminate E.
  - intros HN lines s0 n s Hstart Hrun.
    pose proof (run_controlled cfg net n s0 s HN
                  (start_controlled cfg lines s0 Hstart) Hrun) as Hc.
    pose proof (ctl_no_panic cfg s Hc) as Hnp.
    destruct (mainAt s); auto. congruence.
Qed.

Lemma no_send_on_the_closed_channel_iff_there_is_a_worker_witness :
  (forall lines s0 n s,
     start smallConfig lines = Some s0 -> run smallConfig netDown n s0 s ->
     mainAt s = MainWaiting \/ mainAt s = MainClosed \/ mainAt s = MainExited)
  <-> (1 <= workers smallConfig)%Z.
Proof.
  apply (no_send_on_the_closed_channel_iff_there_is_a_worker smallConfig netDown).
  - reflexivity.
  - cbn. lia.
Defined.

Lemma heldBy_length (pl : list Worker) : (length (heldBy pl) <= length pl)%nat.
Proof.
  induction pl as [| w pl IH]; [cbn; lia |].
  unfold heldBy in *. cbn [flat_map]. rewrite length_app.
  destruct w; cbn; lia.
Qed.

Lemma start_bounded (cfg : Config) (lines : list string) (s0 : State) :
  start cfg lines = Some s0 -> bounded cfg s0.
Proof.
  unfold start. destruct (forceGoogle cfg && forceCF cfg); [discriminate |].
  destruct (bufferSize cfg <? 0)%Z; [discriminate |].
  intros [= <-]. constructor; cbn; [lia | lia | apply repeat_length].
Qed.

Lemma step_bounded (cfg : Config) (net : Network) (s s' : State) :
  bounded cfg s -> step cfg net s s' -> bounded cfg s'.
Proof.
  intros [Hi Ho Hp] [_ Hs].
  destruct Hs as [H | [H | [H | H]]]; inversion H; subst;
    state_fields; constructor; state_fields;
    rewrite ?length_app in *; cbn [length] in *;
    try assumption; try lia.
  all: match goal with
       | Hcan : canSendInput _ _ |- _ =>
           destruct Hcan as [Hcan | [Hcan _]]; state_fields;
           [lia | subst; cbn; lia]
       | Hcan : canSendOutput _ _ |- _ =>
           destruct Hcan as [Hcan | [Hcan _]]; state_fields;
           [lia | subst; cbn; lia]
       end.
Qed.

Lemma run_bounded (cfg : Config) (net : Network) (n : nat) (s0 s : State) :
  bounded cfg s0 -> run cfg net n s0 s -> bounded cfg s.
Proof.
  intros H0. induction 1 as [s | n s s' s'' Hr IH Hs]; [exact H0 |].
  apply (step_bounded cfg net s' s'' (IH H0) Hs).
Qed.

(** X14: the queues and the pool stay within their sizes.  In every state of
    every run, with any number of workers: each of the two channels holds
    at most its capacity (with [-buffer 0] at most the one item being
    handed over), and the requests being processed by workers are at most
    as many as the configured workers. *)
Theorem queues_and_pool_stay_within_their_sizes (cfg : Config) (net : Network)
    (lines : list string) (s0 : State) (n : nat) (s : State) :
  start cfg lines = Some s0 ->
  run cfg net n s0 s ->
  (Z.of_nat (length (inputChan s)) <= Z.max 1 (bufferSize cfg))%Z
  /\ (Z.of_nat (length (outputChan s)) <= Z.max 1 (bufferSize cfg))%Z
  /\ ((1 <= bufferSize cfg)%Z ->
      (Z.of_nat (length (inputChan s)) <= bufferSize cfg)%Z
      /\ (Z.of_nat (length (outputChan s)) <= bufferSize cfg)%Z)
  /\ length (pool s) = Z.to_nat (workers cfg)
  /\ (length (heldBy (pool s)) <= Z.to_nat (workers cfg))%nat.
Proof.
  intros Hstart Hrun.
  destruct (run_bounded cfg net n s0 s (start_bounded cfg lines s0 Hstart) Hrun)
    as [Hi Ho Hp].
  split; [exact Hi |]. split; [exact Ho |]. split; [lia |].
  split; [exact Hp |]. rewrite <- Hp. apply heldBy_length.
Qed.

Lemma queues_and_pool_stay_within_their_sizes_witness :
  exists s0 s,
    start smallConfig ["1.2.3.4:443 [example.com]"] = Some s0
    /\ run smallConfig netDown 1 s0 s
    /\ inputChan s = [sampleRequest]
    /\ (Z.of_nat (length (inputChan s)) <= Z.max 1 (bufferSize smallConfig))%Z
    /\ (length (heldBy (pool s)) <= Z.to_nat (workers smallConfig))%nat.
Proof.
  assert (Hrun : run smallConfig netDown 1
            (St ["1.2.3.4:443 [example.com]"] false [] [WIdle] [] false false
               MainWaiting [] [] [])
            (St [] false [sampleRequest] [WIdle] [] false false MainWaiting []
               [sampleRequest] [])).
  { eapply run_cons.
    { split; [left; reflexivity |]. left.
      apply (R_enqueue smallConfig netDown _ _ sampleRequest);
        [vm_compute; reflexivity |].
      left. cbn. lia. }
    apply run_nil. }
  eexists. eexists. split; [reflexivity |]. split; [exact Hrun |].
  split; [reflexivity |].
  destruct (queues_and_pool_stay_within_their_sizes smallConfig netDown
              ["1.2.3.4:443 [example.com]"] _ 1 _ eq_refl Hrun)
    as [Hi [_ [_ [_ Hh]]]].
  split; [exact Hi | exact Hh].
Defined.

(* ===================================================================== *)
(** ** The expected address, by value                                     *)
(* ===================================================================== *)

Lemma append_nil_r (s : string) : s +:+ "" = s.
Proof.
  induction s as [| c s IH]; [reflexivity |].
  rewrite append_String, IH. reflexivity.
Qed.

Lemma decDigits_acc (fuel : nat) :
  forall n acc, decDigits fuel n acc = decDigits fuel n "" +:+ acc.
Proof.
  induction fuel as [| fuel IH]; intros n acc; [reflexivity |].
  cbn [decDigits]. destruct (n / 10 =? 0)%N; [reflexivity |].
  rewrite (IH _ (String _ acc)), (IH _ (String _ "")), string_app_assoc.
  reflexivity.
Qed.

Lemma div10_small (n p : N) :
  (n / 10 <> 0 -> n < 2 * p -> n / 10 < p /\ 2 <= p)%N.
Proof.
  intros H0 Hn.
  pose proof (N.Div0.div_mod n 10) as H1.
  assert (H2 : (n mod 10 < 10)%N) by (apply N.mod_lt; lia).
  generalize dependent (n / 10)%N. generalize dependent (n mod 10)%N.
  intros. lia.
Qed.

Lemma decDigits_fuel (f1 : nat) :
  forall f2 n acc,
    (1 <= f1)%nat -> (1 <= f2)%nat ->
    (n < 2 ^ N.of_nat f1)%N -> (n < 2 ^ N.of_nat f2)%N ->
    decDigits f1 n acc = decDigits f2 n acc.
Proof.
  induction f1 as [| f1 IH]; intros f2 n acc H1 H2 Hn1 Hn2; [lia |].
  destruct f2 as [| f2]; [lia |].
  cbn [decDigits]. destruct (n / 10 =? 0)%N eqn:E; [reflexivity |].
  apply N.eqb_neq in E.
  rewrite Nat2N.inj_succ, N.pow_succ_r' in Hn1, Hn2.
  destruct (div10_small n _ E Hn1) as [Ha Hb].
  destruct (div10_small n _ E Hn2) as [Hc Hd].
  apply IH; try assumption.
  - destruct f1; [cbn in Hb; lia | lia].
  - destruct f2; [cbn in Hd; lia | lia].
Qed.

Lemma itoa_fuel (f : nat) (n : N) :
  (1 <= f)%nat -> (n < 2 ^ N.of_nat f)%N -> decDigits f n "" = itoa n.
Proof.
  intros Hf Hn. unfold itoa. apply decDigits_fuel; try lia; try assumption.
  rewrite Nat2N.inj_succ, N2Nat.id.
  destruct (N.eq_dec n 0%N) as [-> | Hne]; [reflexivity |].
  apply N.log2_spec. lia.
Qed.

Lemma itoa_digit (d : N) :
  (d < 10)%N -> itoa d = String (ascii_of_N (48 + d)) "".
Proof.
  intros Hd. unfold itoa. cbn [decDigits].
  rewrite (N.mod_small d 10 Hd), (N.div_small d 10 Hd). reflexivity.
Qed.

Lemma itoa_snoc (v d : N) :
  (1 <= v)%N -> (d < 10)%N ->
  itoa (v * 10 + d) = itoa v +:+ String (ascii_of_N (48 + d)) "".
Proof.
  intros Hv Hd.
  assert (Hdiv : ((v * 10 + d) / 10 = v)%N).
  { symmetry. apply (N.div_unique _ 10 v d); lia. }
  assert (Hmod : ((v * 10 + d) mod 10 = d)%N).
  { symmetry. apply (N.mod_unique _ 10 v d); lia. }
  unfold itoa at 1. cbn [decDigits]. rewrite Hdiv, Hmod.
  replace (v =? 0)%N with false by (symmetry; apply N.eqb_neq; lia).
  rewrite decDigits_acc. f_equal.
  assert (Hspec : (2 ^ N.log2 (v * 10 + d) <= v * 10 + d
                   < 2 ^ N.succ (N.log2 (v * 10 + d)))%N)
    by (apply N.log2_spec; lia).
  rewrite N.pow_succ_r' in Hspec.
  assert (Hlog : (3 <= N.log2 (v * 10 + d))%N).
  { change 3%N with (N.log2 10). apply N.log2_le_mono. lia. }
  apply itoa_fuel; [lia |]. rewrite N2Nat.id. lia.
Qed.

Lemma digit_char (c : ascii) :
  isDigit c = true ->
  (digitVal c < 10)%N /\ ascii_of_N (48 + digitVal c) = c.
Proof.
  unfold isDigit, digitVal, byte_of. intros H.
  apply andb_true_iff in H. destruct H as [H1 H2].
  apply N.leb_le in H1, H2. split; [lia |].
  replace (48 + (N_of_ascii c - 48))%N with (N_of_ascii c) by lia.
  apply ascii_N_embedding.
Qed.

Lemma Join_cons (x : string) (rest : list string) (sep : string) :
  rest <> [] -> Join (x :: rest) sep = x +:+ sep +:+ Join rest sep.
Proof. destruct rest; [congruence | reflexivity]. Qed.

(** The text [parseIPv4Fields] has read of the current field. *)
Lemma parseIPv4Fields_print (s : string) :
  forall first prevDot val digLen fields out,
    parseIPv4Fields s first prevDot val digLen fields = Some out ->
    (digLen = 0%nat -> val = 0%N) ->
    ((2 <= digLen)%nat -> (1 <= val)%N) ->
    (first || prevDot = false -> 1 <= digLen)%nat ->
    (prevDot = true -> s <> "") ->
    (first = true -> fields = []) ->
    (length fields <= 3)%nat ->
    exists more,
      out = fields ++ more /\ more <> [] /\ length out = 4%nat
      /\ (if (digLen =? 0)%nat then "" else itoa val) +:+ s
         = Join (List.map itoa more) ".".
Proof.
  induction s as [| c s IH];
    intros first prevDot val digLen fields out H I1 I2 I3 I4 I5 I6.
  - cbn [parseIPv4Fields] in H.
    destruct (length fields <? 3)%nat eqn:E; [discriminate |].
    apply Nat.ltb_ge in E. injection H as <-.
    exists [val]. split; [reflexivity |]. split; [discriminate |].
    split; [rewrite length_app; cbn; lia |].
    assert (Hd : (1 <= digLen)%nat).
    { apply I3. destruct first; [rewrite (I5 eq_refl) in E; cbn in E; lia |].
      destruct prevDot; [exfalso; apply (I4 eq_refl); reflexivity | reflexivity]. }
    destruct digLen; [lia |]. cbn [Nat.eqb List.map Join]. apply append_nil_r.
  - cbn [parseIPv4Fields] in H. destruct (isDigit c) eqn:Ec.
    + destruct ((digLen =? 1)%nat && (val =? 0)%N) eqn:Ez; [discriminate |].
      destruct (255 <? val * 10 + digitVal c)%N; [discriminate |].
      destruct (digit_char c Ec) as [Hlt Hch].
      assert (Hcur : (if (digLen =? 0)%nat then "" else itoa val) +:+ String c s
                     = itoa (val * 10 + digitVal c) +:+ s).
      { destruct digLen as [| digLen].
        - rewrite (I1 eq_refl). cbn [Nat.eqb].
          replace (0 * 10 + digitVal c)%N with (digitVal c) by lia.
          rewrite (itoa_digit _ Hlt), Hch. reflexivity.
        - cbn [Nat.eqb]. rewrite itoa_snoc, Hch, string_app_assoc;
            [reflexivity | | exact Hlt].
          destruct digLen as [| digLen]; [| apply I2; lia].
          cbn in Ez. apply N.eqb_neq in Ez. lia. }
      destruct (IH false false _ _ fields out H) as [more [H1 [H2 [H3 H4]]]];
        try discriminate; try assumption; try lia.
      { intros Hd. destruct digLen as [| [| digLen]]; [lia | | ].
        - cbn in Ez. apply N.eqb_neq in Ez. lia.
        - assert (1 <= val)%N by (apply I2; lia). lia. }
      exists more. split; [exact H1 |]. split; [exact H2 |]. split; [exact H3 |].
      rewrite Hcur. cbn [Nat.eqb] in H4. exact H4.
    + destruct (Ascii.eqb c ".") eqn:Edot; [| discriminate].
      apply Ascii.eqb_eq in Edot. subst c.
      destruct (first || String.eqb s "" || prevDot) eqn:Ef; [discriminate |].
      destruct (length fields =? 3)%nat eqn:E3; [discriminate |].
      apply Nat.eqb_neq in E3.
      apply orb_false_iff in Ef. destruct Ef as [Ef Ep].
      apply orb_false_iff in Ef. destruct Ef as [Ef Es].
      apply String.eqb_neq in Es.
      destruct (IH false true 0%N 0%nat (fields ++ [val]) out H)
        as [more [H1 [H2 [H3 H4]]]];
        try discriminate; try reflexivity; try lia; try (intros _; assumption).
      { rewrite length_app. cbn. lia. }
      exists (val :: more). split; [rewrite H1, <- app_assoc; reflexivity |].
      split; [discriminate |]. split; [exact H3 |].
      assert (Hd : (1 <= digLen)%nat).
      { apply I3. rewrite Ef, Ep. reflexivity. }
      destruct digLen; [lia |]. cbn [Nat.eqb List.map].
      rewrite Join_cons by (destruct more; [congruence | discriminate]).
      cbn [Nat.eqb] in H4. rewrite append_empty in H4. rewrite <- H4.
      reflexivity.
Qed.

(** Printing undoes parsing: a text [netip.ParseAddr] reads as an IPv4
    address is the dotted decimal form of its four bytes. *)
Lemma parseIPv4_print (s : string) (quad : list N) :
  parseIPv4 s = Some (Addr4 quad) ->
  length quad = 4%nat /\ Join (List.map itoa quad) "." = s.
Proof.
  unfold parseIPv4.
  destruct (parseIPv4Fields s true false 0%N 0%nat []) as [fields |] eqn:E;
    [| discriminate].
  intros [= <-].
  destruct (parseIPv4Fields_print s true false 0%N 0%nat [] fields E
              (fun _ => eq_refl) ltac:(lia) ltac:(discriminate)
              ltac:(discriminate) (fun _ => eq_refl) ltac:(cbn; lia))
    as [more [H1 [_ [H3 H4]]]].
  cbn in H1. subst more. split; [exact H3 |]. symmetry. exact H4.
Qed.

Lemma isRun_allBytes (p : ascii -> bool) (x : string) :
  isRun p x = true -> allBytes p x = true.
Proof. unfold isRun. intros H. apply andb_true_iff in H. tauto. Qed.

Lemma containsByte_app (c : ascii) (x y : string) :
  containsByte c (x +:+ y) = containsByte c x || containsByte c y.
Proof.
  induction x as [| d x IH]; [reflexivity |].
  rewrite append_String. cbn [containsByte]. rewrite IH, orb_assoc. reflexivity.
Qed.

Lemma digits_without (c : ascii) (x : string) :
  isDigit c = false -> allBytes isDigit x = true -> containsByte c x = false.
Proof.
  intros Hc. induction x as [| d x IH]; [reflexivity |]. cbn. intros H.
  apply andb_true_iff in H. destruct H as [Hd Hx]. rewrite (IH Hx), orb_false_r.
  destruct (Ascii.eqb c d) eqn:E; [| reflexivity].
  apply Ascii.eqb_eq in E. congruence.
Qed.

Lemma dottedQuad_without (x : ascii) (a b c d : string) :
  isDigit x = false -> Ascii.eqb x "." = false ->
  isRun isDigit a = true -> isRun isDigit b = true ->
  isRun isDigit c = true -> isRun isDigit d = true ->
  containsByte x (dottedQuad a b c d) = false.
Proof.
  intros Hx Hdot Ha Hb Hc Hd. unfold dottedQuad.
  rewrite !containsByte_app.
  rewrite (digits_without x a), (digits_without x b), (digits_without x c),
    (digits_without x d)
    by (try assumption; apply isRun_allBytes; assumption).
  cbn. rewrite Hdot. reflexivity.
Qed.

Lemma addrKind_digits (x rest : string) :
  allBytes isDigit x = true -> addrKind (x +:+ rest) = addrKind rest.
Proof.
  induction x as [| c x IH]; [reflexivity |]. cbn [allBytes]. intros H.
  apply andb_true_iff in H. destruct H as [Hc Hx].
  rewrite append_String. cbn [addrKind]. rewrite (IH Hx).
  destruct (Ascii.eqb c "." || Ascii.eqb c ":" || Ascii.eqb c "%") eqn:E;
    [| reflexivity].
  repeat (apply orb_true_iff in E; destruct E as [E | E]);
    apply Ascii.eqb_eq in E; subst c; discriminate Hc.
Qed.

(** For the dotted digits the reader takes from a line, [net.ParseIP] is
    the IPv4 parser. *)
Lemma ParseIP_dottedQuad (a b c d : string) (p : IP) :
  isRun isDigit a = true -> isRun isDigit b = true ->
  isRun isDigit c = true -> isRun isDigit d = true ->
  ParseIP (dottedQuad a b c d) = Some p ->
  exists quad,
    parseIPv4 (dottedQuad a b c d) = Some (Addr4 quad)
    /\ p = v4InV6Prefix ++ quad.
Proof.
  intros Ha Hb Hc Hd. unfold ParseIP, ParseAddr.
  rewrite (dottedQuad_without "%" a b c d) by (assumption || reflexivity).
  assert (Hk : addrKind (dottedQuad a b c d) = Some "."%char).
  { unfold dottedQuad. rewrite addrKind_digits by (apply isRun_allBytes; exact Ha).
    reflexivity. }
  rewrite Hk. unfold parseIPv4.
  destruct (parseIPv4Fields _ _ _ _ _ _) as [quad |]; [| discriminate].
  intros [= <-]. exists quad. split; reflexivity.
Qed.

Lemma To4_mapped (quad : list N) :
  length quad = 4%nat -> To4 (v4InV6Prefix ++ quad) = Some quad.
Proof.
  destruct quad as [| x0 [| x1 [| x2 [| x3 [| x4 quad]]]]]; try discriminate.
  reflexivity.
Qed.

Lemma To4_length (ip p4 : IP) : To4 ip = Some p4 -> length p4 = 4%nat.
Proof.
  unfold To4. destruct (length ip =? IPv4len)%nat eqn:E4.
  - intros [= <-]. apply Nat.eqb_eq in E4. exact E4.
  - destruct (_ && _ && _ && _) eqn:E; [| discriminate]. intros [= <-].
    repeat (apply andb_true_iff in E; destruct E as [E ?]).
    apply Nat.eqb_eq in E. rewrite length_firstn, length_skipn, E. reflexivity.
Qed.

Lemma IPString_cases (ip : IP) :
  IPString ip = "<nil>"
  \/ (exists h, IPString ip = "?" +:+ h)
  \/ (exists p4, To4 ip = Some p4 /\ length p4 = 4%nat
                 /\ IPString ip = Join (List.map itoa p4) ".")
  \/ (To4 ip = None /\ IPString ip = string6 ip).
Proof.
  unfold IPString. destruct (length ip =? 0)%nat; [left; reflexivity |].
  destruct (negb _ && negb _); [right; left; eexists; reflexivity |].
  destruct (To4 ip) as [p4 |] eqn:E.
  - right. right. left. exists p4. split; [reflexivity |].
    split; [exact (To4_length ip p4 E) | reflexivity].
  - right. right. right. split; reflexivity.
Qed.

Lemma IPString_of_IPv4 (ip quad : IP) :
  To4 ip = Some quad -> IPString ip = Join (List.map itoa quad) ".".
Proof.
  intros H. pose proof (To4_length ip quad H) as Hlen.
  unfold IPString. rewrite H. unfold To4 in H.
  destruct (length ip =? IPv4len)%nat eqn:E4.
  - apply Nat.eqb_eq in E4. rewrite E4. reflexivity.
  - destruct (_ && _ && _ && _) eqn:E; [| discriminate].
    repeat (apply andb_true_iff in E; destruct E as [E ?]).
    apply Nat.eqb_eq in E. rewrite E. reflexivity.
Qed.

(** *** The colon form always has a colon *)

Lemma appendTo6_keeps (c : ascii) (fs : list N) (zs ze : nat) (fuel : nat) :
  forall i ret,
    containsByte c ret = true ->
    containsByte c (appendTo6 fuel i fs zs ze ret) = true.
Proof.
  induction fuel as [| fuel IH]; intros i ret H; [exact H |].
  cbn [appendTo6]. destruct (8 <=? i)%nat; [exact H |].
  destruct (i =? zs)%nat.
  - destruct (8 <=? ze)%nat.
    + rewrite containsByte_app, H. reflexivity.
    + apply IH. rewrite !containsByte_app, H. reflexivity.
  - apply IH. destruct (0 <? i)%nat; rewrite !containsByte_app, H; reflexivity.
Qed.

Lemma appendTo6_unfold (fuel i : nat) (fs : list N) (zs ze : nat) (ret : string) :
  appendTo6 (S fuel) i fs zs ze ret
  = if (8 <=? i)%nat then ret
    else if (i =? zs)%nat then
      if (8 <=? ze)%nat then ret +:+ "::"
      else appendTo6 fuel (S ze) fs zs ze ((ret +:+ "::") +:+ hex (nth ze fs 0%N))
    else
      appendTo6 fuel (S i) fs zs ze
        ((if (0 <? i)%nat then ret +:+ ":" else ret) +:+ hex (nth i fs 0%N)).
Proof. reflexivity. Qed.

Lemma appendTo6_colon (fuel i : nat) (fs : list N) (zs ze : nat) (ret : string) :
  (1 <= i < 8)%nat ->
  containsByte ":" (appendTo6 (S fuel) i fs zs ze ret) = true.
Proof.
  intros Hi. rewrite appendTo6_unfold.
  replace (8 <=? i)%nat with false by (symmetry; apply Nat.leb_gt; lia).
  replace (0 <? i)%nat with true by (symmetry; apply Nat.ltb_lt; lia).
  destruct (i =? zs)%nat.
  - destruct (8 <=? ze)%nat.
    + rewrite containsByte_app, orb_true_r. reflexivity.
    + apply appendTo6_keeps. rewrite !containsByte_app.
      cbn. rewrite orb_true_r. reflexivity.
  - apply appendTo6_keeps. rewrite !containsByte_app.
    cbn. rewrite orb_true_r. reflexivity.
Qed.

Lemma string6_has_colon (ip : IP) : containsByte ":" (string6 ip) = true.
Proof.
  unfold string6. destruct (longestZeroRun 0 (v6fields ip) (255, 255)%nat) as [zs ze].
  rewrite appendTo6_unfold.
  change (8 <=? 0)%nat with false. change (0 <? 0)%nat with false. cbv iota.
  destruct (0 =? zs)%nat.
  - destruct (8 <=? ze)%nat; [reflexivity |].
    apply appendTo6_keeps. rewrite containsByte_app. reflexivity.
  - apply appendTo6_colon. lia.
Qed.

(** *** Decimal texts determine their numbers *)

Lemma decValue_snoc (s : string) (c : ascii) :
  forall acc,
    decValue (s +:+ String c "") acc = (decValue s acc * 10 + digitVal c)%N.
Proof.
  induction s as [| d s IH]; intros acc; [reflexivity |].
  rewrite append_String. cbn [decValue]. apply IH.
Qed.

Lemma digit_of_N (d : N) :
  (d < 10)%N ->
  digitVal (ascii_of_N (48 + d)) = d /\ isDigit (ascii_of_N (48 + d)) = true.
Proof.
  intros Hd. unfold digitVal, isDigit, byte_of.
  rewrite N_ascii_embedding by lia. split; [lia |].
  apply andb_true_iff. split; apply N.leb_le; lia.
Qed.

Lemma itoa_step (n : N) :
  (10 <= n)%N ->
  itoa n = itoa (n / 10) +:+ String (ascii_of_N (48 + n mod 10)) "".
Proof.
  intros Hn.
  pose proof (N.Div0.div_mod n 10) as H1.
  assert (H2 : (n mod 10 < 10)%N) by (apply N.mod_lt; lia).
  rewrite H1 at 1. rewrite N.mul_comm. apply itoa_snoc; [| exact H2].
  generalize dependent (n / 10)%N. generalize dependent (n mod 10)%N.
  intros. lia.
Qed.

Lemma itoa_value (n : N) :
  decValue (itoa n) 0 = n /\ isRun isDigit (itoa n) = true.
Proof.
  induction n as [n IH] using (well_founded_induction N.lt_wf_0).
  destruct (N.lt_ge_cases n 10) as [Hs | Hb].
  - rewrite (itoa_digit n Hs). destruct (digit_of_N n Hs) as [Hv Hd].
    cbn [decValue]. unfold isRun. cbn. rewrite Hv, Hd. split; [lia | reflexivity].
  - rewrite (itoa_step n Hb).
    pose proof (N.Div0.div_mod n 10) as H1.
    assert (H2 : (n mod 10 < 10)%N) by (apply N.mod_lt; lia).
    assert (H3 : (n / 10 < n)%N).
    { generalize dependent (n / 10)%N. generalize dependent (n mod 10)%N.
      intros. lia. }
    destruct (IH _ H3) as [Hv Hr]. destruct (digit_of_N _ H2) as [Hdv Hdd].
    rewrite decValue_snoc, Hv, Hdv. split; [lia |].
    unfold isRun in *. apply andb_true_iff in Hr. destruct Hr as [Hne Hall].
    apply andb_true_iff. split.
    + destruct (itoa (n / 10)); [discriminate | reflexivity].
    + clear - Hall Hdd. induction (itoa (n / 10)) as [| c s IHs].
      * rewrite append_empty. cbn. rewrite Hdd. reflexivity.
      * rewrite append_String. cbn in *. apply andb_true_iff in Hall.
        destruct Hall as [Hc Hs]. rewrite Hc, (IHs Hs). reflexivity.
Qed.

Lemma itoa_inj (x y : N) : itoa x = itoa y -> x = y.
Proof.
  intros H. destruct (itoa_value x) as [Hx _], (itoa_value y) as [Hy _].
  congruence.
Qed.

Lemma Join_itoa_inj (l1 : list N) :
  forall l2,
    length l1 = length l2 ->
    Join (List.map itoa l1) "." = Join (List.map itoa l2) "." -> l1 = l2.
Proof.
  induction l1 as [| x l1 IH]; intros [| y l2] Hlen H; try discriminate;
    [reflexivity |].
  destruct l1 as [| x' l1], l2 as [| y' l2]; cbn [length] in Hlen; try lia.
  - cbn in H. apply itoa_inj in H. subst y. reflexivity.
  - cbn [List.map] in H.
    rewrite !Join_cons in H by discriminate.
    rewrite !append_String, !append_empty in H.
    assert (Hs : span isDigit (itoa x +:+ String "." (Join (itoa x' :: List.map itoa l1) "."))
                 = span isDigit (itoa y +:+ String "." (Join (itoa y' :: List.map itoa l2) ".")))
      by (rewrite H; reflexivity).
    rewrite !span_run in Hs
      by (first [ apply isRun_allBytes, itoa_value | reflexivity ]).
    injection Hs as Hx Hr. apply itoa_inj in Hx. subst y. f_equal.
    apply IH; [cbn in *; lia |]. exact Hr.
Qed.

Lemma processDNSRequest_cases (net : Network) (sched : Schedule)
    (request : DNSRequest) (t : Duration) (fg fc ns vb : bool) :
  let st := resolve net (requestContext t) (domain request)
              (buildStrategies t fg fc ns) in
  let addrs := List.map (fun ip => IPString (addrIP ip)) (ips st) in
  let result := fst (processDNSRequest net sched request t fg fc ns vb) in
  (isSome (err st) || (length (ips st) =? 0)%nat = true
   /\ status result = "DNS_FAILURE" /\ shouldPrint result = true)
  \/ (isSome (err st) || (length (ips st) =? 0)%nat = false
      /\ In (expectedIP request) addrs
      /\ status result = "MATCH" /\ shouldPrint result = false)
  \/ (isSome (err st) || (length (ips st) =? 0)%nat = false
      /\ (In (expectedIP request) addrs -> False)
      /\ String.eqb (status result) "MATCH" = false
      /\ shouldPrint result = true).
Proof.
  cbv zeta. unfold processDNSRequest.
  destruct (isSome _ || _); [left; auto |]. right.
  destruct (existsb _ _) eqn:E.
  - left. split; [reflexivity |]. split; [| auto].
    apply existsb_exists in E. destruct E as [x [Hin Hx]].
    apply String.eqb_eq in Hx. subst x. exact Hin.
  - right. destruct (performReverseLookups _ _ _ _ _) as [formatted reverseCalls].
    cbn [fst status shouldPrint]. split; [reflexivity |]. split; [| split].
    + intros Hin. apply existsb_eqb_In in Hin. congruence.
    + apply verbose_mismatch_is_no_other_status.
    + reflexivity.
Qed.

(** X15: MATCH means that the expected address was resolved.  For a request
    the reader built from a line, whose expected IP [net.ParseIP] reads as
    the address [p], and whose resolution ends without error: the expected
    IP is the canonical text of [p]; the status is MATCH, and the line is
    not printed, exactly when one of the resolved addresses is the IPv4
    address [p], whether Go holds it in 4 or in 16 bytes.  So the comparison
    of texts in [processDNSRequest] is a comparison of addresses. *)
Theorem MATCH_iff_the_expected_address_is_resolved (net : Network)
    (sched : Schedule) (text : string) (request : DNSRequest) (p : IP)
    (t : Duration) (fg fc ns vb : bool) :
  parseLine text = RequestLine request ->
  ParseIP (expectedIP request) = Some p ->
  let st := resolve net (requestContext t) (domain request)
              (buildStrategies t fg fc ns) in
  err st = None ->
  let result := fst (processDNSRequest net sched request t fg fc ns vb) in
  IPString p = expectedIP request
  /\ (status result = "MATCH"
      <-> exists a, In a (ips st) /\ To4 (addrIP a) = To4 p)
  /\ (shouldPrint result = false
      <-> exists a, In a (ips st) /\ To4 (addrIP a) = To4 p).
Proof.
  intros Hline Hp st He result. subst result.
  destruct (parseLine_request_inv text request Hline)
    as [a [b [c [d [port [ws [dom [rest [Ha [Hb [Hc [Hd [_ [_ [_ [_ Hq]]]]]]]]]]]]]]]].
  assert (Hexp : expectedIP request = dottedQuad a b c d) by (rewrite Hq; reflexivity).
  rewrite Hexp in Hp.
  destruct (ParseIP_dottedQuad a b c d p Ha Hb Hc Hd Hp) as [quad [Hquad Hp16]].
  destruct (parseIPv4_print _ quad Hquad) as [Hlen Hjoin].
  assert (Hto4 : To4 p = Some quad) by (rewrite Hp16; apply To4_mapped, Hlen).
  assert (Htext : forall ip, IPString ip = expectedIP request <-> To4 ip = To4 p).
  { intros ip. rewrite Hto4, Hexp. split.
    - intros Hs.
      destruct (isRun_first _ _ Ha) as [x [a' [Ea Hx]]].
      destruct (IPString_cases ip)
        as [E | [[h E] | [[p4 [E4 [Hl4 E]]] | [_ E]]]]; rewrite E in Hs.
      + exfalso. unfold dottedQuad in Hs. rewrite Ea, append_String in Hs.
        injection Hs as Hc0 _. subst x. discriminate Hx.
      + exfalso. unfold dottedQuad in Hs.
        rewrite Ea, !append_String in Hs.
        injection Hs as Hc0 _. subst x. discriminate Hx.
      + rewrite E4. f_equal. apply Join_itoa_inj; [congruence |].
        rewrite Hjoin. exact Hs.
      + exfalso. pose proof (string6_has_colon ip) as Hcolon.
        rewrite Hs, (dottedQuad_without ":" a b c d) in Hcolon
          by (assumption || reflexivity).
        discriminate Hcolon.
    - intros H4. rewrite (IPString_of_IPv4 ip quad H4). exact Hjoin. }
  assert (Hin : In (expectedIP request)
                  (List.map (fun ip => IPString (addrIP ip)) (ips st))
                <-> exists a0, In a0 (ips st) /\ To4 (addrIP a0) = To4 p).
  { rewrite in_map_iff. split; intros [a0 [H1 H2]]; exists a0.
    - split; [exact H2 | apply Htext, H1].
    - split; [apply Htext, H2 | exact H1]. }
  split; [apply Htext; reflexivity |].
  destruct (processDNSRequest_cases net sched request t fg fc ns vb)
    as [[Hf [Hs Hsp]] | [[Hf [Hm [Hs Hsp]]] | [Hf [Hm [Hs Hsp]]]]];
    fold st in Hf; try fold st in Hm.
  - rewrite He in Hf. cbn [isSome orb] in Hf. apply Nat.eqb_eq in Hf.
    rewrite Hs, Hsp.
    assert (Hnone : (exists a0, In a0 (ips st) /\ To4 (addrIP a0) = To4 p)
                    -> False).
    { intros [a0 [H1 _]]. destruct (ips st); [destruct H1 | discriminate Hf]. }
    split; split; intros H; try discriminate H; destruct (Hnone H).
  - rewrite Hs, Hsp. apply Hin in Hm. split; split; auto.
  - rewrite Hsp.
    assert (Hnone : (exists a0, In a0 (ips st) /\ To4 (addrIP a0) = To4 p)
                    -> False) by (intros H; apply Hm, Hin, H).
    split; split; intros H; try discriminate H; try destruct (Hnone H).
    rewrite H in Hs. discriminate Hs.
Qed.

Lemma MATCH_iff_the_expected_address_is_resolved_witness :
  let net := netAnswering [{| addrIP := [1; 2; 3; 4]%N; Zone := "" |}] in
  let result := fst (processDNSRequest net sampleSchedule sampleRequest
                       DNSTimeout false false false false) in
  IPString (v4InV6Prefix ++ [1; 2; 3; 4]%N) = "1.2.3.4"
  /\ (status result = "MATCH"
      <-> exists a,
            In a [{| addrIP := [1; 2; 3; 4]%N; Zone := "" |}]
            /\ To4 (addrIP a) = To4 (v4InV6Prefix ++ [1; 2; 3; 4]%N))
  /\ status result = "MATCH".
Proof.
  destruct (MATCH_iff_the_expected_address_is_resolved
              (netAnswering [{| addrIP := [1; 2; 3; 4]%N; Zone := "" |}])
              sampleSchedule "1.2.3.4:443 [example.com]" sampleRequest
              (v4InV6Prefix ++ [1; 2; 3; 4]%N) DNSTimeout false false false false
              eq_refl eq_refl eq_refl) as [H1 [H2 _]].
  split; [exact H1 |]. split; [exact H2 |].
  apply H2. eexists. split; [left; reflexivity | reflexivity].
Defined.

(* ===================================================================== *)
(** ** The first version and the current one                              *)
(* ===================================================================== *)

Lemma foundMatch_existsb (expected : string) (answer : list IPAddr) :
  FirstVersion.foundMatch expected answer
  = existsb (fun ipStr => String.eqb ipStr expected)
      (List.map (fun ip => IPString (addrIP ip)) answer).
Proof.
  induction answer as [| a answer IH]; [reflexivity |].
  cbn [FirstVersion.foundMatch List.map existsb]. rewrite IH.
  destruct (String.eqb (IPString (addrIP a)) expected); reflexivity.
Qed.

Lemma parseLine_versions (text : string) :
  match parseLine text, FirstVersion.parseLine text with
  | SkipLine, FirstVersion.SkipLine => True
  | MalformedLine r, FirstVersion.MalformedLine r1 =>
      line r = FirstVersion.line r1 /\ status r = "MALFORMED"
      /\ resolvedIPs r = [] /\ shouldPrint r = true
      /\ FirstVersion.shouldPrint r1 = true
  | RequestLine q, FirstVersion.RequestLine q1 => q = q1
  | _, _ => False
  end.
Proof.
  unfold parseLine, FirstVersion.parseLine.
  destruct (String.eqb (TrimSpace text) ""); [exact I |].
  destruct (negb _); cbn; auto.
Qed.

(** X16: what the current version kept of the first one.  Both versions read
    a line in the same way (skipped, malformed, or the same request).  For
    a request, the current [processDNSRequest] flags its result for
    printing exactly when the first version's [processDNSRequest] does on
    the answer the strategy chain ended with; and where the first version
    prints the input line, the current one prints that line followed by a
    space and the status (and, if there are addresses, a space and the
    addresses): a malformed line gets [ MALFORMED] appended. *)
Theorem the_current_version_prints_the_lines_of_the_first (net : Network)
    (sched : Schedule) (request : DNSRequest) (t : Duration)
    (fg fc ns vb : bool) :
  let st := resolve net (requestContext t) (domain request)
              (buildStrategies t fg fc ns) in
  let now := fst (processDNSRequest net sched request t fg fc ns vb) in
  let before := FirstVersion.processDNSRequest (fun _ _ => (ips st, err st))
                  request in
  line now = FirstVersion.line before
  /\ shouldPrint now = FirstVersion.shouldPrint before
  /\ (FirstVersion.printResult before = [] <-> printResult now = [])
  /\ (forall l, FirstVersion.printResult before = [l] ->
                exists tail, printResult now = [l +:+ " " +:+ tail])
  /\ (forall text,
        match parseLine text, FirstVersion.parseLine text with
        | SkipLine, FirstVersion.SkipLine => True
        | MalformedLine r, FirstVersion.MalformedLine r1 =>
            forall l, FirstVersion.printResult r1 = [l] ->
                      printResult r = [l +:+ " MALFORMED"]
        | RequestLine q, FirstVersion.RequestLine q1 => q = q1
        | _, _ => False
        end).
Proof.
  intros st now before.
  assert (Hline : line now = FirstVersion.line before).
  { assert (H1 : line now = req_line request).
    { subst now. unfold processDNSRequest.
      destruct (isSome _ || _); [reflexivity |].
      destruct (existsb _ _); [reflexivity |].
      destruct (performReverseLookups _ _ _ _ _). reflexivity. }
    rewrite H1. subst before. unfold FirstVersion.processDNSRequest.
    destruct (isSome (err st)); [reflexivity |].
    destruct (FirstVersion.foundMatch _ _); reflexivity. }
  assert (Hflag : shouldPrint now = FirstVersion.shouldPrint before).
  { subst now before. unfold FirstVersion.processDNSRequest.
    rewrite foundMatch_existsb.
    destruct (processDNSRequest_cases net sched request t fg fc ns vb)
      as [[Hf [_ Hsp]] | [[Hf [Hm [_ Hsp]]] | [Hf [Hm [_ Hsp]]]]];
      fold st in Hf; try fold st in Hm; rewrite Hsp.
    - destruct (isSome (err st)); [reflexivity |]. cbn [orb] in Hf.
      apply Nat.eqb_eq in Hf. destruct (ips st); [reflexivity | discriminate Hf].
    - apply orb_false_iff in Hf. destruct Hf as [Hf _]. rewrite Hf.
      rewrite (existsb_eqb_In _ _ Hm). reflexivity.
    - apply orb_false_iff in Hf. destruct Hf as [Hf _]. rewrite Hf.
      rewrite (existsb_eqb_not_In _ _ Hm). reflexivity. }
  split; [exact Hline |]. split; [exact Hflag |].
  unfold FirstVersion.printResult, printResult. rewrite <- Hflag, <- Hline.
  split; [| split].
  - destruct (shouldPrint now); [| tauto].
    destruct (0 <? length (resolvedIPs now))%nat; split; discriminate.
  - intros l. destruct (shouldPrint now); [| discriminate]. intros [= <-].
    destruct (0 <? length (resolvedIPs now))%nat; eexists; reflexivity.
  - intros text. pose proof (parseLine_versions text) as H.
    destruct (parseLine text) as [| r | q],
      (FirstVersion.parseLine text) as [| r1 | q1]; try exact H.
    destruct H as [H1 [H2 [H3 [H4 H5]]]]. intros l.
    unfold FirstVersion.printResult, printResult.
    rewrite H4, H5, H3, H2, H1. cbn. intros [= <-]. reflexivity.
Qed.

(* ===================================================================== *)
(** ** Where the order of the provider table matters                      *)
(* ===================================================================== *)

Lemma agree_of_common_address (ip : list N) :
  forall nn1 m1 nn2 m2,
    length nn1 = length ip -> length nn2 = length ip ->
    sameUnderMask nn1 m1 ip = true -> sameUnderMask nn2 m2 ip = true ->
    agreeUnderBothMasks nn1 m1 nn2 m2 = true.
Proof.
  induction ip as [| y ip IH]; intros nn1 m1 nn2 m2 L1 L2 H1 H2.
  - destruct nn1; [reflexivity | discriminate L1].
  - destruct nn1 as [| x1 nn1]; [discriminate L1 |].
    destruct nn2 as [| x2 nn2]; [discriminate L2 |].
    cbn [sameUnderMask agreeUnderBothMasks] in *.
    apply andb_true_iff in H1, H2. destruct H1 as [E1 H1], H2 as [E2 H2].
    apply N.eqb_eq in E1, E2.
    apply andb_true_iff. split.
    + apply N.eqb_eq.
      rewrite (N.land_assoc x1), E1, <- N.land_assoc.
      rewrite (N.land_comm (hd 0%N m1)), (N.land_assoc x2), E2, <- N.land_assoc.
      reflexivity.
    + apply IH; [injection L1; auto | injection L2; auto | exact H1 | exact H2].
Qed.

Lemma Contains_mayShareAddress (n1 n2 : IPNet) (ip : IP) :
  Contains n1 ip = true -> Contains n2 ip = true -> mayShareAddress n1 n2 = true.
Proof.
  unfold Contains, mayShareAddress.
  destruct (networkNumberAndMask n1) as [nn1 m1].
  destruct (networkNumberAndMask n2) as [nn2 m2].
  set (ip' := match To4 ip with Some x => x | None => ip end).
  destruct (length ip' =? length nn1)%nat eqn:E1; cbn [negb]; [| discriminate].
  destruct (length ip' =? length nn2)%nat eqn:E2; cbn [negb]; [| discriminate].
  apply Nat.eqb_eq in E1, E2. intros H1 H2.
  apply andb_true_iff. split; [apply Nat.eqb_eq; congruence |].
  apply (agree_of_common_address ip'); auto.
Qed.

Lemma overlapsAreKnown_holds : overlapsAreKnown = true.
Proof. vm_compute. reflexivity. Qed.

Lemma shared_address_is_the_known_overlap (ip p q : string) :
  fallsInside ip p -> fallsInside ip q -> p <> q ->
  exists cidr1 cidr2,
    insidePrefix ip cidr1 /\ insidePrefix ip cidr2
    /\ knownOverlap p cidr1 q cidr2 = true.
Proof.
  intros [cidrs1 [cidr1 [T1 [C1 I1]]]] [cidrs2 [cidr2 [T2 [C2 I2]]]] Hne.
  exists cidr1, cidr2. split; [exact I1 |]. split; [exact I2 |].
  pose proof overlapsAreKnown_holds as H. unfold overlapsAreKnown in H.
  rewrite forallb_forall in H. specialize (H _ T1).
  rewrite forallb_forall in H. specialize (H _ T2). cbn [fst snd] in H.
  apply orb_true_iff in H. destruct H as [H | H].
  { apply String.eqb_eq in H. contradiction. }
  rewrite forallb_forall in H. specialize (H _ C1).
  rewrite forallb_forall in H. specialize (H _ C2).
  apply orb_true_iff in H. destruct H as [H | H]; [| exact H].
  exfalso. apply negb_true_iff in H.
  destruct I1 as [p1 [n1 [P1 [N1 K1]]]], I2 as [p2 [n2 [P2 [N2 K2]]]].
  assert (p2 = p1) by congruence. subst p2.
  unfold mayShareAddressText in H. rewrite N1, N2 in H.
  rewrite (Contains_mayShareAddress n1 n2 p1 K1 K2) in H. discriminate H.
Qed.

(** X17: where the order of the provider table matters.  The prefixes of two
    different providers of the table share an address only inside
    54.239.0.0/16: an address that falls inside prefixes of two providers
    falls inside 54.239.0.0/16, and the two providers are CloudFront and
    AWS Global Accelerator.  So for a list with no address inside
    54.239.0.0/16 the answer of [detectCDN] is the same for every order in
    which Go visits the table. *)
Theorem providers_share_addresses_only_in_one_block (ip p q : string) :
  (fallsInside ip p -> fallsInside ip q -> p <> q ->
   insidePrefix ip "54.239.0.0/16"
   /\ ((p = "cloudfront" /\ q = "aws_global_accelerator")
       \/ (p = "aws_global_accelerator" /\ q = "cloudfront")))
  /\ (forall order1 order2 ips,
        validOrder order1 -> validOrder order2 ->
        (forall x, In x ips -> insidePrefix x "54.239.0.0/16" -> False) ->
        detectCDN order1 ips = detectCDN order2 ips).
Proof.
  assert (Hshare : forall ip p q,
            fallsInside ip p -> fallsInside ip q -> p <> q ->
            insidePrefix ip "54.239.0.0/16"
            /\ ((p = "cloudfront" /\ q = "aws_global_accelerator")
                \/ (p = "aws_global_accelerator" /\ q = "cloudfront"))).
  { clear. intros ip p q Hp Hq Hne.
    destruct (shared_address_is_the_known_overlap ip p q Hp Hq Hne)
      as [cidr1 [cidr2 [I1 [I2 K]]]].
    unfold knownOverlap in K. apply orb_true_iff in K.
    destruct K as [K | K];
      repeat (apply andb_true_iff in K; destruct K as [K ?]);
      repeat match goal with
             | E : String.eqb _ _ = true |- _ => apply String.eqb_eq in E
             end; subst; auto. }
  split; [apply Hshare |].
  intros order1 order2 ips V1 V2 Hout. unfold detectCDN.
  apply detectCDNFrom_unambiguous; try assumption.
  intros x p' q' Hin Hp Hq.
  destruct (string_dec p' q') as [E | Hne]; [exact E |].
  exfalso. destruct (Hshare x p' q' Hp Hq Hne) as [H _]. exact (Hout x Hin H).
Qed.

Lemma providers_share_addresses_only_in_one_block_witness :
  fallsInside "54.239.128.1" "cloudfront"
  /\ fallsInside "54.239.128.1" "aws_global_accelerator"
  /\ insidePrefix "54.239.128.1" "54.239.0.0/16"
  /\ detectCDN sourceOrder ["23.32.0.1"] = detectCDN reverseOrder ["23.32.0.1"].
Proof.
  assert (H1 : fallsInside "54.239.128.1" "cloudfront").
  { apply fallsInside_providersOf. vm_compute. left. reflexivity. }
  assert (H2 : fallsInside "54.239.128.1" "aws_global_accelerator").
  { apply fallsInside_providersOf. vm_compute. right. left. reflexivity. }
  destruct (providers_share_addresses_only_in_one_block "54.239.128.1"
              "cloudfront" "aws_global_accelerator") as [Hs Hd].
  split; [exact H1 |]. split; [exact H2 |]. split.
  - apply (Hs H1 H2). discriminate.
  - apply Hd; [exact validOrder_sourceOrder | exact validOrder_reverseOrder |].
    intros x [<- | []] [p [n [Hp [Hn Hc]]]].
    vm_compute in Hp. injection Hp as <-.
    vm_compute in Hn. injection Hn as <-.
    vm_compute in Hc. discriminate Hc.
Defined.
